(** * Loki front end: lowering of fparser parse trees and code generation

    A shallow embedding of the parts of [loki/frontend/fparser.py],
    [loki/codegen.py] and [loki/backend/maxgen.py] that decide the
    properties below: the expression constructor [create_operation], the
    handlers of the lowering visitor [FParser2IR] for references, imports,
    marker-bounded constructs and unhandled node kinds, and the statement
    and sum printers of the Fortran and Maxeler back ends.

    Python objects are dynamically typed; the embedding keeps one universe
    [value] for everything a handler can return (None, str, int, tuples,
    expression nodes, IR nodes), and one type [node] for the parse tree that
    fparser hands in (a class, the reader item, the text, the children).
    Exceptions are the error side of [res]; the visitor runs in a state and
    exception monad [M] over the scope store, the log and the strict-mode
    switch. *)

From Stdlib Require Import ZArith String Ascii List Bool Lia DecimalString.
From stdpp Require Import gmap strings list fin_maps.
Import ListNotations.
Set Warnings "-register-all".
Local Open Scope string_scope.
Local Open Scope Z_scope.

(** ** Python exceptions and results *)

Inductive exn : Type :=
| NotImplementedError
| AssertionError
| RuntimeError
| IndexError
| ValueError
| KeyError
| AttributeError
| TypeError
| UnboundLocalError
| RecursionError.

Inductive res (A : Type) : Type :=
| Ok (a : A)
| Err (e : exn).
Arguments Ok {A} a.
Arguments Err {A} e.

Definition res_bind {A B} (r : res A) (k : A -> res B) : res B :=
  match r with
  | Ok a => k a
  | Err e => Err e
  end.

Declare Scope res_scope.
Delimit Scope res_scope with res.
Notation "'let?' x ':=' c 'in' k" := (res_bind c (fun x => k))
  (at level 10, x name, c at level 100, k at level 200) : res_scope.
Local Open Scope res_scope.

(** ** Source spans *)

(** [loki.frontend.source.Source]: a line range and the exact substring. *)
Record Source : Type := mkSource {
  lines : Z * Z;
  src_string : option string
}.

Definition clone_with_string (s : Source) (txt : string) : Source :=
  {| lines := lines s; src_string := Some txt |}.

(** ** Types of symbols *)

Inductive BasicType : Type :=
| DEFERRED | LOGICAL | INTEGER | REAL | CHARACTER | COMPLEX.

(** ** The universe of lowered objects *)

(** One constructor per class that the lowering engine instantiates.
    [SymVariable] stands for [sym.Variable], a factory whose class is not
    part of the lowered sources: the node keeps its constructor arguments,
    [dimensions] being [PyNone] for a plain name.  [PyInt] is a bare Python integer, as in [sym.Product((-1, e))]. *)
Inductive value : Type :=
| PyNone
| PyStr (s : string)
| PyInt (z : Z)
| PyTuple (items : list value)
(* expression algebra *)
| SymVariable (name : string) (dimensions : value) (parent : value)
           (scope : option nat) (source : option Source)
| IntLiteral (v : Z) (kind : value) (source : option Source)
| FloatLiteral (v : string) (kind : value) (source : option Source)
| LogicLiteral (v : string) (source : option Source)
| StringLiteral (v : string) (source : option Source)
| Sum (children : list value) (source : option Source)
| Product (children : list value) (source : option Source)
| Quotient (numerator denominator : value) (source : option Source)
| Power (base exponent : value) (source : option Source)
| Comparison (left : value) (operator : string) (right : value)
             (source : option Source)
| LogicalAnd (children : list value) (source : option Source)
| LogicalOr (children : list value) (source : option Source)
| LogicalNot (child : value) (source : option Source)
| StringConcat (children : list value) (source : option Source)
| ParenthesisedAdd (children : list value) (source : option Source)
| ParenthesisedMul (children : list value) (source : option Source)
| ParenthesisedPow (base exponent : value) (source : option Source)
| InlineCall (function : value) (parameters : value) (kw_parameters : value)
             (source : option Source)
(* control-flow IR *)
| Conditional (condition : value) (body : list value) (else_body : list value)
              (inline has_elseif : bool) (name : option string)
              (label : option string) (source : option Source)
| MultiConditional (expr : value) (values : list value) (bodies : list value)
                   (else_body : value) (label : option string)
                   (name : option string) (source : option Source)
| Associate (associations : list value) (body : list value)
            (label : option string) (source : option Source)
| Interface (spec : value) (body : list value)
            (label : option string) (source : option Source)
| Import (module : string) (symbols : value)
         (label : option string) (source : option Source)
| Intrinsic (text : string) (label : option string) (source : option Source)
| Assignment (lhs rhs : value) (ptr : bool)
             (label : option string) (source : option Source)
(* the node classes as the printers name them *)
| Statement (target expr : value) (ptr : bool) (comment : value)
| Operation (ops : list string) (operands : list value) (parenthesis : bool)
| LiteralList (values : value)
(* [Variable], a keyword here: a variable with its sub-variable *)
| Variable_ (name : string) (dimensions : value) (subvar : value).

(** Python truth value of an object: [None], empty tuples and strings and
    the integer zero are false, every other object is true. *)
Definition truthy (v : value) : bool :=
  match v with
  | PyNone => false
  | PyStr s => negb (String.eqb s "")
  | PyInt z => negb (z =? 0)
  | PyTuple items => match items with [] => false | _ => true end
  | _ => true
  end.

(** [loki.tools.as_tuple]: [None] is the empty tuple, a tuple stays, any
    other object becomes a one-element tuple. *)
Definition as_tuple (v : value) : list value :=
  match v with
  | PyNone => []
  | PyTuple items => items
  | _ => [v]
  end.

(** ** Strings *)

(** [str.lower] on the ASCII range. *)
Definition lower_ascii (c : ascii) : ascii :=
  let n := nat_of_ascii c in
  if ((65 <=? n)%nat && (n <=? 90)%nat)%bool then ascii_of_nat (n + 32) else c.

Fixpoint lower (s : string) : string :=
  match s with
  | EmptyString => EmptyString
  | String c r => String (lower_ascii c) (lower r)
  end.

Definition str_in (s : string) (l : list string) : bool :=
  existsb (String.eqb s) l.

(** ** Expression algebra: [create_operation] *)

(** [exprs[i]] for a non-negative constant index. *)
Definition getitem (exprs : list value) (i : nat) : res value :=
  match nth_error exprs i with
  | Some v => Ok v
  | None => Err IndexError
  end.

Definition create_operation (op : string) (exprs : list value)
    (source : option Source) : res value :=
  if String.eqb op "*" then Ok (Product exprs source)
  else if String.eqb op "/" then
    let? n := getitem exprs 0 in
    let? d := getitem exprs 1 in
    Ok (Quotient n d source)
  else if String.eqb op "+" then Ok (Sum exprs source)
  else if String.eqb op "-" then
    if (1 <? length exprs)%nat then
      (* Binary minus *)
      let? e0 := getitem exprs 0 in
      let? e1 := getitem exprs 1 in
      Ok (Sum [e0; Product [PyInt (-1); e1] None] source)
    else
      (* Unary minus *)
      let? e0 := getitem exprs 0 in
      Ok (Product [PyInt (-1); e0] source)
  else if String.eqb op "**" then
    let? b := getitem exprs 0 in
    let? e := getitem exprs 1 in
    Ok (Power b e source)
  else if String.eqb (lower op) ".and." then Ok (LogicalAnd exprs source)
  else if String.eqb (lower op) ".or." then Ok (LogicalOr exprs source)
  else if str_in (lower op) ["=="; ".eq."] then
    let? l := getitem exprs 0 in
    let? r := getitem exprs 1 in
    Ok (Comparison l "==" r source)
  else if str_in (lower op) ["/="; ".ne."] then
    let? l := getitem exprs 0 in
    let? r := getitem exprs 1 in
    Ok (Comparison l "!=" r source)
  else if str_in (lower op) [">"; ".gt."] then
    let? l := getitem exprs 0 in
    let? r := getitem exprs 1 in
    Ok (Comparison l ">" r source)
  else if str_in (lower op) ["<"; ".lt."] then
    let? l := getitem exprs 0 in
    let? r := getitem exprs 1 in
    Ok (Comparison l "<" r source)
  else if str_in (lower op) [">="; ".ge."] then
    let? l := getitem exprs 0 in
    let? r := getitem exprs 1 in
    Ok (Comparison l ">=" r source)
  else if str_in (lower op) ["<="; ".le."] then
    let? l := getitem exprs 0 in
    let? r := getitem exprs 1 in
    Ok (Comparison l "<=" r source)
  else if String.eqb (lower op) ".not." then
    let? e := getitem exprs 0 in
    Ok (LogicalNot e source)
  else if String.eqb (lower op) ".eqv." then
    Ok (LogicalOr [LogicalAnd exprs source;
                   LogicalNot (LogicalOr exprs source) None] source)
  else if String.eqb (lower op) ".neqv." then
    Ok (LogicalAnd [LogicalNot (LogicalAnd exprs source) None;
                    LogicalOr exprs source] source)
  else if String.eqb op "//" then Ok (StringConcat exprs source)
  else Err RuntimeError.

(** ** Symbol attributes, scopes and the visitor state *)

Inductive DataType : Type :=
| Basic (t : BasicType)
| DerivedType (name : string)
| ProcedureType (name : string) (is_function : bool).

Definition is_ProcedureType (d : DataType) : bool :=
  match d with
  | ProcedureType _ _ => true
  | _ => false
  end.

(** [loki.types.SymbolAttributes]: the data-type tag, kind, shape, intent,
    the flags and the initial value; [dfevar] is the streaming mark that the
    Maxeler back end reads. *)
Record SymbolAttributes : Type := mkAttrs {
  dtype : DataType;
  kind : value;
  shape : value;
  intent : option string;
  initial : value;
  allocatable : bool;
  pointer : bool;
  optional : bool;
  parameter : bool;
  target : bool;
  contiguous : bool;
  external : bool;
  imported : option bool;
  module : option string;
  dfevar : bool
}.

(** [SymbolAttributes(dtype, imported=...)]: every other attribute unset. *)
Definition new_attrs (d : DataType) (imp : option bool) : SymbolAttributes :=
  {| dtype := d; kind := PyNone; shape := PyNone; intent := None;
     initial := PyNone; allocatable := false; pointer := false;
     optional := false; parameter := false; target := false;
     contiguous := false; external := false; imported := imp;
     module := None; dfevar := false |}.

(** [attrs.clone(imported=True, module=m)] *)
Definition clone_imported (a : SymbolAttributes) (m : string) : SymbolAttributes :=
  {| dtype := dtype a; kind := kind a; shape := shape a; intent := intent a;
     initial := initial a; allocatable := allocatable a; pointer := pointer a;
     optional := optional a; parameter := parameter a; target := target a;
     contiguous := contiguous a; external := external a;
     imported := Some true; module := Some m; dfevar := dfevar a |}.

(** [attrs.clone(shape=s)] *)
Definition clone_shape (a : SymbolAttributes) (s : value) : SymbolAttributes :=
  {| dtype := dtype a; kind := kind a; shape := s; intent := intent a;
     initial := initial a; allocatable := allocatable a; pointer := pointer a;
     optional := optional a; parameter := parameter a; target := target a;
     contiguous := contiguous a; external := external a;
     imported := imported a; module := module a; dfevar := dfevar a |}.

(** A scope object: its own table, keyed by lower-cased name, and the
    address of its parent in the store of scope objects. *)
Record Scope : Type := mkScope {
  symbols : gmap string SymbolAttributes;
  parent_scope : option nat
}.

(** A module of the [definitions] table. *)
Record ModuleDef : Type := mkModule {
  module_name : string;
  module_symbols : gmap string SymbolAttributes
}.

Inductive level : Type := WARNING | ERROR.

(** What lowering reads and writes besides its arguments: the ambient
    [config['frontend-strict-mode']], the messages handed to
    [loki.logging], and the store of scope objects (scopes are shared by
    reference and mutated in place). *)
Record state : Type := mkState {
  strict_mode : bool;
  log : list (level * string);
  scopes : gmap nat Scope
}.

(** Modelled from the spec: [Scope]/[SymbolTable.lookup] is not among the
    lowered sources.  Lookup is case-insensitive and walks the chain of
    parents outward; the nearest definition wins; it never raises.  The
    walk is cut after as many steps as there are scope objects. *)
Fixpoint lookup_chain (fuel : nat) (store : gmap nat Scope) (sid : nat)
    (name : string) : option SymbolAttributes :=
  match fuel with
  | O => None
  | S n =>
      match store !! sid with
      | None => None
      | Some sc =>
          match symbols sc !! lower name with
          | Some a => Some a
          | None =>
              match parent_scope sc with
              | Some p => lookup_chain n store p name
              | None => None
              end
          end
      end
  end.

Definition lookup (store : gmap nat Scope) (sid : nat) (name : string)
    : option SymbolAttributes :=
  lookup_chain (S (size store)) store sid name.

(** [scope.symbols[name] = attrs] on the scope object at address [sid]. *)
Definition define (store : gmap nat Scope) (sid : nat) (name : string)
    (a : SymbolAttributes) : gmap nat Scope :=
  match store !! sid with
  | Some sc =>
      <[sid := {| symbols := <[lower name := a]> (symbols sc);
                  parent_scope := parent_scope sc |}]> store
  | None => store
  end.

(** ** The state and exception monad of the visitor *)

Definition M (A : Type) : Type := state -> res A * state.

Definition ret {A} (a : A) : M A := fun st => (Ok a, st).
Definition raise {A} (e : exn) : M A := fun st => (Err e, st).
Definition bind {A B} (m : M A) (k : A -> M B) : M B :=
  fun st =>
    match m st with
    | (Ok a, st') => k a st'
    | (Err e, st') => (Err e, st')
    end.
Definition lift {A} (r : res A) : M A := fun st => (r, st).
Definition get_state : M state := fun st => (Ok st, st).
Definition put_state (st' : state) : M unit := fun _ => (Ok tt, st').

Declare Scope m_scope.
Delimit Scope m_scope with M.
Notation "x <- c ;; k" := (bind c (fun x => k))
  (at level 100, c at next level, right associativity) : m_scope.
Notation "c ;;; k" := (bind c (fun _ => k))
  (at level 100, k at level 100, right associativity) : m_scope.
Local Open Scope m_scope.

(** [tuple(f(c) for c in l)]: left to right, stopping at the first
    exception. *)
Fixpoint mapM {A B} (f : A -> M B) (l : list A) : M (list B) :=
  match l with
  | [] => ret []
  | x :: r =>
      y <- f x ;;
      ys <- mapM f r ;;
      ret (y :: ys)
  end.

(** [assert c] *)
Definition assert_ (c : bool) : M unit :=
  if c then ret tt else raise AssertionError.

(** [loki.logging.warning] and [loki.logging.error]: the message is
    handed to the logger. *)
Definition emit (l : level) (msg : string) : M unit :=
  fun st => (Ok tt, {| strict_mode := strict_mode st;
                       log := log st ++ [(l, msg)];
                       scopes := scopes st |}).
Definition warning (msg : string) : M unit := emit WARNING msg.
Definition error (msg : string) : M unit := emit ERROR msg.

(** [FParser2IR.warn_or_fail] *)
Definition warn_or_fail (msg : string) : M unit :=
  st <- get_state ;;
  if strict_mode st then
    error msg ;;;
    raise NotImplementedError
  else
    warning msg.

(** ** The parse tree handed in by fparser *)

(** The classes of [fparser.two.Fortran2003] that the embedded handlers
    look at.  [Unhandled name is_block] is any other class, by its name;
    [is_block] tells whether it derives from [BlockBase].  The dispatch of
    the visitor below knows no handler for it, as is the case in
    [FParser2IR] for a class such as [Procedure_Declaration_Stmt]; a
    handler of [FParser2IR] that is studied on its own is applied to its
    node directly, whatever the class of the node. *)
Inductive fclass : Type :=
| Name | Part_Ref | Section_Subscript_List
| Use_Stmt | Module_Name | Only_List
| If_Construct | If_Then_Stmt | Else_If_Stmt | Else_Stmt | End_If_Stmt
| Associate_Construct | Associate_Stmt | End_Associate_Stmt
| Association_List | Association
| Interface_Block | Interface_Stmt | End_Interface_Stmt
| Case_Construct | Select_Case_Stmt | Case_Stmt | End_Select_Stmt
| Case_Selector | Case_Value_Range_List
| Int_Literal_Constant | Signed_Int_Literal_Constant
| Real_Literal_Constant | Signed_Real_Literal_Constant
| Add_Operand | Mult_Operand | And_Operand | Or_Operand | Equiv_Operand
| Level_2_Expr | Level_2_Unary_Expr | Level_3_Expr | Level_4_Expr | Level_5_Expr
| Parenthesis
| Assignment_Stmt | Pointer_Assignment_Stmt
| Continue_Stmt | Return_Stmt | Cycle_Stmt | Exit_Stmt | Stop_Stmt
| Unhandled (name : string) (is_block : bool).

#[global] Instance fclass_eq_dec : EqDecision fclass.
Proof. solve_decision. Defined.

(** The reader item of a statement: its line span, label and construct
    name. *)
Record Item : Type := mkItem {
  span : Z * Z;
  item_label : option string;
  item_name : option string
}.

#[global] Instance Item_eq_dec : EqDecision Item.
Proof. solve_decision. Defined.

(** A child of a parse-tree node is [None], a plain [str] or a node; a
    node has its class, its reader item (or [None]), its text ([o.string],
    which [o.tostr()] reproduces) and its children ([o.children], also
    reached as [o.items] and [o.content]). *)
Inductive node : Type :=
| FNone
| FStr (s : string)
| FNode (cls : fclass) (item : option Item) (text : string)
        (children : list node).

(** [a is b] for two children of one node: the same object, that is the
    same class, reader item, text and children *)
Fixpoint node_same (a b : node) : bool :=
  match a, b with
  | FNone, FNone => true
  | FStr s, FStr t => String.eqb s t
  | FNode c i t ch, FNode c' i' t' ch' =>
      bool_decide (c = c') && bool_decide (i = i') && String.eqb t t' &&
      (fix all2 (l l' : list node) : bool :=
         match l, l' with
         | [], [] => true
         | x :: r, y :: r' => node_same x y && all2 r r'
         | _, _ => false
         end) ch ch'
  | _, _ => false
  end.

(** The classes of the blocks: their nodes keep their children in the
    list [content], the nodes of the other classes in the tuple [items] *)
Definition is_block (c : fclass) : bool :=
  match c with
  | If_Construct | Associate_Construct | Interface_Block | Case_Construct =>
      true
  | Unhandled _ b => b
  | _ => false
  end.

(** [a == b] for two objects of a parse tree.  fparser compares two nodes
    by their keys alone, whatever their classes, reader items and texts
    ([_cmpkey]): the key of a block is the list of its content, the key of
    a string node (a node without children, such as a name or [CONTINUE])
    is its string, and the key of any other node is the tuple of its
    items.  So [RETURN] and [ELSE], each with the single item [None], are
    equal.  Keys of different kinds are not equal.  [None] equals [None],
    and a [str] an equal [str]. *)
Fixpoint node_eqb (a b : node) : bool :=
  match a, b with
  | FNone, FNone => true
  | FStr s, FStr t => String.eqb s t
  | FNode c _ t ch, FNode c' _ t' ch' =>
      match ch, ch' with
      | [], [] =>
          if is_block c then is_block c'
          else negb (is_block c') && String.eqb t t'
      | _ :: _, _ :: _ =>
          Bool.eqb (is_block c) (is_block c') &&
          (fix all2 (l l' : list node) : bool :=
             match l, l' with
             | [], [] => true
             | x :: r, y :: r' => node_eqb x y && all2 r r'
             | _, _ => false
             end) ch ch'
      | _, _ => false
      end
  | _, _ => false
  end.

Definition is_none (o : node) : bool :=
  match o with FNone => true | _ => false end.

(** [isinstance(o, C)] *)
Definition isinstance (o : node) (c : fclass) : bool :=
  match o with
  | FNode c' _ _ _ => bool_decide (c' = c)
  | _ => false
  end.

(** [o == s] for a string constant [s] *)
Definition eq_str (o : node) (s : string) : bool :=
  match o with FStr t => String.eqb t s | _ => false end.

Definition node_children (o : node) : res (list node) :=
  match o with
  | FNode _ _ _ ch => Ok ch
  | _ => Err AttributeError
  end.

(** [o.children[i]] *)
Definition child (o : node) (i : nat) : res node :=
  let? ch := node_children o in
  match nth_error ch i with
  | Some c => Ok c
  | None => Err IndexError
  end.

(** [o.tostr()] and [o.string] *)
Definition tostr (o : node) : res string :=
  match o with
  | FNode _ _ t _ => Ok t
  | _ => Err AttributeError
  end.

(** [o.item], then an attribute of it *)
Definition node_item (o : node) : res Item :=
  match o with
  | FNode _ (Some it) _ _ => Ok it
  | _ => Err AttributeError
  end.

(** [fparser.two.utils.get_child]: the first child of the class, or
    [None]. *)
Definition get_child (ch : list node) (c : fclass) : node :=
  match List.find (fun x => isinstance x c) ch with
  | Some x => x
  | None => FNone
  end.

(** [l.index(x)]: the position of the first element that is [x] or is
    equal to [x]. *)
Fixpoint index_from (x : node) (l : list node) (i : nat) : res nat :=
  match l with
  | [] => Err ValueError
  | y :: r =>
      if node_same y x || node_eqb y x then Ok i else index_from x r (S i)
  end.
Definition py_index (l : list node) (x : node) : res nat := index_from x l 0.

(** [not l] *)
Definition is_nil {A} (l : list A) : bool :=
  match l with [] => true | _ => false end.

(** [l[a:b]] for non-negative [a] and [b] *)
Definition slice {A} (l : list A) (a b : nat) : list A :=
  firstn (b - a) (skipn a l).

(** [l[a:b]] for arbitrary integers: a negative bound counts from the
    end, and bounds are clipped to the list. *)
Definition clip (len i : Z) : Z :=
  if i <? 0 then Z.max 0 (i + len) else Z.min i len.
Definition py_slice {A} (l : list A) (a b : Z) : list A :=
  let len := Z.of_nat (length l) in
  slice l (Z.to_nat (clip len a)) (Z.to_nat (clip len b)).

Definition nl : ascii := ascii_of_nat 10.

Fixpoint lstrip_nl (s : string) : string :=
  match s with
  | EmptyString => EmptyString
  | String c r => if Ascii.eqb c nl then lstrip_nl r else s
  end.

Fixpoint rstrip_nl (s : string) : string :=
  match s with
  | EmptyString => EmptyString
  | String c r =>
      let r' := rstrip_nl r in
      if Ascii.eqb c nl && String.eqb r' "" then EmptyString else String c r'
  end.

(** [s.strip('\n')] *)
Definition strip_nl (s : string) : string := rstrip_nl (lstrip_nl s).

(** [Source(lines, ''.join(raw_source[first-1:last]).strip('\n'))] *)
Definition span_source (raw : list string) (first last : Z) : Source :=
  {| lines := (first, last);
     src_string := Some (strip_nl (String.concat "" (py_slice raw (first - 1) last))) |}.

(** ** The lowering visitor [FParser2IR] *)

(** The visitor object: the raw source split into lines (line ends kept),
    the definitions table keyed by lower-cased module name, and the scope
    it was created for. *)
Record FParser2IR : Type := mkFParser2IR {
  raw_source : list string;
  definitions : gmap string ModuleDef;
  self_scope : option nat
}.

(** The keyword arguments every handler receives. *)
Record kwargs : Type := mkKw {
  kw_source : option Source;
  kw_label : option string;
  kw_scope : option nat
}.

Definition get_source (self : FParser2IR) (o : node) (source : option Source)
    : res (option Source) :=
  match o with
  | FStr _ => Ok source
  | FNone => Err AttributeError
  | FNode _ None _ _ => Ok source
  | FNode _ (Some it) _ _ =>
      Ok (Some (span_source (raw_source self) (fst (span it)) (snd (span it))))
  end.

Definition get_label (o : node) : res (option string) :=
  match o with
  | FStr _ => Ok None
  | FNone => Err AttributeError
  | FNode _ None _ _ => Ok None
  | FNode _ (Some it) _ _ => Ok (item_label it)
  end.

(** Attribute access on lowered objects *)

(** [v.name] of a variable *)
Definition var_name (v : value) : res string :=
  match v with
  | SymVariable n _ _ _ _ => Ok n
  | _ => Err AttributeError
  end.

(** [v.clone(dimensions=d)] *)
Definition clone_dimensions (v d : value) : res value :=
  match v with
  | SymVariable n _ p sc s => Ok (SymVariable n d p sc s)
  | _ => Err AttributeError
  end.

(** [v.clone(scope=sc)] *)
Definition clone_scope (v : value) (sc : option nat) : res value :=
  match v with
  | SymVariable n d p _ s => Ok (SymVariable n d p sc s)
  | _ => Err AttributeError
  end.

(** [for s in v]: only tuples are iterated here *)
Definition iter (v : value) : res (list value) :=
  match v with
  | PyTuple items => Ok items
  | _ => Err TypeError
  end.

(** [kwargs['scope'].symbols], read: the scope object must exist *)
Definition scope_addr (kw : kwargs) : M nat :=
  match kw_scope kw with
  | None => raise AttributeError
  | Some sid =>
      st <- get_state ;;
      match scopes st !! sid with
      | Some _ => ret sid
      | None => raise AttributeError
      end
  end.

(** [kwargs['scope'].symbols.lookup(name)] *)
Definition scope_lookup (kw : kwargs) (name : string)
    : M (option SymbolAttributes) :=
  sid <- scope_addr kw ;;
  st <- get_state ;;
  ret (lookup (scopes st) sid name).

(** [kwargs['scope'].symbols[name] = a] *)
Definition scope_define (kw : kwargs) (name : string) (a : SymbolAttributes)
    : M unit :=
  sid <- scope_addr kw ;;
  st <- get_state ;;
  put_state {| strict_mode := strict_mode st; log := log st;
               scopes := define (scopes st) sid name a |}.

Fixpoint mapR {A B} (f : A -> res B) (l : list A) : res (list B) :=
  match l with
  | [] => Ok []
  | x :: r =>
      let? y := f x in
      let? ys := mapR f r in
      Ok (y :: ys)
  end.

(** [enumerate(l)] *)
Definition enumerate {A} (l : list A) : list (nat * A) :=
  combine (seq 0 (length l)) l.

(** [l[i]] for a computed non-negative index, and [l[-1]] *)
Definition nth_res {A} (l : list A) (i : nat) : res A :=
  match nth_error l i with
  | Some x => Ok x
  | None => Err IndexError
  end.
Definition last_res {A} (l : list A) : res A :=
  nth_res l (length l - 1).

(** [int(s)] for a decimal literal with an optional sign *)
Definition digit_of (c : ascii) : option Z :=
  let n := nat_of_ascii c in
  if ((48 <=? n)%nat && (n <=? 57)%nat)%bool then Some (Z.of_nat (n - 48)) else None.

Fixpoint digits_value (s : string) (acc : Z) : option Z :=
  match s with
  | EmptyString => Some acc
  | String c r =>
      match digit_of c with
      | Some d => digits_value r (10 * acc + d)
      | None => None
      end
  end.

(** [s.isdigit()] *)
Definition isdigit (s : string) : bool :=
  match s with
  | EmptyString => false
  | _ => match digits_value s 0 with Some _ => true | None => false end
  end.

Definition int_of_string (s : string) : res Z :=
  let unsigned (t : string) : res Z :=
    if isdigit t then
      match digits_value t 0 with Some z => Ok z | None => Err ValueError end
    else Err ValueError in
  match s with
  | String "-" r => let? z := unsigned r in Ok (- z)
  | String "+" r => unsigned r
  | _ => unsigned s
  end.

(** Modelled from the spec: the factory [sym.Literal] is not among the
    lowered sources.  A literal is an int, float, logical or string
    literal according to the type it is created with. *)
Definition Literal (val : string) (ty : BasicType) (knd : value)
    (source : option Source) : res value :=
  match ty with
  | INTEGER => let? z := int_of_string val in Ok (IntLiteral z knd source)
  | REAL => Ok (FloatLiteral val knd source)
  | LOGICAL => Ok (LogicLiteral val source)
  | CHARACTER => Ok (StringLiteral val source)
  | _ => Err ValueError
  end.

(** The text of a plain [str] child *)
Definition str_of (o : node) : res string :=
  match o with
  | FStr s => Ok s
  | _ => Err AttributeError
  end.

(** [str(o)] of a child *)
Definition py_str (o : node) : string :=
  match o with
  | FStr s => s
  | FNode _ _ t _ => t
  | FNone => "None"
  end.

(** [o.__class__.name], read for the message of the universal defaults.
    The name of a class is its attribute [__name__]; no class of the
    parse tree (nor [str], nor the class of [None]) has an attribute
    [name], so the access raises AttributeError on every object. *)
Definition node_class_name (o : node) : res string := Err AttributeError.

(** The loop that builds the chain of conditionals backwards, using each
    else-if branch as the else body of the branch before it. *)
Definition build_conditional (conditions : list value)
    (bodies : list (list value)) (else_body : list value)
    (labels : list (option string)) (sources : list Source) : res value :=
  let? c := last_res conditions in
  let? b := last_res bodies in
  let? l := last_res labels in
  let? s := last_res sources in
  fold_left
    (fun acc idx =>
       let? node := acc in
       let? c := nth_res conditions idx in
       let? b := nth_res bodies idx in
       let? l := nth_res labels idx in
       let? s := nth_res sources idx in
       Ok (Conditional c b [node] false true None l (Some s)))
    (rev (seq 0 (length conditions - 1)))
    (Ok (Conditional c b else_body false false None l (Some s))).

(** [node._update(name=name)] *)
Definition update_name (v : value) (nm : option string) : res value :=
  match v with
  | Conditional c b e i h _ l s => Ok (Conditional c b e i h nm l s)
  | _ => Err AttributeError
  end.

(** [expression.children], [expression.base] of a lowered expression, as
    [visit_Parenthesis] reads them *)
Definition parenthesise_expr (expression : value) (source : option Source)
    : value :=
  let e1 :=
    match expression with
    | Sum ch _ | ParenthesisedAdd ch _ => ParenthesisedAdd ch source
    | _ => expression
    end in
  let e2 :=
    match e1 with
    | Product ch _ | ParenthesisedMul ch _ => ParenthesisedMul ch source
    | _ => e1
    end in
  match e2 with
  | Power b e _ | ParenthesisedPow b e _ => ParenthesisedPow b e source
  | _ => e2
  end.

(** [for expr, name in associations]: each entry unpacks into two *)
Definition unpack2 (v : value) : res (value * value) :=
  match v with
  | PyTuple [a; b] => Ok (a, b)
  | PyTuple _ => Err ValueError
  | _ => Err TypeError
  end.

Section Handlers.

(** The visitor object, and the method [self.visit] through which every
    handler reaches its children (the dispatch is closed below). *)
Variable self : FParser2IR.
Variable visit : node -> kwargs -> M value.

(** Helpers of [loki.expression] that the ASSOCIATE handler calls and
    that are not among the lowered sources: the substitution that moves
    every typed symbol of an expression into a scope
    ([FindTypedSymbols] with [SubstituteExpressions]), and the shape
    inference [ExpressionDimensionsMapper]. *)
Variable rescope : value -> option nat -> value.
Variable ExpressionDimensionsMapper : value -> res value.

Definition visit_all (l : list node) (kw : kwargs) : M (list value) :=
  mapM (fun c => visit c kw) l.

(** Universal routine for the auto-generated [*_List] types *)
Definition visit_List (o : node) (kw : kwargs) : M value :=
  ch <- lift (node_children o) ;;
  items <- visit_all ch kw ;;
  ret (PyTuple items).

Definition visit_Name (o : node) (kw : kwargs) : M value :=
  nm <- lift (tostr o) ;;
  ret (SymVariable nm PyNone PyNone None (kw_source kw)).

Definition visit_Part_Ref (o : node) (kw : kwargs) : M value :=
  c0 <- lift (child o 0) ;;
  name <- visit c0 kw ;;
  c1 <- lift (child o 1) ;;
  dimensions <- visit c1 kw ;;
  name <- (if truthy dimensions
           then lift (clone_dimensions name dimensions)
           else ret name) ;;
  (* fparser reads function calls as Part_Ref sometimes *)
  nm <- lift (var_name name) ;;
  _type <- scope_lookup kw nm ;;
  match _type with
  | Some a =>
      if is_ProcedureType (dtype a) then
        name <- lift (clone_dimensions name PyNone) ;;
        ret (InlineCall name dimensions (PyTuple []) (kw_source kw))
      else ret name
  | None => ret name
  end.

(** Imports of external names *)

Definition visit_Use_Stmt (o : node) (kw : kwargs) : M value :=
  c0 <- lift (child o 0) ;;
  (if is_none c0 then ret tt
   else warn_or_fail "module-nature not implemented for USE statements") ;;;
  c2 <- lift (child o 2) ;;
  name <- lift (tostr c2) ;;
  let module := definitions self !! lower name in
  c3 <- lift (child o 3) ;;
  symbols <-
    (if eq_str c3 "" then
       (* No ONLY list (import all) *)
       match module with
       | Some m =>
           mapM (fun kv => scope_define kw (fst kv)
                             (clone_imported (snd kv) (module_name m)))
                (map_to_list (module_symbols m)) ;;;
           ret PyNone
       | None => ret PyNone
       end
     else if eq_str c3 ", ONLY:" then
       (* ONLY list given (import only selected symbols) *)
       c4 <- lift (child o 4) ;;
       symbols <- (if is_none c4 then ret (PyTuple []) else visit c4 kw) ;;
       syms <- lift (iter symbols) ;;
       match module with
       | None =>
           _ <- scope_addr kw ;;
           names <- lift (mapR var_name syms) ;;
           mapM (fun n => scope_define kw n
                            (new_attrs (Basic DEFERRED) (Some true)))
                names ;;;
           ret tt
       | Some m =>
           mapM (fun s =>
                   n <- lift (var_name s) ;;
                   match module_symbols m !! lower n with
                   | Some a =>
                       scope_define kw n (clone_imported a (module_name m))
                   | None => raise KeyError
                   end) syms ;;;
           ret tt
       end ;;;
       cloned <- lift (mapR (fun s => clone_scope s (kw_scope kw)) syms) ;;
       ret (PyTuple cloned)
     else if eq_str c3 "," then
       (* Rename list: no value is bound to [symbols] *)
       warn_or_fail "rename lists not implemented for USE statements" ;;;
       raise UnboundLocalError
     else raise ValueError) ;;
  ret (Import name symbols (kw_label kw) (kw_source kw)).

(** Literals *)

Definition visit_literal (o : node) (_type : BasicType)
    (knd : option string) (kw : kwargs) : M value :=
  i0 <- lift (child o 0) ;;
  val <- lift (match kw_source kw with
               | Some _ => Ok (py_str i0)
               | None => str_of i0
               end) ;;
  let source := option_map (fun s => clone_with_string s val) (kw_source kw) in
  match knd with
  | Some k =>
      k' <- (if isdigit k
             then z <- lift (int_of_string k) ;;
                  ret (IntLiteral z PyNone source)
             else ret (SymVariable k PyNone PyNone (kw_scope kw) source)) ;;
      lift (Literal val _type k' source)
  | None => lift (Literal val _type PyNone source)
  end.

Definition literal_kind (o : node) : res (option string) :=
  let? i1 := child o 1 in
  match i1 with
  | FNone => Ok None
  | FStr k => Ok (Some k)
  | FNode _ _ _ _ => Err AttributeError
  end.

Definition visit_Int_Literal_Constant (o : node) (kw : kwargs) : M value :=
  knd <- lift (literal_kind o) ;;
  visit_literal o INTEGER knd kw.

Definition visit_Real_Literal_Constant (o : node) (kw : kwargs) : M value :=
  knd <- lift (literal_kind o) ;;
  visit_literal o REAL knd kw.

(** Operations *)

Definition op_source (o : node) (kw : kwargs) : res (option Source) :=
  match kw_source kw with
  | Some s => let? t := tostr o in Ok (Some (clone_with_string s t))
  | None => Ok None
  end.

Definition visit_Add_Operand (o : node) (kw : kwargs) : M value :=
  source <- lift (op_source o kw) ;;
  items <- lift (node_children o) ;;
  if (2 <? length items)%nat then
    (* Binary operand *)
    i0 <- lift (child o 0) ;;
    e1 <- visit i0 kw ;;
    i2 <- lift (child o 2) ;;
    e2 <- visit i2 kw ;;
    i1 <- lift (child o 1) ;;
    op <- lift (str_of i1) ;;
    lift (create_operation op [e1; e2] source)
  else
    (* Unary operand *)
    i1 <- lift (child o 1) ;;
    e <- visit i1 kw ;;
    i0 <- lift (child o 0) ;;
    op <- lift (str_of i0) ;;
    lift (create_operation op [e] source).

Definition visit_Level_2_Expr (o : node) (kw : kwargs) : M value :=
  source <- lift (op_source o kw) ;;
  i0 <- lift (child o 0) ;;
  e1 <- visit i0 kw ;;
  i2 <- lift (child o 2) ;;
  e2 <- visit i2 kw ;;
  i1 <- lift (child o 1) ;;
  op <- lift (str_of i1) ;;
  lift (create_operation op [e1; e2] source).

Definition visit_Level_2_Unary_Expr (o : node) (kw : kwargs) : M value :=
  source <- lift (op_source o kw) ;;
  i1 <- lift (child o 1) ;;
  e <- visit i1 kw ;;
  i0 <- lift (child o 0) ;;
  op <- lift (str_of i0) ;;
  lift (create_operation op (as_tuple e) source).

Definition visit_Parenthesis (o : node) (kw : kwargs) : M value :=
  i1 <- lift (child o 1) ;;
  expression <- visit i1 kw ;;
  source <- lift (op_source o kw) ;;
  ret (parenthesise_expr expression source).

Definition visit_Intrinsic_Stmt (o : node) (kw : kwargs) : M value :=
  t <- lift (tostr o) ;;
  ret (Intrinsic t (kw_label kw) (kw_source kw)).

Definition visit_Assignment_Stmt (o : node) (kw : kwargs) : M value :=
  let ptr := isinstance o Pointer_Assignment_Stmt in
  i0 <- lift (child o 0) ;;
  lhs <- visit i0 kw ;;
  i2 <- lift (child o 2) ;;
  rhs <- visit i2 kw ;;
  ret (Assignment lhs rhs ptr (kw_label kw) (kw_source kw)).

(** Universal defaults *)

(** [children[0]] if there is exactly one, the tuple if there are
    several, [None] if there is none *)
Definition flatten_hierarchy (children : list value) : value :=
  match children with
  | [] => PyNone
  | [c] => c
  | _ => PyTuple children
  end.

Definition no_handler_msg (o : node) : res string :=
  let? n := node_class_name o in
  Ok ("No specific handler for node type " ++ n).

Definition visit_Base (o : node) (kw : kwargs) : M value :=
  msg <- lift (no_handler_msg o) ;;
  warn_or_fail msg ;;;
  items <- lift (node_children o) ;;
  children <- visit_all (List.filter (fun c => negb (is_none c)) items) kw ;;
  ret (flatten_hierarchy children).

Definition visit_BlockBase (o : node) (kw : kwargs) : M value :=
  msg <- lift (no_handler_msg o) ;;
  warn_or_fail msg ;;;
  content <- lift (node_children o) ;;
  children <- visit_all content kw ;;
  let children :=
    List.filter (fun c => match c with PyNone => false | _ => true end)
                children in
  ret (flatten_hierarchy children).

(** Conditionals *)

Definition visit_If_Then_Stmt (o : node) (kw : kwargs) : M value :=
  c0 <- lift (child o 0) ;;
  visit c0 kw.

(** [o.get_start_name()] *)
Definition get_start_name (o : node) : res (option string) :=
  let? it := node_item o in Ok (item_name it).

(** The handler up to its closing check: the lowered nodes before the
    construct, the construct, and the siblings past its end marker *)
Definition lower_If_Construct (o : node) (kw : kwargs)
    : M (list value * value * list node) :=
  ch <- lift (node_children o) ;;
  (* Find start and end of construct *)
  let if_then_stmt := get_child ch If_Then_Stmt in
  if_then_stmt_index <- lift (py_index ch if_then_stmt) ;;
  let end_if_stmt := get_child ch End_If_Stmt in
  end_if_stmt_index <- lift (py_index ch end_if_stmt) ;;
  (* Everything before the IF statement *)
  pre <- visit_all (firstn if_then_stmt_index ch) kw ;;
  (* Find all branches *)
  let else_ifs :=
    List.filter (fun ic => isinstance (snd ic) Else_If_Stmt) (enumerate ch) in
  let else_if_stmt_index := map fst else_ifs in
  let else_if_stmts := map snd else_ifs in
  let else_stmt := get_child ch Else_Stmt in
  else_stmt_index <-
    (if is_none else_stmt then ret end_if_stmt_index
     else lift (py_index ch else_stmt)) ;;
  conditions <- visit_all (if_then_stmt :: else_if_stmts) kw ;;
  bodies <-
    mapM (fun ss => visit_all (slice ch (S (fst ss)) (snd ss)) kw)
         (combine (if_then_stmt_index :: else_if_stmt_index)
                  (else_if_stmt_index ++ [else_stmt_index])) ;;
  else_body <- visit_all (slice ch (S else_stmt_index) end_if_stmt_index) kw ;;
  (* Extract source objects for branches *)
  sources_labels <-
    lift (mapR (fun conditional =>
                  let? it := node_item conditional in
                  let? eit := node_item end_if_stmt in
                  let? lbl := get_label conditional in
                  Ok (span_source (raw_source self)
                                  (fst (span it)) (snd (span eit)), lbl))
               (if_then_stmt :: else_if_stmts)) ;;
  let sources := map fst sources_labels in
  let labels := map snd sources_labels in
  (* Build IR nodes backwards using else-if branch as else body *)
  node <- lift (build_conditional conditions bodies else_body labels sources) ;;
  (* Update with construct name *)
  name <- lift (get_start_name if_then_stmt) ;;
  node <- lift (update_name node name) ;;
  ret (pre, node, skipn (S end_if_stmt_index) ch).

Definition visit_If_Construct (o : node) (kw : kwargs) : M value :=
  r <- lower_If_Construct o kw ;;
  (* Everything past the END IF (should be empty) *)
  assert_ (is_nil (snd r)) ;;;
  ret (PyTuple (fst (fst r) ++ [snd (fst r)])).

(** Interface block *)

Definition visit_Interface_Stmt (o : node) (kw : kwargs) : M value :=
  c0 <- lift (child o 0) ;;
  match c0 with
  | FNone => ret PyNone
  | FStr s => if String.eqb s "ABSTRACT" then ret (PyStr "ABSTRACT")
              else raise AttributeError
  | FNode _ _ t _ => ret (PyStr t)
  end.

Definition lower_Interface_Block (o : node) (kw : kwargs)
    : M (list value * value * list node) :=
  ch <- lift (node_children o) ;;
  (* Find start and end of construct *)
  let interface_stmt := get_child ch Interface_Stmt in
  interface_stmt_index <- lift (py_index ch interface_stmt) ;;
  let end_interface_stmt := get_child ch End_Interface_Stmt in
  end_interface_stmt_index <- lift (py_index ch end_interface_stmt) ;;
  (* Everything before the construct *)
  pre <- visit_all (firstn interface_stmt_index ch) kw ;;
  (* Extract source object for construct *)
  it <- lift (node_item interface_stmt) ;;
  eit <- lift (node_item end_interface_stmt) ;;
  let source := span_source (raw_source self) (fst (span it)) (snd (span eit)) in
  (* The interface spec and body *)
  spec <- visit interface_stmt kw ;;
  body <- visit_all (slice ch (S interface_stmt_index) end_interface_stmt_index) kw ;;
  let interface := Interface spec body (kw_label kw) (Some source) in
  ret (pre, interface, skipn (S end_interface_stmt_index) ch).

Definition visit_Interface_Block (o : node) (kw : kwargs) : M value :=
  r <- lower_Interface_Block o kw ;;
  (* Everything past the END INTERFACE (should be empty) *)
  assert_ (is_nil (snd r)) ;;;
  ret (PyTuple (fst (fst r) ++ [snd (fst r)])).

(** SELECT CASE constructs *)

Definition visit_Select_Case_Stmt (o : node) (kw : kwargs) : M value :=
  c0 <- lift (child o 0) ;;
  visit c0 kw.

Definition visit_Case_Selector (o : node) (kw : kwargs) : M value :=
  c0 <- lift (child o 0) ;;
  if is_none c0 then ret (PyStr "DEFAULT") else visit c0 kw.

Definition is_DEFAULT (v : value) : bool :=
  match v with PyStr s => String.eqb s "DEFAULT" | _ => false end.

(** [values.index('DEFAULT')] when ['DEFAULT' in values] *)
Fixpoint default_index (values : list value) : option nat :=
  match values with
  | [] => None
  | v :: r => if is_DEFAULT v then Some O
              else option_map S (default_index r)
  end.

(** [l[:i] + l[i+1:]] *)
Definition remove_at {A} (l : list A) (i : nat) : list A :=
  firstn i l ++ skipn (S i) l.

Definition lower_Case_Construct (o : node) (kw : kwargs)
    : M (list value *
         (list value * list value * value * value * option string *
          option string * Source) * list node) :=
  ch <- lift (node_children o) ;;
  (* Find start and end of case construct *)
  let select_case_stmt := get_child ch Select_Case_Stmt in
  select_case_stmt_index <- lift (py_index ch select_case_stmt) ;;
  let end_select_stmt := get_child ch End_Select_Stmt in
  end_select_stmt_index <- lift (py_index ch end_select_stmt) ;;
  (* Everything before the SELECT CASE statement *)
  pre <- visit_all (firstn select_case_stmt_index ch) kw ;;
  (* Extract source object for construct *)
  it <- lift (node_item select_case_stmt) ;;
  eit <- lift (node_item end_select_stmt) ;;
  let source := span_source (raw_source self) (fst (span it)) (snd (span eit)) in
  (* Handle the SELECT CASE statement *)
  expr <- visit select_case_stmt kw ;;
  name <- lift (get_start_name select_case_stmt) ;;
  label <- lift (get_label select_case_stmt) ;;
  (* Find all CASE statements and corresponding bodies *)
  let cases :=
    List.filter (fun ic => isinstance (snd ic) Case_Stmt) (enumerate ch) in
  (match cases with [] => raise ValueError | _ => ret tt end) ;;;
  let case_stmts := map snd cases in
  let case_stmt_index := map fst cases in
  first <- lift (nth_res case_stmt_index 0) ;;
  assert_ (first =? S select_case_stmt_index)%nat ;;;
  values <- visit_all case_stmts kw ;;
  bodies <-
    mapM (fun ss => b <- visit_all (slice ch (S (fst ss)) (snd ss)) kw ;;
                    ret (PyTuple b))
         (combine case_stmt_index
                  (skipn 1 case_stmt_index ++ [end_select_stmt_index])) ;;
  split <-
    match default_index values with
    | Some i =>
        else_body <- lift (nth_res bodies i) ;;
        ret (else_body, remove_at values i, remove_at bodies i)
    | None => ret (PyNone, values, bodies)
    end ;;
  ret (pre, (snd (fst split), snd split, fst (fst split), expr, label, name,
             source),
       skipn (S end_select_stmt_index) ch).

Definition visit_Case_Construct (o : node) (kw : kwargs) : M value :=
  r <- lower_Case_Construct o kw ;;
  (* Everything past the END SELECT (should be empty) *)
  assert_ (is_nil (snd r)) ;;;
  let '(values, bodies, else_body, expr, label, name, source) := snd (fst r) in
  ret (PyTuple (fst (fst r) ++
                [MultiConditional expr values bodies else_body label name
                                  (Some source)])).

(** ASSOCIATE blocks *)

Definition visit_Associate_Stmt (o : node) (kw : kwargs) : M value :=
  c0 <- lift (child o 0) ;;
  kwd <- lift (str_of c0) ;;
  assert_ (String.eqb (lower kwd) "associate") ;;;
  c1 <- lift (child o 1) ;;
  visit c1 kw.

Definition visit_Association (o : node) (kw : kwargs) : M value :=
  c1 <- lift (child o 1) ;;
  assert_ (eq_str c1 "=>") ;;;
  c0 <- lift (child o 0) ;;
  associate_name <- visit c0 kw ;;
  c2 <- lift (child o 2) ;;
  selector <- visit c2 kw ;;
  ret (PyTuple [selector; associate_name]).

(** The shape of an associated expression, [None] for a scalar one *)
Definition associate_shape (expr : value) : res value :=
  let? shape := ExpressionDimensionsMapper expr in
  match shape with
  | PyTuple [IntLiteral 1 PyNone _] => Ok PyNone
  | _ => Ok shape
  end.

(** One step of the loop that updates the symbol table for associates *)
Definition associate_symbol (kw : kwargs) (en : value * value) : M unit :=
  let expr := fst en in
  let name := snd en in
  match expr with
  | SymVariable enm dims _ _ _ =>
      (* Use the type of the associated variable *)
      _type <- scope_lookup kw enm ;;
      _type <-
        match dims with
        | PyNone => ret _type
        | _ =>
            shape <- lift (associate_shape expr) ;;
            match _type with
            | Some a => ret (Some (clone_shape a shape))
            | None => raise AttributeError
            end
        end ;;
      nm <- lift (var_name name) ;;
      match _type with
      | Some a => scope_define kw nm a
      | None =>
          (* an unresolved selector leaves the name without attributes *)
          _ <- scope_addr kw ;; ret tt
      end
  | _ =>
      shape <- lift (associate_shape expr) ;;
      nm <- lift (var_name name) ;;
      scope_define kw nm (clone_shape (new_attrs (Basic DEFERRED) None) shape)
  end.

Definition lower_Associate_Construct (o : node) (kw : kwargs)
    : M (list value * value * list node) :=
  ch <- lift (node_children o) ;;
  (* Find start and end of associate construct *)
  let assoc_stmt := get_child ch Associate_Stmt in
  assoc_stmt_index <- lift (py_index ch assoc_stmt) ;;
  let end_assoc_stmt := get_child ch End_Associate_Stmt in
  end_assoc_stmt_index <- lift (py_index ch end_assoc_stmt) ;;
  (* Everything before the associate statement *)
  pre <- visit_all (firstn assoc_stmt_index ch) kw ;;
  (* Extract source object for construct *)
  it <- lift (node_item assoc_stmt) ;;
  eit <- lift (node_item end_assoc_stmt) ;;
  let source := span_source (raw_source self) (fst (span it)) (snd (span eit)) in
  (* Handle the associates *)
  associations <- visit assoc_stmt kw ;;
  (* The associate shares the scope of its parent *)
  entries <- lift (iter associations) ;;
  rescoped <-
    lift (mapR (fun entry =>
                  let? en := unpack2 entry in
                  let expr := rescope (fst en) (kw_scope kw) in
                  let? name := clone_scope (snd en) (kw_scope kw) in
                  Ok (expr, name)) entries) ;;
  (* Update symbol table for associates *)
  mapM (associate_symbol kw) rescoped ;;;
  (* The body *)
  body <- visit_all (slice ch (S assoc_stmt_index) end_assoc_stmt_index) kw ;;
  let associate :=
    Associate (map (fun en => PyTuple [fst en; snd en]) rescoped) body
              (kw_label kw) (Some source) in
  ret (pre, associate, skipn (S end_assoc_stmt_index) ch).

Definition visit_Associate_Construct (o : node) (kw : kwargs) : M value :=
  r <- lower_Associate_Construct o kw ;;
  (* Everything past the END ASSOCIATE (should be empty) *)
  assert_ (is_nil (snd r)) ;;;
  ret (PyTuple (fst (fst r) ++ [snd (fst r)])).

End Handlers.

(** ** Dispatch *)

(** [FParser2IR.visit]: derive the source span and the label of the node,
    default the scope to the visitor's own, then dispatch on the class. *)
Definition FParser2IR_visit (self : FParser2IR)
    (dispatch : node -> kwargs -> M value) (o : node) (kw : kwargs)
    : M value :=
  source <- lift (get_source self o (kw_source kw)) ;;
  label <- lift (get_label o) ;;
  let scope := match kw_scope kw with
               | Some s => Some s
               | None => self_scope self
               end in
  dispatch o {| kw_source := source; kw_label := label; kw_scope := scope |}.

Section Dispatch.

Variable self : FParser2IR.
Variable rescope : value -> option nat -> value.
Variable ExpressionDimensionsMapper : value -> res value.

(** Modelled from the spec: [loki.visitors.GenericVisitor] is not among
    the lowered sources.  The visitor dispatches on the kind of the
    parse-tree node; a kind without a handler of its own falls back to
    the generic default of its base class ([visit_Base] or
    [visit_BlockBase]); a plain [str] child has no handler and lowers to
    the default [None]. *)
Definition lookup_method (visit : node -> kwargs -> M value) (o : node)
    (kw : kwargs) : M value :=
  match o with
  | FNone => raise AttributeError
  | FStr _ => ret PyNone
  | FNode cls _ _ _ =>
      match cls with
      | Name => visit_Name o kw
      | Part_Ref => visit_Part_Ref visit o kw
      | Section_Subscript_List | Only_List | Association_List
      | Case_Value_Range_List => visit_List visit o kw
      | Use_Stmt => visit_Use_Stmt self visit o kw
      | If_Construct => visit_If_Construct self visit o kw
      | If_Then_Stmt | Else_If_Stmt => visit_If_Then_Stmt visit o kw
      | Associate_Construct =>
          visit_Associate_Construct self visit rescope
                                    ExpressionDimensionsMapper o kw
      | Associate_Stmt => visit_Associate_Stmt visit o kw
      | Association => visit_Association visit o kw
      | Interface_Block => visit_Interface_Block self visit o kw
      | Interface_Stmt => visit_Interface_Stmt o kw
      | Case_Construct => visit_Case_Construct self visit o kw
      | Select_Case_Stmt | Case_Stmt => visit_Select_Case_Stmt visit o kw
      | Case_Selector => visit_Case_Selector visit o kw
      | Int_Literal_Constant | Signed_Int_Literal_Constant =>
          visit_Int_Literal_Constant o kw
      | Real_Literal_Constant | Signed_Real_Literal_Constant =>
          visit_Real_Literal_Constant o kw
      | Add_Operand | Mult_Operand | And_Operand | Or_Operand
      | Equiv_Operand => visit_Add_Operand visit o kw
      | Level_2_Expr | Level_3_Expr | Level_4_Expr | Level_5_Expr =>
          visit_Level_2_Expr visit o kw
      | Level_2_Unary_Expr => visit_Level_2_Unary_Expr visit o kw
      | Parenthesis => visit_Parenthesis visit o kw
      | Assignment_Stmt | Pointer_Assignment_Stmt =>
          visit_Assignment_Stmt visit o kw
      | Continue_Stmt | Return_Stmt | Cycle_Stmt | Exit_Stmt | Stop_Stmt =>
          visit_Intrinsic_Stmt o kw
      | Unhandled _ true => visit_BlockBase visit o kw
      | Module_Name | Else_Stmt | End_If_Stmt | End_Associate_Stmt
      | End_Interface_Stmt | End_Select_Stmt
      | Unhandled _ false => visit_Base visit o kw
      end
  end.

(** The recursive visitor.  Python bounds the depth of recursion; the
    bound is the first argument. *)
Fixpoint visit (depth : nat) (o : node) (kw : kwargs) : M value :=
  match depth with
  | O => raise RecursionError
  | S d => FParser2IR_visit self (lookup_method (visit d)) o kw
  end.

End Dispatch.

(** ** The Fortran printer of expressions and assignments: [FExprCodegen] *)

Definition len (s : string) : Z := Z.of_nat (String.length s).

(** [str(z)] of a Python integer *)
Definition str_of_int (z : Z) : string := NilZero.string_of_int (Z.to_int z).

Record FExprCodegen : Type := mkFExprCodegen {
  linewidth : Z;
  indent : string;
  op_spaces : bool;
  parenthesise : bool
}.

Section FExprCodegen.

Variable self : FExprCodegen.

(** [str(o)] of an expression object.  It is defined by the class of the
    object (for the expression algebra, by its stringifier), outside
    this printer. *)
Variable str : value -> res string.

(** Insert linebreaks when the requested width is hit.  The printer
    keeps the current width in [self._width]; it is threaded here next
    to the line. *)
Definition append (line txt : string) (width : Z) : string * Z :=
  if linewidth self <? width + len txt
  then (line ++ "&" ++ String nl (indent self) ++ "& " ++ txt, len txt)
  else (line ++ txt, width + len txt).

Definition visit_str (txt : string) (line : string) (width : Z)
    : res (string * Z) :=
  Ok (append line txt width).

Definition paren_open (o_parenthesis : bool) (lw : string * Z) : string * Z :=
  if o_parenthesis || parenthesise self then append (fst lw) "(" (snd lw) else lw.
Definition paren_close (o_parenthesis : bool) (lw : string * Z) : string * Z :=
  if o_parenthesis || parenthesise self then append (fst lw) ")" (snd lw) else lw.

Definition s_op (op : string) : string :=
  if op_spaces self then " " ++ op ++ " " else op.

(** The dispatch on the class of the object and the handlers.  Expression
    objects without a handler of their own are printed by
    [visit_Expression], which is [visit_str]. *)
Fixpoint fexpr_visit (o : value) (line : string) (width : Z) {struct o}
    : res (string * Z) :=
  let visit_tuple :=
    fix visit_tuple (items : list value) (line : string) (width : Z)
        {struct items} : res (string * Z) :=
      match items with
      | [] => Ok (line, width)
      | e :: r =>
          let? lw := fexpr_visit e line width in
          match r with
          | [] => Ok lw
          | _ => let lw := append (fst lw) ", " (snd lw) in
                 visit_tuple r (fst lw) (snd lw)
          end
      end in
  match o with
  | PyStr txt => visit_str txt line width
  | PyTuple items => visit_tuple items line width
  | SymVariable name dimensions _ _ _ =>
      (* visit_Variable, for a variable of the front end, whose class is
         not among the lowered sources: it is taken to carry no
         sub-variable, [o.subvar] being [None] *)
      let lw := append line name width in
      match dimensions with
      | PyNone => Ok lw
      | PyTuple [] => Ok lw
      | PyTuple _ =>
          let lw := append (fst lw) "(" (snd lw) in
          let? lw := fexpr_visit dimensions (fst lw) (snd lw) in
          Ok (append (fst lw) ")" (snd lw))
      | _ => Err TypeError
      end
  | Variable_ name dimensions subvar =>
      (* visit_Variable *)
      let lw := append line name width in
      let? lw :=
        match dimensions with
        | PyNone => Ok lw
        | PyTuple [] => Ok lw
        | PyTuple _ =>
            let lw := append (fst lw) "(" (snd lw) in
            let? lw := fexpr_visit dimensions (fst lw) (snd lw) in
            Ok (append (fst lw) ")" (snd lw))
        | _ => Err TypeError
        end in
      match subvar with
      | PyNone => Ok lw
      | _ =>
          let lw := append (fst lw) "%" (snd lw) in
          fexpr_visit subvar (fst lw) (snd lw)
      end
  | Statement target expr ptr _ =>
      (* visit_Statement *)
      let? lw := fexpr_visit target line width in
      let lw := append (fst lw) (if ptr then " => " else " = ") (snd lw) in
      fexpr_visit expr (fst lw) (snd lw)
  | Operation ops operands parenthesis =>
      (* visit_Operation *)
      match ops, operands with
      | [op], [operand] =>
          (* Special case: a unary operator *)
          let lw := paren_open parenthesis (line, width) in
          let lw := append (fst lw) op (snd lw) in
          let? lw := fexpr_visit operand (fst lw) (snd lw) in
          Ok (paren_close parenthesis lw)
      | _, [] => Err IndexError
      | _, first :: rest =>
          let lw := paren_open parenthesis (line, width) in
          let? lw := fexpr_visit first (fst lw) (snd lw) in
          let? lw :=
            (fix pairs (ops : list string) (operands : list value)
                 (lw : string * Z) {struct operands} : res (string * Z) :=
               match ops, operands with
               | op :: ops', operand :: operands' =>
                   let lw := append (fst lw) (s_op op) (snd lw) in
                   let? lw := fexpr_visit operand (fst lw) (snd lw) in
                   pairs ops' operands' lw
               | _, _ => Ok lw
               end) ops rest lw in
          Ok (paren_close parenthesis lw)
      end
  | LiteralList values =>
      (* visit_LiteralList *)
      let lw := append line "(/" width in
      let? lw := fexpr_visit values (fst lw) (snd lw) in
      Ok (append (fst lw) "/)" (snd lw))
  | InlineCall function parameters _ _ =>
      (* visit_InlineCall *)
      let? name := var_name function in
      let lw := append line (name ++ "(") width in
      let? lw :=
        match parameters with
        | PyTuple [] => Ok lw
        | PyTuple (a :: rest) =>
            let? lw := fexpr_visit a (fst lw) (snd lw) in
            (fix args (l : list value) (lw : string * Z) {struct l}
                 : res (string * Z) :=
               match l with
               | [] => Ok lw
               | arg :: l' =>
                   let lw := append (fst lw) "," (snd lw) in
                   let? lw := fexpr_visit arg (fst lw) (snd lw) in
                   args l' lw
               end) rest lw
        | _ => Err TypeError
        end in
      Ok (append (fst lw) ")" (snd lw))
  | IntLiteral _ _ _ | FloatLiteral _ _ _ | LogicLiteral _ _
  | StringLiteral _ _
  | Sum _ _ | Product _ _ | Quotient _ _ _ | Power _ _ _
  | Comparison _ _ _ _ | LogicalAnd _ _ | LogicalOr _ _ | LogicalNot _ _
  | StringConcat _ _ | ParenthesisedAdd _ _ | ParenthesisedMul _ _
  | ParenthesisedPow _ _ _ =>
      (* visit_Literal, visit_Expression *)
      let? txt := str o in
      visit_str txt line width
  | _ =>
      (* no handler takes the positional argument [line] *)
      Err TypeError
  end.

End FExprCodegen.

(** [fexprgen(expr, linewidth=90, indent='', op_spaces=False,
    parenthesise=True)]: the printer starts with an empty line at width
    0. *)
Definition fexprgen (str : value -> res string) (expr : value)
    (self : FExprCodegen) : res string :=
  let? lw := fexpr_visit self str expr "" 0 in
  Ok (fst lw).

Definition fexprgen_defaults : FExprCodegen :=
  {| linewidth := 90; indent := ""; op_spaces := false; parenthesise := true |}.

(** ** The expression mapper of the Maxeler back end: [MaxjCodeMapper] *)

(** Precedence levels of [pymbolic.mapper.stringifier] *)
Definition PREC_CALL : Z := 15.
Definition PREC_POWER : Z := 14.
Definition PREC_UNARY : Z := 13.
Definition PREC_PRODUCT : Z := 12.
Definition PREC_SUM : Z := 11.
Definition PREC_COMPARISON : Z := 6.
Definition PREC_NONE : Z := 0.

(** [StringifyMapper.parenthesize_if_needed] of pymbolic *)
Definition parenthesize_if_needed (s : string) (enclosing_prec my_prec : Z)
    : string :=
  if my_prec <? enclosing_prec then "(" ++ s ++ ")" else s.

(** The objects of the expression algebra: the operands on which [+]
    builds a new sum instead of computing a number. *)
Definition is_expression (v : value) : bool :=
  match v with
  | SymVariable _ _ _ _ _ | IntLiteral _ _ _ | FloatLiteral _ _ _
  | LogicLiteral _ _ | StringLiteral _ _
  | Sum _ _ | Product _ _ | Quotient _ _ _ | Power _ _ _
  | Comparison _ _ _ _ | LogicalAnd _ _ | LogicalOr _ _ | LogicalNot _ _
  | StringConcat _ _ | ParenthesisedAdd _ _ | ParenthesisedMul _ _
  | ParenthesisedPow _ _ _ | InlineCall _ _ _ _ => true
  | _ => false
  end.

(** [is_zero(c + 1)]: an integer is tested after the addition; on an
    expression object the addition builds a sum, which is not zero; other
    objects do not add to an integer. *)
Definition is_minus_one (c : value) : res bool :=
  match c with
  | PyInt z => Ok (z + 1 =? 0)
  | _ => if is_expression c then Ok false else Err TypeError
  end.

(** The local helper of [map_sum]: the product without its leading -1, or
    [None] when the term is not such a product. *)
Definition get_neg_product (expr : value) : res (option value) :=
  match expr with
  | Product (c0 :: rest) _ | ParenthesisedMul (c0 :: rest) _ =>
      let? m := is_minus_one c0 in
      if m then
        match rest with
        | [other] => Ok (Some other)        (* only the minus sign and the other child *)
        | _ => Ok (Some (Product rest None))
        end
      else Ok None
  | _ => Ok None
  end.



Section MaxjCodeMapper.

(** [self.rec]: the dispatch of the mapper on the class of the
    expression, which reaches the methods inherited from the base
    mappers as well. *)
Variable rec : value -> Z -> res string.


Definition join_terms (terms : list string) (is_neg_term : list bool)
    : res string :=
  match terms, is_neg_term with
  | t0 :: terms', n0 :: is_neg' =>
      Ok (String.concat ""
            (((if n0 : bool then "-" else "") ++ t0) ::
             map (fun nt => " " ++ (if fst nt : bool then "-" else "+")
                                ++ " " ++ snd nt)
                 (combine is_neg' terms')))
  | _, _ => Err IndexError
  end.


End MaxjCodeMapper.

(** ** The statement handlers of the Maxeler back end: [MaxjCodegen] *)

Section MaxjCodegen.

(** Inherited from [loki.visitors.Stringifier], which is not among the
    lowered sources: [self.visit] on expressions and comments, and
    [self.format_line], which renders the items of one logical line. *)
Variable visit : value -> res string.
Variable format_line : list string -> string -> string.

(** [o.type] of a variable, an attribute defined by the class of
    variables, which is not among the lowered sources either. *)
Variable type_of : value -> res SymbolAttributes.

Definition MaxjCodegen_visit_Statement (o : value) : res string :=
  match o with
  | Statement o_target o_expr _ o_comment =>
      let? target := visit o_target in
      let? expr := visit o_expr in
      let? comment := (if truthy o_comment
                       then let? c := visit o_comment in Ok ("  " ++ c)
                       else Ok "") in
      let? ty := type_of o_target in
      if dfevar ty && truthy (shape ty)
      then Ok (format_line [target; " <== "; expr; ";"] comment)
      else Ok (format_line [target; " = "; expr; ";"] comment)
  | _ => Err AttributeError
  end.

End MaxjCodegen.

(** ** The text of an expression object: [str(o)] *)

(** Modelled from the spec: the expression-to-text mapper of the
    passthrough target (the stringifier behind [str(o)] of the expression
    algebra) is not among the lowered sources.  Subtraction and unary minus
    are stored as multiplication by the literal -1; a printer detects a
    Product whose leading factor is -1 and emits subtraction syntax instead
    of multiplication.  An expression without explicit source parentheses
    prints with the parentheses its precedence requires; the parenthesis
    wrappers keep the parentheses of the source.  Only sums, products,
    names and numeric literals are covered. *)
Fixpoint stringify (depth : nat) (expr : value) (enclosing_prec : Z)
    {struct depth} : res string :=
  match depth with
  | O => Err RecursionError
  | S d =>
      let rec := stringify d in
      let signed_terms (children : list value) : res string :=
        let? tn :=
          mapR (fun ch =>
                  let? neg_prod := get_neg_product ch in
                  match neg_prod with
                  | Some p => let? t := rec p PREC_PRODUCT in Ok (true, t)
                  | None => let? t := rec ch PREC_SUM in Ok (false, t)
                  end) children in
        join_terms (map snd tn) (map fst tn) in
      let factors (children : list value) : res string :=
        let? fs := mapR (fun ch => rec ch PREC_PRODUCT) children in
        Ok (String.concat "*" fs) in
      match expr with
      | PyInt z => Ok (str_of_int z)
      | IntLiteral v _ _ => Ok (str_of_int v)
      | FloatLiteral v _ _ => Ok v
      | SymVariable n dims _ _ _ =>
          match dims with
          | PyTuple (d0 :: ds) =>
              let? txt := mapR (fun x => rec x PREC_NONE) (d0 :: ds) in
              Ok (n ++ "(" ++ String.concat ", " txt ++ ")")
          | _ => Ok n
          end
      | Sum children _ =>
          let? s := signed_terms children in
          Ok (parenthesize_if_needed s enclosing_prec PREC_SUM)
      | ParenthesisedAdd children _ =>
          let? s := signed_terms children in
          Ok ("(" ++ s ++ ")")
      | Product children _ =>
          let? neg_prod := get_neg_product expr in
          match neg_prod with
          | Some p =>
              let? t := rec p PREC_PRODUCT in
              Ok (parenthesize_if_needed ("-" ++ t) enclosing_prec PREC_SUM)
          | None =>
              let? s := factors children in
              Ok (parenthesize_if_needed s enclosing_prec PREC_PRODUCT)
          end
      | ParenthesisedMul children _ =>
          let? s := factors children in
          Ok ("(" ++ s ++ ")")
      | _ => Err NotImplementedError
      end
  end.

(** [str(o)], within Python's default bound on the depth of recursion *)
Definition expr_str (o : value) : res string := stringify 1000 o PREC_NONE.

(** ** The single-expression entry point *)

(** Modelled from the spec: the rescoping substitution of
    [parse_fparser_expression] ([FindTypedSymbols] with
    [SubstituteExpressions]) is not among the lowered sources.  Every
    variable of the lowered expression is cloned into the scope supplied
    by the caller. *)
Fixpoint set_scope (sc : option nat) (v : value) {struct v} : value :=
  let all := fix all (l : list value) {struct l} : list value :=
    match l with
    | [] => []
    | x :: r => set_scope sc x :: all r
    end in
  match v with
  | SymVariable n d p _ s => SymVariable n (set_scope sc d) (set_scope sc p) sc s
  | PyTuple l => PyTuple (all l)
  | Sum ch s => Sum (all ch) s
  | Product ch s => Product (all ch) s
  | Quotient n d s => Quotient (set_scope sc n) (set_scope sc d) s
  | Power b e s => Power (set_scope sc b) (set_scope sc e) s
  | Comparison l op r s => Comparison (set_scope sc l) op (set_scope sc r) s
  | LogicalAnd ch s => LogicalAnd (all ch) s
  | LogicalOr ch s => LogicalOr (all ch) s
  | LogicalNot c s => LogicalNot (set_scope sc c) s
  | StringConcat ch s => StringConcat (all ch) s
  | ParenthesisedAdd ch s => ParenthesisedAdd (all ch) s
  | ParenthesisedMul ch s => ParenthesisedMul (all ch) s
  | ParenthesisedPow b e s => ParenthesisedPow (set_scope sc b) (set_scope sc e) s
  | InlineCall f ps kws s =>
      InlineCall (set_scope sc f) (set_scope sc ps) (set_scope sc kws) s
  | _ => v
  end.

(** [parse_fparser_expression(source, scope)], from the parse tree that
    fparser builds for ['(' + source + ')'] with the outer parenthesis
    stripped: lower it with a visitor created for the scope, then rescope
    its symbols. *)
Definition parse_fparser_expression
    (rescope : value -> option nat -> value)
    (dims : value -> res value)
    (ast : node) (source : string) (scope : option nat)
    : M value :=
  let self := {| raw_source := [source]; definitions := ∅;
                 self_scope := scope |} in
  _ir <- visit self rescope dims 1000 ast
           {| kw_source := None; kw_label := None; kw_scope := None |} ;;
  ret (set_scope scope _ir).

(** ** The chain of conditionals, in the words of the specification *)

(** The nesting that the specification describes for branches
    [(C1, B1), ..., (Cn, Bn)] and else-body [E]: the innermost conditional
    holds [Cn], [Bn] and [E] and records no further else-if; each enclosing
    one holds [Ci], [Bi], has the next conditional as its only else-body
    node and records an else-if.  Each branch comes with its label and
    source. *)
Fixpoint nested_conditional
    (branches : list (value * list value * option string * Source))
    (else_body : list value) : value :=
  match branches with
  | [] => PyNone
  | (c, b, l, s) :: rest =>
      match rest with
      | [] => Conditional c b else_body false false None l (Some s)
      | _ => Conditional c b [nested_conditional rest else_body] false true
                         None l (Some s)
      end
  end.

(** Flattening a chain: the branches in order, then the final else-body.
    The chain is followed as long as a conditional records an else-if and
    has a single else-body node. *)
Fixpoint flatten_conditional (v : value)
    : list (value * list value) * list value :=
  match v with
  | Conditional c b e _ has_elseif _ _ _ =>
      if has_elseif then
        match e with
        | [next] => let r := flatten_conditional next in
                    ((c, b) :: fst r, snd r)
        | _ => ([(c, b)], e)
        end
      else ([(c, b)], e)
  | _ => ([], [])
  end.

Definition zip4 {A B C D} (a : list A) (b : list B) (c : list C) (d : list D)
    : list (A * B * C * D) :=
  combine (combine (combine a b) c) d.

(** ** Concrete inputs *)

(** Stand-ins for the two helpers of [loki.expression] that only the
    ASSOCIATE handler calls. *)
Definition no_rescope (v : value) (sc : option nat) : value := v.
Definition no_dims (v : value) : res value := Ok PyNone.

Definition name_node (s : string) : node := FNode Name None s [].
Definition int_node (s : string) : node :=
  FNode Int_Literal_Constant None s [FStr s; FNone].

(** The parse tree of [foo(1)] *)
Definition foo_1 : node :=
  FNode Part_Ref None "foo(1)"
    [name_node "foo";
     FNode Section_Subscript_List None "1" [int_node "1"]].

(** A visitor over an empty source, created for the scope at address 0 *)
Definition plain_visitor : FParser2IR :=
  {| raw_source := []; definitions := ∅; self_scope := Some 0%nat |}.

Definition no_kwargs : kwargs :=
  {| kw_source := None; kw_label := None; kw_scope := None |}.
Definition scope0_kwargs : kwargs :=
  {| kw_source := None; kw_label := None; kw_scope := Some 0%nat |}.

(** A store with one scope object in which [foo] has the given type *)
Definition store_with_foo (d : DataType) : gmap nat Scope :=
  {[ 0%nat := {| symbols := {[ "foo" := new_attrs d None ]};
                 parent_scope := None |} ]}.

Definition state_with_foo (d : DataType) : state :=
  {| strict_mode := true; log := []; scopes := store_with_foo d |}.

(** A store with one empty scope object *)
Definition empty_scope_store : gmap nat Scope :=
  {[ 0%nat := {| symbols := ∅; parent_scope := None |} ]}.

Definition strict_state : state :=
  {| strict_mode := true; log := []; scopes := empty_scope_store |}.
Definition lenient_state : state :=
  {| strict_mode := false; log := []; scopes := empty_scope_store |}.

Definition item_at (first last : Z) : option Item :=
  Some {| span := (first, last); item_label := None; item_name := None |}.

(** An IF construct with three conditions and an else branch *)
Definition if_source : list string :=
  ["IF (c1) THEN" ++ String nl ""; "  CONTINUE" ++ String nl "";
   "ELSE IF (c2) THEN" ++ String nl ""; "  STOP" ++ String nl "";
   "ELSE IF (c3) THEN" ++ String nl ""; "  CYCLE" ++ String nl "";
   "ELSE" ++ String nl ""; "  EXIT" ++ String nl "";
   "END IF" ++ String nl ""].

Definition if_children : list node :=
  [FNode If_Then_Stmt (item_at 1 1) "IF (c1) THEN" [name_node "c1"];
   FNode Continue_Stmt (item_at 2 2) "CONTINUE" [];
   FNode Else_If_Stmt (item_at 3 3) "ELSE IF (c2) THEN" [name_node "c2"; FNone];
   FNode Stop_Stmt (item_at 4 4) "STOP" [FStr "STOP"; FNone];
   FNode Else_If_Stmt (item_at 5 5) "ELSE IF (c3) THEN" [name_node "c3"; FNone];
   FNode Cycle_Stmt (item_at 6 6) "CYCLE" [FStr "CYCLE"; FNone];
   FNode Else_Stmt (item_at 7 7) "ELSE" [FNone];
   FNode Exit_Stmt (item_at 8 8) "EXIT" [FStr "EXIT"; FNone];
   FNode End_If_Stmt (item_at 9 9) "END IF" [FStr "IF"; FNone]].

Definition if_example : node := FNode If_Construct None "" if_children.

(** The same construct with a statement after its END IF *)
Definition if_with_trailing_sibling : node :=
  FNode If_Construct None ""
    (if_children ++ [FNode Continue_Stmt (item_at 10 10) "CONTINUE" []]).

(** An IF construct with a RETURN statement in the branch before its ELSE:
    [IF (c1) THEN / RETURN / ELSE / CONTINUE / END IF].  The items of
    RETURN and of ELSE are both the single [None]. *)
Definition if_with_return_source : list string :=
  ["IF (c1) THEN" ++ String nl ""; "  RETURN" ++ String nl "";
   "ELSE" ++ String nl ""; "  CONTINUE" ++ String nl "";
   "END IF" ++ String nl ""].

Definition return_stmt : node :=
  FNode Return_Stmt (item_at 2 2) "RETURN" [FNone].
Definition else_stmt : node :=
  FNode Else_Stmt (item_at 3 3) "ELSE" [FNone].

Definition if_with_return_children : list node :=
  [FNode If_Then_Stmt (item_at 1 1) "IF (c1) THEN" [name_node "c1"];
   return_stmt;
   else_stmt;
   FNode Continue_Stmt (item_at 4 4) "CONTINUE" [];
   FNode End_If_Stmt (item_at 5 5) "END IF" [FStr "IF"; FNone]].

Definition if_with_return : node :=
  FNode If_Construct None "" if_with_return_children.

Definition return_visitor : FParser2IR :=
  {| raw_source := if_with_return_source; definitions := ∅;
     self_scope := Some 0%nat |}.

Definition if_visitor : FParser2IR :=
  {| raw_source := if_source; definitions := ∅; self_scope := Some 0%nat |}.

(** A node of a class without a handler: the procedure declaration
    [PROCEDURE(f) :: p], whose items are the interface, no attributes and
    the declared name *)
Definition unhandled_example : node :=
  FNode (Unhandled "Procedure_Declaration_Stmt" false) (item_at 1 1)
    "PROCEDURE(f) :: p" [name_node "f"; FNone; name_node "p"].

(** ** Vocabulary of the statements below *)

(** What it means for a handler to treat siblings past the end marker as
    fatal.  [lower] is the handler up to its closing check and [handler]
    the whole handler, both run from state [st] on the node [o] whose end
    marker has class [end_marker]: when everything before the check has
    run and siblings past the end marker remain, the handler raises
    AssertionError; and whatever happens before the check, the handler
    never returns a result when the children of [o] go on after the end
    marker. *)
Definition fatal_past_end {R} (lower : M (list value * R * list node))
    (handler : M value) (o : node) (end_marker : fclass) (st : state) : Prop :=
  (forall pre node rest st',
      lower st = (Ok (pre, node, rest), st') ->
      rest <> [] ->
      handler st = (Err AssertionError, st')) /\
  (forall ch idx,
      node_children o = Ok ch ->
      py_index ch (get_child ch end_marker) = Ok idx ->
      skipn (S idx) ch <> [] ->
      forall v st', handler st <> (Ok v, st')).

(** The state with another store of scope objects, and the scope object
    with another table: the log and the mode are the same *)
Definition with_scopes (st : state) (store : gmap nat Scope) : state :=
  {| strict_mode := strict_mode st; log := log st; scopes := store |}.
Definition with_symbols (sc : Scope) (t : gmap string SymbolAttributes)
    : Scope :=
  {| symbols := t; parent_scope := parent_scope sc |}.

(** A USE statement without module nature *)
Definition use_stmt (item : option Item) (text : string) (c1 : node)
    (module_name_node : node) (c3 c4 : node) : node :=
  FNode Use_Stmt item text [FNone; c1; module_name_node; c3; c4].

(** USE statements: [USE m, ONLY: a, B] and [USE M], a module [m] that
    exports [a], [b] and [c], and visitors with and without its
    definition *)
Definition only_list_a_B : node :=
  FNode Only_List None "a, B" [name_node "a"; name_node "B"].
Definition use_only_example : node :=
  use_stmt (item_at 1 1) "USE m, ONLY: a, B" FNone
    (FNode Module_Name None "m" []) (FStr ", ONLY:") only_list_a_B.
Definition use_all_example : node :=
  use_stmt (item_at 1 1) "USE M" FNone
    (FNode Module_Name None "M" []) (FStr "") FNone.

(** [USE, INTRINSIC :: m, ONLY: a, B] and [USE, INTRINSIC :: M]: the first
    child is the module nature *)
Definition use_intrinsic_only_example : node :=
  FNode Use_Stmt (item_at 1 1) "USE, INTRINSIC :: m, ONLY: a, B"
    [FStr "INTRINSIC"; FStr "::"; FNode Module_Name None "m" [];
     FStr ", ONLY:"; only_list_a_B].
Definition use_intrinsic_all_example : node :=
  FNode Use_Stmt (item_at 1 1) "USE, INTRINSIC :: M"
    [FStr "INTRINSIC"; FStr "::"; FNode Module_Name None "M" [];
     FStr ""; FNone].

Definition module_nature_msg : string :=
  "module-nature not implemented for USE statements".

Definition module_m : ModuleDef :=
  {| module_name := "m";
     module_symbols := {[ "a" := new_attrs (Basic REAL) None;
                          "b" := new_attrs (Basic INTEGER) None;
                          "c" := new_attrs (Basic LOGICAL) None ]} |}.

Definition visitor_with_m : FParser2IR :=
  {| raw_source := ["USE m, ONLY: a, B"];
     definitions := {[ "m" := module_m ]};
     self_scope := Some 0%nat |}.
Definition visitor_without_m : FParser2IR :=
  {| raw_source := ["USE m, ONLY: a, B"];
     definitions := ∅;
     self_scope := Some 0%nat |}.

Definition empty_scope : Scope := {| symbols := ∅; parent_scope := None |}.

Definition var_in_scope0 (n : string) : value :=
  SymVariable n PyNone PyNone (Some 0%nat) None.
Definition var_unscoped (n : string) : value :=
  SymVariable n PyNone PyNone None None.

(** The token between target and expression in the Maxeler rendering of an
    assignment whose target has the given type *)
Definition assignment_token (ty : SymbolAttributes) : string :=
  if dfevar ty && truthy (shape ty) then " <== " else " = ".

(** The comment text of the Maxeler statement handler *)
Definition comment_text (visit : value -> res string) (o_comment : value)
    : res string :=
  if truthy o_comment then let? c := visit o_comment in Ok ("  " ++ c)
  else Ok "".

(** Modelled from the spec: the class of variables is not among the lowered
    sources.  The type of a variable is the entry of its name in its scope;
    an unresolved name has DEFERRED type. *)
Definition type_in (store : gmap nat Scope) (v : value)
    : res SymbolAttributes :=
  match v with
  | SymVariable n _ _ sc _ =>
      match sc with
      | Some sid =>
          match lookup store sid n with
          | Some a => Ok a
          | None => Ok (new_attrs (Basic DEFERRED) None)
          end
      | None => Ok (new_attrs (Basic DEFERRED) None)
      end
  | _ => Err AttributeError
  end.

(** The assignment [x = x + 1] as the printers receive it, with [x] in the
    scope at address 0 *)
Definition x_plus_1 : value :=
  Statement (var_in_scope0 "x")
            (Sum [var_in_scope0 "x"; IntLiteral 1 PyNone None] None)
            false PyNone.

(** Stores in which [x] is a streaming vector of [n] reals, a streaming
    scalar, and a plain real array *)
Definition real_x (is_dfevar : bool) (shp : value) : SymbolAttributes :=
  {| dtype := Basic REAL; kind := PyNone; shape := shp; intent := None;
     initial := PyNone; allocatable := false; pointer := false;
     optional := false; parameter := false; target := false;
     contiguous := false; external := false; imported := None;
     module := None; dfevar := is_dfevar |}.
Definition store_with_x (a : SymbolAttributes) : gmap nat Scope :=
  {[ 0%nat := {| symbols := {[ "x" := a ]}; parent_scope := None |} ]}.
Definition vector_shape : value := PyTuple [var_in_scope0 "n"].

(** A line renderer that joins the items and appends the comment *)
Definition join_line (items : list string) (comment : string) : string :=
  String.concat "" items ++ comment.

(** The Maxeler rendering of [x = x + 1] where [x] has the given type *)
Definition maxj_x_plus_1 (a : SymbolAttributes) : res string :=
  MaxjCodegen_visit_Statement (fun v => stringify 5 v PREC_NONE) join_line
    (type_in (store_with_x a)) x_plus_1.

(** The parse tree that fparser builds for [a - b - 1] *)
Definition a_minus_b_minus_1 : node :=
  FNode Level_2_Expr None "a - b - 1"
    [FNode Level_2_Expr None "a - b"
       [name_node "a"; FStr "-"; name_node "b"];
     FStr "-";
     int_node "1"].

Definition logged (l : level) (msg : string) (st : state) : state :=
  {| strict_mode := strict_mode st; log := log st ++ [(l, msg)];
     scopes := scopes st |}.

(** The keyword arguments a handler receives for a node with the given
    reader item: the source and label derived from the item, the scope
    defaulted to the visitor's own *)
Definition node_kwargs (self : FParser2IR) (item : option Item) (kw : kwargs)
    : kwargs :=
  {| kw_source := match item with
                  | Some it => Some (span_source (raw_source self)
                                       (fst (span it)) (snd (span it)))
                  | None => kw_source kw
                  end;
     kw_label := match item with
                 | Some it => item_label it
                 | None => None
                 end;
     kw_scope := match kw_scope kw with
                 | Some s => Some s
                 | None => self_scope self
                 end |}.

Definition imported_from (m : ModuleDef) (k : string) : SymbolAttributes :=
  match module_symbols m !! k with
  | Some a => clone_imported a (module_name m)
  | None => new_attrs (Basic DEFERRED) None
  end.

Definition name_or_empty (s : value) : string :=
  match var_name s with
  | Ok n => n
  | Err _ => ""
  end.

(** ** The layout of an IF construct *)

(** The marker statements of an IF construct *)
Definition if_marker (c : node) : bool :=
  isinstance c If_Then_Stmt || isinstance c Else_If_Stmt ||
  isinstance c Else_Stmt || isinstance c End_If_Stmt.

(** The siblings that a sequence of branches occupies: each marker
    statement followed by the nodes of its body *)
Definition branch_nodes (branches : list (node * list node)) : list node :=
  flat_map (fun mb => fst mb :: snd mb) branches.

(** The children of an IF construct as fparser lays them out: the nodes
    before the construct, the branches (the IF-THEN statement and the
    ELSE-IF statements, each with its body), the ELSE statement with its
    body if there is one, and the END IF statement *)
Definition if_layout (pre : list node) (branches : list (node * list node))
    (els : option (node * list node)) (endif : node) : list node :=
  (pre ++ branch_nodes branches ++
   match els with Some (e, body) => e :: body | None => [] end ++ [endif])%list.

Definition else_nodes (els : option (node * list node)) : list node :=
  match els with Some (_, body) => body | None => [] end.

(** The positions of the markers of a sequence of branches that starts at
    position [k] *)
Fixpoint positions (k : nat) (branches : list (node * list node)) : list nat :=
  match branches with
  | [] => []
  | mb :: r => k :: positions (k + 1 + length (snd mb)) r
  end.

(** [enumerate], counting from [k] *)
Definition enumerate_from {A} (k : nat) (l : list A) : list (nat * A) :=
  combine (seq k (length l)) l.

(** The source and the label that the IF handler gives to the branch of a
    marker statement *)
Definition branch_source (self : FParser2IR) (end_item : Item) (m : node)
    : Source :=
  match m with
  | FNode _ (Some it) _ _ =>
      span_source (raw_source self) (fst (span it)) (snd (span end_item))
  | _ => span_source (raw_source self) 0 (snd (span end_item))
  end.
Definition branch_label (m : node) : option string :=
  match m with
  | FNode _ (Some it) _ _ => item_label it
  | _ => None
  end.
Definition has_item (m : node) : bool :=
  match m with
  | FNode _ (Some _) _ _ => true
  | _ => false
  end.

(** The construct name of a marker statement, and a conditional under
    another name *)
Definition branch_name (m : node) : option string :=
  match m with
  | FNode _ (Some it) _ _ => item_name it
  | _ => None
  end.
Definition with_name (nm : option string) (v : value) : value :=
  match v with
  | Conditional c b e i h _ l s => Conditional c b e i h nm l s
  | _ => v
  end.

(** Nodes none of which is a marker statement of an IF construct *)
Definition plain (l : list node) : Prop :=
  Forall (fun y => if_marker y = false) l.

(** The IF layout is well formed: the markers have their classes and their
    reader items, no other sibling is a marker statement, and [index]
    finds the IF-THEN, the ELSE and the END IF statement where they are:
    no sibling before one of them is equal to it *)
Record if_layout_ok (pre : list node) (it : node) (b1 : list node)
    (rest : list (node * list node)) (els : option (node * list node))
    (endif : node) : Prop := {
  ok_pre : plain pre;
  ok_if : isinstance it If_Then_Stmt = true;
  ok_b1 : plain b1;
  ok_rest : Forall (fun mb => isinstance (fst mb) Else_If_Stmt = true /\
                              plain (snd mb)) rest;
  ok_else : match els with
            | Some (e, body) => isinstance e Else_Stmt = true /\ plain body
            | None => True
            end;
  ok_end : isinstance endif End_If_Stmt = true;
  ok_items : Forall (fun mb => has_item (fst mb) = true) ((it, b1) :: rest);
  ok_end_item : has_item endif = true;
  ok_if_found : Forall (fun y => node_eqb y it = false) pre;
  ok_else_found :
    match els with
    | Some (e, _) =>
        Forall (fun y => node_eqb y e = false)
               (pre ++ branch_nodes ((it, b1) :: rest))
    | None => True
    end;
  ok_end_found :
    Forall (fun y => node_eqb y endif = false)
           (pre ++ branch_nodes ((it, b1) :: rest) ++
            match els with Some (e, body) => e :: body | None => [] end)
}.

Definition end_item_of (endif : node) : Item :=
  match endif with
  | FNode _ (Some it) _ _ => it
  | _ => {| span := (0, 0); item_label := None; item_name := None |}
  end.

(** ** Further helpers of the lowering engine *)

(** [node_sublist(nodelist, starttype, endtype)]: the subset of nodes that
    sits between marked start and end nodes.  The loop keeps the flag
    [active]; for each node it first clears the flag on an end node, then
    collects the node if the flag is set, then sets the flag on a start
    node. *)
Fixpoint node_sublist_loop (active : bool) (nodelist : list node)
    (starttype endtype : fclass) : list node :=
  match nodelist with
  | [] => []
  | node :: r =>
      let active := if isinstance node endtype then false else active in
      let sublist := if active then [node] else [] in
      let active := if isinstance node starttype then true else active in
      (sublist ++ node_sublist_loop active r starttype endtype)%list
  end.

Definition node_sublist (nodelist : list node) (starttype endtype : fclass)
    : list node :=
  node_sublist_loop false nodelist starttype endtype.

(** [rget_child(node, node_type)]: the last immediate child of the class,
    or [None]. *)
Definition rget_child (o : node) (node_type : fclass) : res node :=
  let? ch := node_children o in
  Ok (match List.find (fun c => isinstance c node_type) (rev ch) with
      | Some c => c
      | None => FNone
      end).

(** The spellings of the relational operators, lower-cased, each with the
    operator that the lowered comparison records *)
Definition comparison_spellings : list (string * string) :=
  [("==", "=="); (".eq.", "=="); ("/=", "!="); (".ne.", "!=");
   (">", ">"); (".gt.", ">"); ("<", "<"); (".lt.", "<");
   (">=", ">="); (".ge.", ">="); ("<=", "<="); (".le.", "<=")].

(** The operators that [create_operation] knows: the arithmetic ones and
    the concatenation as they are written, the others in any letter case *)
Definition known_operator (op : string) : bool :=
  str_in op ["*"; "/"; "+"; "-"; "**"; "//"] ||
  str_in (lower op) [".and."; ".or."; ".not."; ".eqv."; ".neqv."] ||
  str_in (lower op) (map fst comparison_spellings).

(** A CASE construct with one value and a default branch *)
Definition case_children : list node :=
  [FNode Select_Case_Stmt (item_at 1 1) "SELECT CASE (x)" [name_node "x"];
   FNode Case_Stmt (item_at 2 2) "CASE (1)"
     [FNode Case_Selector None "(1)"
        [FNode Case_Value_Range_List None "1" [int_node "1"]]; FNone];
   FNode Continue_Stmt (item_at 3 3) "CONTINUE" [];
   FNode Case_Stmt (item_at 4 4) "CASE DEFAULT"
     [FNode Case_Selector None "DEFAULT" [FNone]; FNone];
   FNode Return_Stmt (item_at 5 5) "RETURN" [FNone];
   FNode End_Select_Stmt (item_at 6 6) "END SELECT" [FStr "SELECT"; FNone]].

Definition case_example : node := FNode Case_Construct None "" case_children.

(** The same construct with a statement after its END SELECT *)
Definition case_with_trailing_sibling : node :=
  FNode Case_Construct None ""
    (case_children ++ [FNode Continue_Stmt (item_at 7 7) "CONTINUE" []]).

Definition line_source (n : Z) (txt : string) : option Source :=
  Some {| lines := (n, n); src_string := Some txt |}.

Definition case_example_lowered : value :=
  PyTuple
    [MultiConditional
       (SymVariable "x" PyNone PyNone None (line_source 1 ""))
       [PyTuple [IntLiteral 1 PyNone (line_source 2 "1")]]
       [PyTuple [Intrinsic "CONTINUE" None (line_source 3 "")]]
       (PyTuple [Intrinsic "RETURN" None (line_source 5 "")])
       None None (Some {| lines := (1, 6); src_string := Some "" |})].

(** The branches, the else part and the end marker of [if_example] *)
Definition if_first_branch : node * list node :=
  (FNode If_Then_Stmt (item_at 1 1) "IF (c1) THEN" [name_node "c1"],
   [FNode Continue_Stmt (item_at 2 2) "CONTINUE" []]).
Definition if_more_branches : list (node * list node) :=
  [(FNode Else_If_Stmt (item_at 3 3) "ELSE IF (c2) THEN" [name_node "c2"; FNone],
    [FNode Stop_Stmt (item_at 4 4) "STOP" [FStr "STOP"; FNone]]);
   (FNode Else_If_Stmt (item_at 5 5) "ELSE IF (c3) THEN" [name_node "c3"; FNone],
    [FNode Cycle_Stmt (item_at 6 6) "CYCLE" [FStr "CYCLE"; FNone]])].
Definition if_else_part : node * list node :=
  (FNode Else_Stmt (item_at 7 7) "ELSE" [FNone],
   [FNode Exit_Stmt (item_at 8 8) "EXIT" [FStr "EXIT"; FNone]]).
Definition if_end_marker : node :=
  FNode End_If_Stmt (item_at 9 9) "END IF" [FStr "IF"; FNone].

(** ** Qualified names: [visit_Data_Ref] *)

(** [v.clone(name=n, parent=p)] of a variable *)
Definition clone_name_parent (v : value) (n : string) (p : value)
    : res value :=
  match v with
  | SymVariable _ d _ sc s => Ok (SymVariable n d p sc s)
  | _ => Err AttributeError
  end.

Section QualifiedNames.

Variable visit : node -> kwargs -> M value.

(** The loop over [o.children[1:]]: each part is lowered and renamed
    after the variable built so far, which becomes its parent. *)
Fixpoint data_ref_parts (parts : list node) (var : value) (kw : kwargs)
    : M value :=
  match parts with
  | [] => ret var
  | c :: r =>
      let parent := var in
      var <- visit c kw ;;
      pn <- lift (var_name parent) ;;
      vn <- lift (var_name var) ;;
      var <- lift (clone_name_parent var (pn ++ "%" ++ vn) parent) ;;
      data_ref_parts r var kw
  end.

(** A fully qualified name [part-ref [% part-ref ...]] *)
Definition visit_Data_Ref (o : node) (kw : kwargs) : M value :=
  c0 <- lift (child o 0) ;;
  var <- visit c0 kw ;;
  ch <- lift (node_children o) ;;
  data_ref_parts (skipn 1 ch) var kw.

End QualifiedNames.

Definition is_variable (v : value) : bool :=
  match v with SymVariable _ _ _ _ _ => true | _ => false end.

(** A part of a qualified name under its parent: the name is prefixed with
    the name of the parent, which is recorded; dimensions, scope and source
    are those of the part. *)
Definition qualified (parent part : value) : value :=
  match parent, part with
  | SymVariable pn _ _ _ _, SymVariable n d _ sc s =>
      SymVariable (pn ++ "%" ++ n) d parent sc s
  | _, _ => part
  end.

(** ** Comparisons and types of the Maxeler back end *)

Section MaxjComparison.

(** [self.rec] and the method of the base mapper that prints the
    comparisons other than [==] and [!=]; the base mapper is not among the
    lowered sources. *)
Variable rec : value -> Z -> res string.
Variable super_map_comparison : value -> Z -> res string.

Definition map_comparison (expr : value) (enclosing_prec : Z) : res string :=
  match expr with
  | Comparison expr_left operator expr_right _ =>
      if str_in operator ["=="; "!="] then
        let? l := rec expr_left PREC_CALL in
        let name := if String.eqb operator "==" then "eq" else "neq" in
        let? r := rec expr_right PREC_NONE in
        Ok (parenthesize_if_needed (l ++ "." ++ name ++ "(" ++ r ++ ")")
              enclosing_prec PREC_COMPARISON)
      else super_map_comparison expr enclosing_prec
  | _ => Err AttributeError
  end.

End MaxjComparison.

Section MaxjTypes.

(** [str(_type.kind)] and [_type.name]: the text of a kind and the name
    of a derived or deferred type are defined by classes that are not among
    the lowered sources. *)
Variable str_kind : value -> string.
Variable type_name : SymbolAttributes -> res string.

Definition maxj_local_type (_type : SymbolAttributes) : res string :=
  match dtype _type with
  | Basic DEFERRED => type_name _type
  | Basic LOGICAL => Ok "boolean"
  | Basic INTEGER => Ok "int"
  | Basic REAL =>
      if str_in (str_kind (kind _type)) ["real32"] then Ok "float"
      else Ok "double"
  | _ => Err ValueError
  end.

Definition maxj_dfevar_type (_type : SymbolAttributes) : res string :=
  match dtype _type with
  | Basic LOGICAL => Ok "dfeBool()"
  | Basic INTEGER => Ok "dfeUInt(32)"
  | Basic REAL =>
      if str_in (str_kind (kind _type)) ["real32"] then Ok "dfeFloat(8, 24)"
      else Ok "dfeFloat(11, 53)"
  | _ => Err ValueError
  end.

(** [o.shape[:-1]]: the shape of a type is [None] or the tuple of its
    dimensions. *)
Definition shape_but_last (shape : value) : res value :=
  match shape with
  | PyTuple dims => Ok (PyTuple (removelast dims))
  | _ => Err TypeError
  end.

(** [MaxjCodegen.visit_SymbolType].  The inner type of a vector is printed
    by [self.visit] on the clone of the type, which dispatches to this
    handler again; the bound on the depth of recursion is the first
    argument. *)
Fixpoint MaxjCodegen_visit_SymbolType (depth : nat) (o : SymbolAttributes)
    : res string :=
  match depth with
  | O => Err RecursionError
  | S d =>
      match dtype o with
      | DerivedType _ =>
          let? n := type_name o in Ok ("DFEStructType " ++ n)
      | _ =>
          if dfevar o then
            if truthy (shape o) then
              let? inner_shape := shape_but_last (shape o) in
              let? inner :=
                MaxjCodegen_visit_SymbolType d (clone_shape o inner_shape) in
              Ok ("DFEVector<" ++ inner ++ ">")
            else Ok "DFEVar"
          else maxj_local_type o
      end
  end.

End MaxjTypes.

(** [n] copies of a text, one after the other *)
Fixpoint times (n : nat) (s : string) : string :=
  match n with
  | O => ""
  | S m => s ++ times m s
  end.

(** A mapper that prints a variable as its name, whatever the precedence *)
Definition print_name (v : value) (prec : Z) : res string := var_name v.

(** ** Vocabulary for the expression printer *)

(** The result of a printer run with [line] put in front of its text *)
Definition after_line (line : string) (r : res (string * Z))
    : res (string * Z) :=
  let? lw := r in Ok (line ++ fst lw, snd lw).

(** The objects inside [v] that the expression printer visits next *)
Definition printed_parts (P : value -> Prop) (v : value) : Prop :=
  match v with
  | PyTuple items => Forall P items
  | SymVariable _ dimensions _ _ _ => P dimensions
  | Statement target expr _ _ => P target /\ P expr
  | Operation _ operands _ => Forall P operands
  | LiteralList values => P values
  | Variable_ _ dimensions subvar => P dimensions /\ P subvar
  | InlineCall _ parameters _ _ =>
      match parameters with
      | PyTuple items => Forall P items
      | _ => True
      end
  | _ => True
  end.

(** The loop of [visit_Operation] over the operators and the operands
    after the first, on its own *)
Fixpoint operation_pairs (self : FExprCodegen) (str : value -> res string)
    (ops : list string) (operands : list value) (lw : string * Z)
    {struct operands} : res (string * Z) :=
  match ops, operands with
  | op :: ops', operand :: operands' =>
      let lw := append self (fst lw) (s_op self op) (snd lw) in
      let? lw := fexpr_visit self str operand (fst lw) (snd lw) in
      operation_pairs self str ops' operands' lw
  | _, _ => Ok lw
  end.

(** The text does not depend on the line: what holds for one object *)
Definition line_independent (self : FExprCodegen)
    (str : value -> res string) (o : value) : Prop :=
  forall line width,
    fexpr_visit self str o line width
    = after_line line (fexpr_visit self str o "" width).

(** The reader item of a statement on one line *)
Definition item_at_line (n : Z) : option Item := item_at n n.

(** A [str] that knows no expression object *)
Definition print_text (o : value) : res string := Err TypeError.

(** A text without newline character *)
Definition no_newline (s : string) : Prop :=
  Forall (fun c => c <> nl) (list_ascii_of_string s).

(** ** Modules of the Maxeler back end: [MaxjCodegen.visit_Module] *)

(** [s.endswith(suffix)]: some tail of [s] is [suffix] *)
Fixpoint endswith (s suffix : string) : bool :=
  String.eqb s suffix ||
  match s with
  | EmptyString => false
  | String _ r => endswith r suffix
  end.

(** [s[:-k]] for a positive [k] *)
Definition str_drop_last (s : string) (k : nat) : string :=
  substring 0 (String.length s - k) s.

(** The module object handed to the printer: its name, its specification
    part and its routines *)
Record MaxjModule : Type := mkMaxjModule {
  m_name : string;
  m_spec : value;
  m_subroutines : list value
}.

Section MaxjModules.

(** Inherited from [loki.visitors.Stringifier] or imported from
    [loki.visitors], which are not among the lowered sources:
    [format_line] at a nesting depth, [join_lines], the search for the
    import nodes of a specification part, [self.visit] (at a depth, with
    or without [skip_imports]) and [self.visit_all].  A line is a text or
    [None]. *)
Variable format_line : nat -> list string -> string.
Variable join_lines : list (option string) -> option string.
Variable find_imports : value -> list value.
Variable visit : nat -> bool -> value -> res (option string).
Variable visit_all : nat -> list value -> res (list (option string)).

Definition MaxjCodegen_visit_Module (depth : nat) (o : MaxjModule)
    : res (option string) :=
  (* Figure out what kind of module we have here *)
  let? kind :=
    if endswith (m_name o) "ManagerMAX5C" then
      Ok (true, false,
          str_drop_last (m_name o) (String.length "ManagerMAX5C"))
    else if endswith (m_name o) "Manager" then
      Ok (true, true, str_drop_last (m_name o) (String.length "Manager"))
    else if endswith (m_name o) "Kernel" then
      (* [is_interface] is not bound on this path, and not read either *)
      Ok (false, false, str_drop_last (m_name o) (String.length "Kernel"))
    else Err ValueError in
  let '(is_manager, is_interface, package_name) := kind in
  (* Declare package *)
  let header := [Some (format_line depth ["package "; package_name; ";"])] in
  (* Some imports *)
  let imports := find_imports (m_spec o) in
  let? import_lines := visit_all depth imports in
  let header := (header ++ import_lines)%list in
  (* Class signature *)
  let header :=
    (header ++
     [Some (if is_manager : bool then
              if is_interface : bool then
                format_line depth
                  ["public interface "; m_name o;
                   " extends ManagerPCIe, ManagerKernel {"]
              else
                format_line depth
                  ["public class "; m_name o;
                   " extends MAX5CManager implements ";
                   str_drop_last (m_name o) 5; " {"]
            else format_line depth ["class "; m_name o; " extends Kernel {"])]
    )%list in
  (* Rest of the spec, then the subroutines, one level deeper *)
  let? spec := visit (S depth) true (m_spec o) in
  let? subroutines := visit_all (S depth) (m_subroutines o) in
  let body := spec :: subroutines in
  (* Footer *)
  let footer := [Some (format_line depth ["}"])] in
  Ok (join_lines (header ++ body ++ footer)%list).

End MaxjModules.

(** The last character of a text *)
Fixpoint last_char (s : string) : option ascii :=
  match s with
  | EmptyString => None
  | String c r =>
      match r with
      | EmptyString => Some c
      | String _ _ => last_char r
      end
  end.

(** ** Function references and casts *)

(** [isinstance(arg, tuple)] *)
Definition is_tuple (v : value) : bool :=
  match v with PyTuple _ => true | _ => false end.

(** [for arg in v]: a tuple gives its items and a [str] its characters;
    no other lowered object is iterable. *)
Definition iter_object (v : value) : res (list value) :=
  match v with
  | PyTuple items => Ok items
  | PyStr s => Ok (map (fun c => PyStr (String c "")) (list_ascii_of_string s))
  | _ => Err TypeError
  end.

(** [t[i]]: only tuples are subscripted here *)
Definition subscript (v : value) (i : nat) : res value :=
  match v with
  | PyTuple items => getitem items i
  | _ => Err TypeError
  end.

(** [v == s] for a string constant [s] *)
Definition eq_text (v : value) (s : string) : bool :=
  match v with PyStr t => String.eqb t s | _ => false end.

(** [str.upper] on the ASCII range. *)
Definition upper_ascii (c : ascii) : ascii :=
  let n := nat_of_ascii c in
  if ((97 <=? n)%nat && (n <=? 122)%nat)%bool then ascii_of_nat (n - 32) else c.

Fixpoint upper (s : string) : string :=
  match s with
  | EmptyString => EmptyString
  | String c r => String (upper_ascii c) (upper r)
  end.

Section Calls.

Variable visit : node -> kwargs -> M value.

(** [sym.Cast(name, expr, kind=kind, source=source)], an expression kind
    the handlers above do not build, and [str] of a lowered name. *)
Variable Cast : value -> value -> value -> option Source -> value.
Variable str : value -> res string.

(** A single argument of a call: the pair of its keyword (or [None]) and
    its value *)
Definition visit_Actual_Arg_Spec (o : node) (kw : kwargs) : M value :=
  c0 <- lift (child o 0) ;;
  keyword <- lift (if is_none c0 then Ok PyNone
                   else let? k := tostr c0 in Ok (PyStr k)) ;;
  c1 <- lift (child o 1) ;;
  arg <- visit c1 kw ;;
  ret (PyTuple [keyword; arg]).

(** An inline function call *)
Definition visit_Function_Reference (o : node) (kw : kwargs) : M value :=
  c0 <- lift (child o 0) ;;
  name <- visit c0 kw ;;
  c1 <- lift (child o 1) ;;
  ak <- (if is_none c1 then ret ([], [])
         else
           arguments <- visit c1 kw ;;
           args <- lift (iter_object arguments) ;;
           ret (List.filter (fun arg => negb (is_tuple arg)) args,
                List.filter is_tuple args)) ;;
  let arguments := fst ak in
  let kwarguments := snd ak in
  ret (InlineCall name (PyTuple arguments) (PyTuple kwarguments)
         (kw_source kw)).

Definition visit_Intrinsic_Function_Reference (o : node) (kw : kwargs)
    : M value :=
  c0 <- lift (child o 0) ;;
  name <- visit c0 kw ;;
  c1 <- lift (child o 1) ;;
  ak <- (if is_none c1 then ret ([], [])
         else
           arguments <- visit c1 kw ;;
           args <- lift (iter_object arguments) ;;
           ret (List.filter (fun arg => negb (is_tuple arg)) args,
                List.filter is_tuple args)) ;;
  let arguments := fst ak in
  let kwarguments := snd ak in
  s <- lift (str name) ;;
  if str_in (upper s) ["REAL"; "INT"] then
    assert_ (negb (is_nil arguments)) ;;;
    expr <- lift (getitem arguments 0) ;;
    kind <-
      (if negb (is_nil kwarguments) then
         assert_ (length arguments =? 1)%nat ;;;
         is_kind <-
           (if (length kwarguments =? 1)%nat then
              k0 <- lift (getitem kwarguments 0) ;;
              key <- lift (subscript k0 0) ;;
              ret (eq_text key "kind")
            else ret false) ;;
         assert_ is_kind ;;;
         k0 <- lift (getitem kwarguments 0) ;;
         lift (subscript k0 1)
       else
         if (1 <? length arguments)%nat then lift (getitem arguments 1)
         else ret PyNone) ;;
    ret (Cast name expr kind (kw_source kw))
  else
    ret (InlineCall name (PyTuple arguments) (PyTuple kwarguments)
           (kw_source kw)).

End Calls.

(** An argument of a call in the parse tree: a bare expression, or an
    [Actual_Arg_Spec] of a keyword and an expression *)
Definition arg_node (a : option string * node) : node :=
  match a with
  | (None, e) => e
  | (Some k, e) =>
      FNode (Unhandled "Actual_Arg_Spec" false) None ""
            [FNode (Unhandled "Keyword" false) None k []; e]
  end.

(** What an argument lowers to, given the lowered expression *)
Definition arg_value (a : option string * node) (v : value) : value :=
  match fst a with
  | None => v
  | Some k => PyTuple [PyStr k; v]
  end.

Definition is_keyword (av : (option string * node) * value) : bool :=
  match fst (fst av) with Some _ => true | None => false end.

(** A dispatcher for the classes that make up an argument list of names *)
Fixpoint call_visitor (depth : nat) (o : node) (kw : kwargs) : M value :=
  match depth with
  | O => raise RecursionError
  | S d =>
      if isinstance o (Unhandled "Actual_Arg_Spec" false)
      then visit_Actual_Arg_Spec (call_visitor d) o kw
      else if isinstance o (Unhandled "Actual_Arg_Spec_List" false)
      then visit_List (call_visitor d) o kw
      else visit_Name o kw
  end.

(** ** SELECT TYPE constructs *)

Definition Select_Type_Stmt : fclass := Unhandled "Select_Type_Stmt" false.
Definition End_Select_Type_Stmt : fclass :=
  Unhandled "End_Select_Type_Stmt" false.

Section SelectType.

Variable self : FParser2IR.
Variable visit : node -> kwargs -> M value.

(** The loop over [o.content] that collects the banter before the
    construct: the lowered nodes before the first node of the class, and
    that node if the loop was left through [break]. *)
Fixpoint banter_until (c : fclass) (content : list node) (kw : kwargs)
    : M (list value * option node) :=
  match content with
  | [] => ret ([], None)
  | ch :: r =>
      if isinstance ch c then ret ([], Some ch)
      else
        v <- visit ch kw ;;
        br <- banter_until c r kw ;;
        ret (v :: fst br, snd br)
  end.

Definition visit_Select_Type_Construct (o : node) (kw : kwargs) : M value :=
  content <- lift (node_children o) ;;
  (* The banter before the construct... *)
  br <- banter_until Select_Type_Stmt content kw ;;
  let banter := fst br in
  let select_stmt :=
    match snd br with
    | Some ch => ch
    | None => get_child content Select_Type_Stmt
    end in
  (* Extract source by looking at everything between SELECT and END SELECT *)
  end_select_stmt <- lift (rget_child o End_Select_Type_Stmt) ;;
  it <- lift (node_item select_stmt) ;;
  eit <- lift (node_item end_select_stmt) ;;
  let lines := (fst (span it), snd (span eit)) in
  let string :=
    strip_nl (String.concat ""
                (py_slice (raw_source self) (fst lines - 1) (snd lines))) in
  let source := {| lines := lines; src_string := Some string |} in
  label <- lift (get_label select_stmt) ;;
  ret (PyTuple (banter ++ [Intrinsic string label (Some source)])).

End SelectType.

(** A SELECT TYPE construct on four lines *)
Definition select_type_source : list string :=
  ["SELECT TYPE (p)" ++ String nl ""; "TYPE IS (t)" ++ String nl "";
   "  x = 1" ++ String nl ""; "END SELECT" ++ String nl ""].

Definition select_type_visitor : FParser2IR :=
  {| raw_source := select_type_source; definitions := ∅;
     self_scope := Some 0%nat |}.

(** ** Lines of the printed text *)

(** Scan a text from left to right, keeping the length of the line being
    read and the length of the longest line completed so far *)
Fixpoint scan_lines (s : string) (acc : Z * Z) : Z * Z :=
  match s with
  | EmptyString => acc
  | String c r =>
      scan_lines r (if Ascii.eqb c nl then (0, Z.max (snd acc) (fst acc))
                    else (fst acc + 1, snd acc))
  end.

(** The length of the longest line of a text *)
Definition longest_line (s : string) : Z :=
  let acc := scan_lines s (0, 0) in Z.max (fst acc) (snd acc).

(** A sequence of calls of [append], each on the line and the width the
    call before it left *)
Definition append_all (self : FExprCodegen) (texts : list string)
    (lw : string * Z) : string * Z :=
  fold_left (fun lw txt => append self (fst lw) txt (snd lw)) texts lw.

(** The line and the tracked width stay within the line width: the line
    being written has at most the tracked width and the continuation
    prefix, every completed line at most one character more than the
    line width and the prefix. *)
Definition within_linewidth (self : FExprCodegen) (lw : string * Z) : Prop :=
  let acc := scan_lines (fst lw) (0, 0) in
  0 <= snd lw <= linewidth self /\
  0 <= fst acc <= snd lw + len (indent self) + 2 /\
  snd acc <= linewidth self + len (indent self) + 3.

(** ** ALLOCATE statements *)

(** One element of the argument of [dict(...)]: a sequence of two items *)
Definition pair_of (item : value) : res (value * value) :=
  match item with
  | PyTuple [k; v] => Ok (k, v)
  | PyTuple _ => Err ValueError
  | PyStr s =>
      match list_ascii_of_string s with
      | [a; b] => Ok (PyStr (String a ""), PyStr (String b ""))
      | _ => Err ValueError
      end
  | _ => Err TypeError
  end.

(** [dict(v)], as the list of its pairs in the order of insertion *)
Definition py_dict (v : value) : res (list (value * value)) :=
  let? items := iter_object v in mapR pair_of items.

(** [d.get(key)] for a string constant: the value of the last pair with
    the key, or [None] *)
Definition dict_get (d : list (value * value)) (key : string) : value :=
  match List.find (fun kv => eq_text (fst kv) key) (rev d) with
  | Some kv => snd kv
  | None => PyNone
  end.

Section Allocation.

Variable visit : node -> kwargs -> M value.

(** [ir.Allocation(variables, data_source, source, label)], an IR node
    the handlers above do not build *)
Variable Allocation : value -> value -> option Source -> option string -> value.

(** An allocation option in an allocate-stmt *)
Definition visit_Alloc_Opt (o : node) (kw : kwargs) : M value :=
  c0 <- lift (child o 0) ;;
  keyword <- lift (match c0 with
                   | FStr s => Ok s
                   | _ => Err AttributeError
                   end) ;;
  if String.eqb (lower keyword) "source" then
    c1 <- lift (child o 1) ;;
    v <- visit c1 kw ;;
    ret (PyTuple [PyStr "source"; v])
  else
    (* TODO: implement other alloc options *)
    warn_or_fail ("Unsupported allocation option: " ++ keyword) ;;;
    ret PyNone.

(** A call to [ALLOCATE] *)
Definition visit_Allocate_Stmt (o : node) (kw : kwargs) : M value :=
  c0 <- lift (child o 0) ;;
  (if is_none c0 then ret tt
   else
     (* We can't handle type spec at the moment *)
     warn_or_fail "type-spec in allocate-stmt not implemented") ;;;
  (* Any allocation options. We can only deal with "source" at the moment *)
  c2 <- lift (child o 2) ;;
  alloc_opts <- (if is_none c2 then ret []
                 else
                   opts <- visit c2 kw ;;
                   lift (py_dict opts)) ;;
  c1 <- lift (child o 1) ;;
  variables <- visit c1 kw ;;
  ret (Allocation variables (dict_get alloc_opts "source") (kw_source kw)
         (kw_label kw)).

End Allocation.

(** An option of an ALLOCATE statement whose keyword is not [source] *)
Definition unsupported_option (o : node) : Prop :=
  exists cls item text k rest,
    o = FNode cls item text (FStr k :: rest) /\ lower k <> "source".

(** A dispatcher for the classes of an ALLOCATE statement over names *)
Fixpoint alloc_visitor (depth : nat) (o : node) (kw : kwargs) : M value :=
  match depth with
  | O => raise RecursionError
  | S d =>
      if isinstance o (Unhandled "Alloc_Opt" false)
      then visit_Alloc_Opt (alloc_visitor d) o kw
      else if isinstance o (Unhandled "Alloc_Opt_List" false)
      then visit_List (alloc_visitor d) o kw
      else if isinstance o (Unhandled "Allocation_List" false)
      then visit_List (alloc_visitor d) o kw
      else visit_Name o kw
  end.

(** A text that fits on a line: no line break, and no longer than the
    line width *)
Definition fits (self : FExprCodegen) (txt : string) : Prop :=
  no_newline txt /\ len txt <= linewidth self.

(** Every text that the printer takes from the object fits on a line:
    the names, the operators (bare and as written between operands), and
    the [str] of literals and expressions *)
Fixpoint atoms_fit (self : FExprCodegen) (str : value -> res string)
    (o : value) {struct o} : Prop :=
  let all :=
    fix all (l : list value) : Prop :=
      match l with
      | [] => True
      | x :: r => atoms_fit self str x /\ all r
      end in
  match o with
  | PyStr txt => fits self txt
  | PyTuple items => all items
  | SymVariable name dimensions _ _ _ =>
      fits self name /\ atoms_fit self str dimensions
  | Statement target expr _ _ =>
      atoms_fit self str target /\ atoms_fit self str expr
  | Operation ops operands _ =>
      Forall (fun op => fits self op /\ fits self (s_op self op)) ops /\
      all operands
  | LiteralList values => atoms_fit self str values
  | Variable_ name dimensions subvar =>
      fits self name /\ atoms_fit self str dimensions /\
      atoms_fit self str subvar
  | InlineCall function parameters _ _ =>
      (forall name, var_name function = Ok name -> fits self (name ++ "(")) /\
      match parameters with
      | PyTuple items => all items
      | _ => True
      end
  | IntLiteral _ _ _ | FloatLiteral _ _ _ | LogicLiteral _ _
  | StringLiteral _ _
  | Sum _ _ | Product _ _ | Quotient _ _ _ | Power _ _ _
  | Comparison _ _ _ _ | LogicalAnd _ _ | LogicalOr _ _ | LogicalNot _ _
  | StringConcat _ _ | ParenthesisedAdd _ _ | ParenthesisedMul _ _
  | ParenthesisedPow _ _ _ =>
      forall txt, str o = Ok txt -> fits self txt
  | _ => True
  end.

(** Printing an object whose texts fit keeps the lines within the line
    width: what holds for one object *)
Definition keeps_within (self : FExprCodegen) (str : value -> res string)
    (o : value) : Prop :=
  atoms_fit self str o ->
  forall line width r,
    within_linewidth self (line, width) ->
    fexpr_visit self str o line width = Ok r ->
    within_linewidth self r.


(** * Properties *)

(** ** Generic facts about the monad *)

Lemma bind_ok {A B} (m : M A) (k : A -> M B) st a st' :
  m st = (Ok a, st') -> bind m k st = k a st'.
Proof. intros H. unfold bind. now rewrite H. Qed.

Lemma bind_err {A B} (m : M A) (k : A -> M B) st e st' :
  m st = (Err e, st') -> bind m k st = (Err e, st').
Proof. intros H. unfold bind. now rewrite H. Qed.

Lemma bind_inv_ok {A B} (m : M A) (k : A -> M B) st b st2 :
  bind m k st = (Ok b, st2) ->
  exists a st1, m st = (Ok a, st1) /\ k a st1 = (Ok b, st2).
Proof.
  unfold bind. destruct (m st) as [[a|e] st1]; intros H.
  - eauto.
  - discriminate.
Qed.

Lemma lift_ok {A} (r : res A) st : lift r st = (r, st).
Proof. reflexivity. Qed.

Lemma lift_ok_bind {A B} (a : A) (k : A -> M B) st :
  bind (lift (Ok a)) k st = k a st.
Proof. reflexivity. Qed.

Lemma bind_assoc {A B C} (m : M A) (f : A -> M B) (g : B -> M C) st :
  bind (bind m f) g st = bind m (fun x => bind (f x) g) st.
Proof. unfold bind. destruct (m st) as [[a|e] s]; reflexivity. Qed.

Lemma bind_ret {A B} (a : A) (k : A -> M B) st :
  bind (ret a) k st = k a st.
Proof. reflexivity. Qed.

(** ** Subtraction and unary minus *)

Lemma lower_eq_not (op t u : string) :
  lower op = t -> lower u <> t -> String.eqb op u = false.
Proof.
  intros H1 H2. apply String.eqb_neq. intros ->. contradiction.
Qed.

(** C2: lowering the binary subtraction a - b produces
    Sum(a, Product(-1, b)), and lowering the unary minus -x produces
    Product(-1, x): the literal -1 is the leading factor of a Product;
    both at [create_operation] and at the handlers of the binary and the
    unary level-2 expression, whatever the operands lower to. *)
Theorem C2_subtraction_is_product_with_minus_one :
  (forall a b source,
      create_operation "-" [a; b] source
      = Ok (Sum [a; Product [PyInt (-1); b] None] source)) /\
  (forall x source,
      create_operation "-" [x] source = Ok (Product [PyInt (-1); x] source)) /\
  (forall visit item text l r kw st,
      visit_Level_2_Expr visit
        (FNode Level_2_Expr item text [l; FStr "-"; r]) kw st
      = (a <- visit l kw ;;
         b <- visit r kw ;;
         ret (Sum [a; Product [PyInt (-1); b] None]
                  (option_map (fun s => clone_with_string s text)
                              (kw_source kw)))) st) /\
  (forall visit item text x kw st,
      visit_Level_2_Unary_Expr visit
        (FNode Level_2_Unary_Expr item text [FStr "-"; x]) kw st
      = (e <- visit x kw ;;
         if is_expression e
         then ret (Product [PyInt (-1); e]
                     (option_map (fun s => clone_with_string s text)
                                 (kw_source kw)))
         else lift (create_operation "-" (as_tuple e)
                     (option_map (fun s => clone_with_string s text)
                                 (kw_source kw)))) st).
Proof.
  repeat split.
  - intros visit item text l r kw st.
    unfold visit_Level_2_Expr, op_source, bind, lift, ret; simpl.
    destruct (kw_source kw); simpl;
      destruct (visit l kw st) as [[a|e] st1]; try reflexivity;
      destruct (visit r kw st1) as [[b|e] st2]; reflexivity.
  - intros visit item text x kw st.
    unfold visit_Level_2_Unary_Expr, op_source, bind, lift, ret; simpl.
    destruct (kw_source kw); simpl;
      destruct (visit x kw st) as [[v|e] st1]; try reflexivity;
      destruct v; reflexivity.
Qed.

(** ** Logical equivalence *)

(** C9: lowering [.eqv.] on operands a, b produces
    LogicalOr(LogicalAnd(a, b), LogicalNot(LogicalOr(a, b))) and lowering
    [.neqv.] produces LogicalAnd(LogicalNot(LogicalAnd(a, b)),
    LogicalOr(a, b)), in any spelling of the operator's letters; the result
    is built from And, Or and Not nodes alone. *)
Theorem C9_eqv_neqv_are_compound :
  forall (op : string) (a b : value) (source : option Source),
    (lower op = ".eqv." ->
     create_operation op [a; b] source
     = Ok (LogicalOr [LogicalAnd [a; b] source;
                      LogicalNot (LogicalOr [a; b] source) None] source)) /\
    (lower op = ".neqv." ->
     create_operation op [a; b] source
     = Ok (LogicalAnd [LogicalNot (LogicalAnd [a; b] source) None;
                       LogicalOr [a; b] source] source)).
Proof.
  intros op a b source. split; intros H; unfold create_operation;
    rewrite (lower_eq_not op _ "*" H), (lower_eq_not op _ "/" H),
      (lower_eq_not op _ "+" H), (lower_eq_not op _ "-" H),
      (lower_eq_not op _ "**" H) by (vm_compute; discriminate);
    rewrite H; reflexivity.
Qed.

Lemma C9_eqv_neqv_are_compound_witness :
  create_operation ".EQV." [PyInt 1; PyInt 2] None
  = Ok (LogicalOr [LogicalAnd [PyInt 1; PyInt 2] None;
                   LogicalNot (LogicalOr [PyInt 1; PyInt 2] None) None] None)
  /\ create_operation ".NeQv." [PyInt 1; PyInt 2] None
     = Ok (LogicalAnd [LogicalNot (LogicalAnd [PyInt 1; PyInt 2] None) None;
                       LogicalOr [PyInt 1; PyInt 2] None] None).
Proof.
  split.
  - apply (proj1 (C9_eqv_neqv_are_compound ".EQV." (PyInt 1) (PyInt 2) None)).
    reflexivity.
  - apply (proj2 (C9_eqv_neqv_are_compound ".NeQv." (PyInt 1) (PyInt 2) None)).
    reflexivity.
Defined.

(** ** References: call or array *)

(** C1: for a reference name(args), where the name lowers to a variable
    and the subscript list to the tuple of the lowered args: if the lookup
    of the name in the active scope chain returns a symbol of PROCEDURE
    type, lowering yields an inline call of the name with the args as
    positional parameters, no keyword parameters and no dimensions on the
    name; for any other lookup result (another type, or no symbol) it
    yields the variable with the args as its dimensions. *)
Theorem C1_part_ref_call_or_array :
  forall (visit : node -> kwargs -> M value) item text n subs kw st st1 st2
         nm par sc src args sid sco,
    visit n kw st = (Ok (SymVariable nm PyNone par sc src), st1) ->
    visit subs kw st1 = (Ok (PyTuple args), st2) ->
    kw_scope kw = Some sid ->
    scopes st2 !! sid = Some sco ->
    (forall a,
        lookup (scopes st2) sid nm = Some a ->
        is_ProcedureType (dtype a) = true ->
        visit_Part_Ref visit (FNode Part_Ref item text [n; subs]) kw st
        = (Ok (InlineCall (SymVariable nm PyNone par sc src) (PyTuple args)
                          (PyTuple []) (kw_source kw)), st2)) /\
    ((lookup (scopes st2) sid nm = None \/
      exists a, lookup (scopes st2) sid nm = Some a /\
                is_ProcedureType (dtype a) = false) ->
     visit_Part_Ref visit (FNode Part_Ref item text [n; subs]) kw st
     = (Ok (SymVariable nm (if truthy (PyTuple args) then PyTuple args
                            else PyNone) par sc src), st2)).
Proof.
  intros visit item text n subs kw st st1 st2 nm par sc src args sid sco
         Hn Hs Hsc Hsid.
  assert (Hrun :
            visit_Part_Ref visit (FNode Part_Ref item text [n; subs]) kw st
            = match lookup (scopes st2) sid nm with
              | Some a =>
                  if is_ProcedureType (dtype a)
                  then (Ok (InlineCall (SymVariable nm PyNone par sc src)
                                       (PyTuple args) (PyTuple [])
                                       (kw_source kw)), st2)
                  else (Ok (SymVariable nm (if truthy (PyTuple args)
                                            then PyTuple args else PyNone)
                                        par sc src), st2)
              | None => (Ok (SymVariable nm (if truthy (PyTuple args)
                                             then PyTuple args else PyNone)
                                         par sc src), st2)
              end).
  { unfold visit_Part_Ref, scope_lookup, scope_addr, bind, lift, ret,
      get_state; simpl.
    rewrite Hn, Hs.
    destruct args as [|a0 args']; simpl; rewrite Hsc, Hsid;
      (destruct (lookup (scopes st2) sid nm) as [a|]; [|reflexivity]);
      destruct (is_ProcedureType (dtype a)); reflexivity. }
  split.
  - intros a Ha Hp. rewrite Hrun, Ha, Hp. reflexivity.
  - intros [Hnone | (a & Ha & Hp)]; rewrite Hrun.
    + rewrite Hnone. reflexivity.
    + rewrite Ha, Hp. reflexivity.
Qed.

Lemma C1_part_ref_call_or_array_witness :
  visit_Part_Ref (visit plain_visitor no_rescope no_dims 3) foo_1
    scope0_kwargs (state_with_foo (ProcedureType "foo" true))
  = (Ok (InlineCall (SymVariable "foo" PyNone PyNone None None)
                    (PyTuple [IntLiteral 1 PyNone None]) (PyTuple []) None),
     state_with_foo (ProcedureType "foo" true))
  /\
  visit_Part_Ref (visit plain_visitor no_rescope no_dims 3) foo_1
    scope0_kwargs (state_with_foo (Basic REAL))
  = (Ok (SymVariable "foo" (PyTuple [IntLiteral 1 PyNone None]) PyNone None
                     None),
     state_with_foo (Basic REAL)).
Proof.
  split.
  - apply (proj1 (C1_part_ref_call_or_array
                    (visit plain_visitor no_rescope no_dims 3) None "foo(1)"
                    (name_node "foo")
                    (FNode Section_Subscript_List None "1" [int_node "1"])
                    scope0_kwargs
                    (state_with_foo (ProcedureType "foo" true))
                    (state_with_foo (ProcedureType "foo" true))
                    (state_with_foo (ProcedureType "foo" true))
                    "foo" PyNone None None [IntLiteral 1 PyNone None] 0%nat
                    {| symbols := {[ "foo" := new_attrs (ProcedureType "foo" true) None ]};
                       parent_scope := None |}
                    eq_refl eq_refl eq_refl eq_refl)
             (new_attrs (ProcedureType "foo" true) None));
      reflexivity.
  - apply (proj2 (C1_part_ref_call_or_array
                    (visit plain_visitor no_rescope no_dims 3) None "foo(1)"
                    (name_node "foo")
                    (FNode Section_Subscript_List None "1" [int_node "1"])
                    scope0_kwargs
                    (state_with_foo (Basic REAL))
                    (state_with_foo (Basic REAL))
                    (state_with_foo (Basic REAL))
                    "foo" PyNone None None [IntLiteral 1 PyNone None] 0%nat
                    {| symbols := {[ "foo" := new_attrs (Basic REAL) None ]};
                       parent_scope := None |}
                    eq_refl eq_refl eq_refl eq_refl)).
    right. exists (new_attrs (Basic REAL) None). split; reflexivity.
Defined.

(** In particular, through the whole visitor: [foo(1)] lowers to a call
    with one positional argument where [foo] is a procedure, to [foo]
    subscripted by 1 where [foo] is a real variable, and likewise where
    [foo] is not known at all. *)
Example lower_foo_1_procedure :
  visit plain_visitor no_rescope no_dims 4 foo_1 no_kwargs
    (state_with_foo (ProcedureType "foo" true))
  = (Ok (InlineCall (SymVariable "foo" PyNone PyNone None None)
                    (PyTuple [IntLiteral 1 PyNone None]) (PyTuple []) None),
     state_with_foo (ProcedureType "foo" true)).
Proof. reflexivity. Qed.

Example lower_foo_1_variable :
  visit plain_visitor no_rescope no_dims 4 foo_1 no_kwargs
    (state_with_foo (Basic REAL))
  = (Ok (SymVariable "foo" (PyTuple [IntLiteral 1 PyNone None]) PyNone None
                     None),
     state_with_foo (Basic REAL)).
Proof. reflexivity. Qed.

Example lower_foo_1_unresolved :
  visit plain_visitor no_rescope no_dims 4 foo_1 no_kwargs strict_state
  = (Ok (SymVariable "foo" (PyTuple [IntLiteral 1 PyNone None]) PyNone None
                     None),
     strict_state).
Proof. reflexivity. Qed.

(** ** Chained conditionals *)

Lemma fold_left_rev {A B} (f : B -> A -> B) (l : list A) (i : B) :
  fold_left f (rev l) i = fold_right (fun x acc => f acc x) i l.
Proof.
  rewrite <- (rev_involutive l) at 2. rewrite fold_left_rev_right.
  reflexivity.
Qed.

Lemma skipn_nth_error {A} (l : list A) (k : nat) (x : A) :
  nth_error l k = Some x -> skipn k l = x :: skipn (S k) l.
Proof.
  revert k. induction l as [|y l IH]; intros [|k] H; simpl in *;
    try discriminate.
  - now inversion H.
  - now apply IH.
Qed.

Lemma nth_error_zip4 {A B C D} (a : list A) (b : list B) (c : list C)
    (d : list D) (k : nat) :
  length b = length a -> length c = length a -> length d = length a ->
  (k < length a)%nat ->
  exists x y z w,
    nth_error a k = Some x /\ nth_error b k = Some y /\
    nth_error c k = Some z /\ nth_error d k = Some w /\
    nth_error (zip4 a b c d) k = Some (x, y, z, w).
Proof.
  revert b c d k.
  induction a as [|x a IH]; intros [|y b] [|z c] [|w d] k Hb Hc Hd Hk;
    simpl in *; try lia.
  destruct k as [|k].
  - exists x, y, z, w. repeat split; reflexivity.
  - destruct (IH b c d k) as (x0 & y0 & z0 & w0 & H); try lia.
    exists x0, y0, z0, w0. exact H.
Qed.

Lemma length_zip4 {A B C D} (a : list A) (b : list B) (c : list C)
    (d : list D) :
  length b = length a -> length c = length a -> length d = length a ->
  length (zip4 a b c d) = length a.
Proof.
  intros Hb Hc Hd. unfold zip4. rewrite !length_combine. lia.
Qed.

Lemma skipn_all_nil {A} (l : list A) (k : nat) :
  (length l <= k)%nat -> skipn k l = [].
Proof.
  revert k. induction l as [|x l IH]; intros [|k] H; simpl in *;
    try reflexivity; try lia.
  apply IH. lia.
Qed.

Lemma build_conditional_nested conditions bodies else_body labels sources :
  conditions <> [] ->
  length bodies = length conditions ->
  length labels = length conditions ->
  length sources = length conditions ->
  build_conditional conditions bodies else_body labels sources
  = Ok (nested_conditional (zip4 conditions bodies labels sources) else_body).
Proof.
  intros Hne Hb Hl Hs.
  set (entries := zip4 conditions bodies labels sources).
  set (n := length conditions).
  assert (Hn : (0 < n)%nat).
  { subst n. destruct conditions; [congruence | simpl; lia]. }
  assert (Hlen : length entries = n) by now apply length_zip4.
  unfold build_conditional, last_res. rewrite Hb, Hl, Hs. fold n.
  destruct (nth_error_zip4 conditions bodies labels sources (n - 1))
    as (c & b & l & s & Hc & Hbn & Hln & Hsn & He); try assumption.
  { fold n. lia. }
  fold entries in He.
  unfold nth_res at 1 2 3 4. rewrite Hc, Hbn, Hln, Hsn. simpl res_bind.
  rewrite fold_left_rev.
  assert (Hgen : forall m k, (k + m = n - 1)%nat ->
    fold_right
      (fun idx acc =>
         let? node := acc in
         let? c0 := nth_res conditions idx in
         let? b0 := nth_res bodies idx in
         let? l0 := nth_res labels idx in
         let? s0 := nth_res sources idx in
         Ok (Conditional c0 b0 [node] false true None l0 (Some s0)))
      (Ok (Conditional c b else_body false false None l (Some s)))
      (seq k m)
    = Ok (nested_conditional (skipn k entries) else_body)).
  { induction m as [|m IH]; intros k Hk.
    - simpl. assert (k = (n - 1)%nat) by lia. subst k.
      rewrite (skipn_nth_error _ _ _ He).
      rewrite skipn_all_nil by lia. reflexivity.
    - simpl seq. simpl fold_right. rewrite IH by lia. simpl res_bind.
      destruct (nth_error_zip4 conditions bodies labels sources k)
        as (c0 & b0 & l0 & s0 & Hc0 & Hb0 & Hl0 & Hs0 & He0);
        try assumption.
      { fold n. lia. }
      fold entries in He0. unfold nth_res.
      rewrite Hc0, Hb0, Hl0, Hs0. simpl res_bind.
      rewrite (skipn_nth_error _ _ _ He0).
      destruct (nth_error_zip4 conditions bodies labels sources (S k))
        as (c1 & b1 & l1 & s1 & _ & _ & _ & _ & He1); try assumption.
      { fold n. lia. }
      fold entries in He1. rewrite (skipn_nth_error _ _ _ He1).
      reflexivity. }
  rewrite (Hgen (n - 1)%nat 0%nat) by lia. reflexivity.
Qed.

Lemma flatten_conditional_elseif c b next i nm l s :
  flatten_conditional (Conditional c b [next] i true nm l s)
  = ((c, b) :: fst (flatten_conditional next), snd (flatten_conditional next)).
Proof. reflexivity. Qed.

Lemma flatten_nested branches else_body :
  branches <> [] ->
  flatten_conditional (nested_conditional branches else_body)
  = (map (fun e => (fst (fst (fst e)), snd (fst (fst e)))) branches,
     else_body).
Proof.
  induction branches as [|[[[c b] l] s] rest IH]; intros Hne;
    [congruence|].
  destruct rest as [|e rest'].
  - reflexivity.
  - change (nested_conditional ((c, b, l, s) :: e :: rest') else_body)
      with (Conditional c b [nested_conditional (e :: rest') else_body]
                        false true None l (Some s)).
    rewrite flatten_conditional_elseif, IH by congruence. reflexivity.
Qed.

Lemma map_zip4_branches {A B C D} (a : list A) (b : list B) (c : list C)
    (d : list D) :
  length b = length a -> length c = length a -> length d = length a ->
  map (fun e => (fst (fst (fst e)), snd (fst (fst e)))) (zip4 a b c d)
  = combine a b.
Proof.
  revert b c d.
  induction a as [|x a IH]; intros [|y b] [|z c] [|w d] Hb Hc Hd;
    simpl in *; try lia; try reflexivity.
  unfold zip4 in *. simpl. f_equal. apply IH; lia.
Qed.

(** For conditions [C1..Cn] (n >= 1), bodies [B1..Bn] and else-body E, the
    backward loop of the IF handler builds the nesting in which the
    innermost conditional holds Cn, Bn and E with has_elseif=False and each
    enclosing conditional holds Ci, Bi, the next conditional as its single
    else-body node and has_elseif=True; flattening that nesting gives the
    branches in their original order, then E. *)
Lemma build_conditional_right_to_left :
  forall conditions bodies else_body labels sources,
    (1 <= length conditions)%nat ->
    length bodies = length conditions ->
    length labels = length conditions ->
    length sources = length conditions ->
    build_conditional conditions bodies else_body labels sources
    = Ok (nested_conditional (zip4 conditions bodies labels sources)
                             else_body)
    /\ flatten_conditional
         (nested_conditional (zip4 conditions bodies labels sources)
                             else_body)
       = (combine conditions bodies, else_body).
Proof.
  intros conditions bodies else_body labels sources Hn Hb Hl Hs.
  assert (Hne : conditions <> []).
  { destruct conditions; [simpl in Hn; lia | discriminate]. }
  split.
  - now apply build_conditional_nested.
  - rewrite flatten_nested.
    + now rewrite map_zip4_branches.
    + intros H. apply (f_equal (@length _)) in H.
      rewrite length_zip4 in H by assumption.
      destruct conditions; [congruence | discriminate].
Qed.

(** C4: the IF handler does not lower every IF construct to the nesting
    of its branches.  On [IF (c1) THEN / RETURN / ELSE / CONTINUE / END IF]
    the ELSE statement is the third child, but the RETURN statement before
    it has the same items, so the children's [index] of the ELSE statement
    is the position of the RETURN statement.  The handler then takes the
    empty list as the body of the branch and the ELSE statement followed
    by CONTINUE as the else-body, and lowering the ELSE statement raises
    AttributeError, in strict and in lenient mode alike: no conditional is
    built. *)
Theorem C4_if_with_return_before_else_fails :
  get_child if_with_return_children Else_Stmt = else_stmt
  /\ nth_error if_with_return_children 2 = Some else_stmt
  /\ py_index if_with_return_children else_stmt = Ok 1%nat
  /\ slice if_with_return_children 1 1 = []
  /\ slice if_with_return_children 2 4
     = [else_stmt; FNode Continue_Stmt (item_at 4 4) "CONTINUE" []]
  /\ visit return_visitor no_rescope no_dims 5 if_with_return no_kwargs
       strict_state
     = (Err AttributeError, strict_state)
  /\ visit return_visitor no_rescope no_dims 5 if_with_return no_kwargs
       lenient_state
     = (Err AttributeError, lenient_state).
Proof.
  repeat split; vm_compute; reflexivity.
Qed.


(** The IF construct with conditions c1, c2, c3 and an else branch, lowered
    by the whole visitor: one nested conditional whose flattening lists the
    branches in source order. *)
Example lower_if_example :
  exists node,
    visit if_visitor no_rescope no_dims 5 if_example no_kwargs strict_state
    = (Ok (PyTuple [node]), strict_state)
    /\ flatten_conditional node
       = ([(SymVariable "c1" PyNone PyNone None
              (Some (mkSource (1, 1) (Some "IF (c1) THEN"))),
            [Intrinsic "CONTINUE" None
               (Some (mkSource (2, 2) (Some "  CONTINUE")))]);
           (SymVariable "c2" PyNone PyNone None
              (Some (mkSource (3, 3) (Some "ELSE IF (c2) THEN"))),
            [Intrinsic "STOP" None
               (Some (mkSource (4, 4) (Some "  STOP")))]);
           (SymVariable "c3" PyNone PyNone None
              (Some (mkSource (5, 5) (Some "ELSE IF (c3) THEN"))),
            [Intrinsic "CYCLE" None
               (Some (mkSource (6, 6) (Some "  CYCLE")))])],
          [Intrinsic "EXIT" None (Some (mkSource (8, 8) (Some "  EXIT")))]).
Proof. eexists. split; vm_compute; reflexivity. Qed.

(** ** Node kinds without a handler *)

(** C5: the universal defaults never reach [warn_or_fail].  Both of them,
    the one for plain nodes and the one for blocks, raise AttributeError
    on every node while they build the message of the warning (they read
    the name of the class through [name]).  So for a node of a class
    without a handler the visitor raises AttributeError in strict and in
    lenient mode alike; nothing is logged and no child is lowered. *)
Theorem C5_unhandled_kind_raises_AttributeError :
  (forall visit o kw st,
      visit_Base visit o kw st = (Err AttributeError, st)) /\
  (forall visit o kw st,
      visit_BlockBase visit o kw st = (Err AttributeError, st)) /\
  (forall self rescope dims depth name is_block item text children kw st,
      visit self rescope dims (S depth)
        (FNode (Unhandled name is_block) item text children) kw st
      = (Err AttributeError, st)).
Proof.
  split; [|split].
  - reflexivity.
  - reflexivity.
  - intros self rescope dims depth name is_block item text children kw st.
    destruct item as [it|]; destruct is_block; reflexivity.
Qed.

(** The procedure declaration [PROCEDURE(f) :: p], a node without handler,
    in both modes *)
Lemma C5_unhandled_example_raises_AttributeError :
  visit plain_visitor no_rescope no_dims 3 unhandled_example no_kwargs
        strict_state
  = (Err AttributeError, strict_state) /\
  visit plain_visitor no_rescope no_dims 3 unhandled_example no_kwargs
        lenient_state
  = (Err AttributeError, lenient_state).
Proof. split; reflexivity. Qed.

(** ** Siblings past the end marker *)

Lemma lift_inv_ok {A} (r : res A) st a st' :
  lift r st = (Ok a, st') -> r = Ok a /\ st' = st.
Proof. unfold lift. intros H. inversion H. auto. Qed.

Lemma ret_inv_ok {A} (x a : A) st st' :
  ret x st = (Ok a, st') -> a = x /\ st' = st.
Proof. unfold ret. intros H. inversion H. auto. Qed.

(** Step through a successful run of a chain of binds *)
Ltac chain H :=
  cbv zeta in H;
  repeat (apply bind_inv_ok in H;
          let a := fresh "a" in
          let s := fresh "s" in
          let Hm := fresh "Hm" in
          destruct H as (a & s & Hm & H); cbv zeta in H).

Ltac lifted :=
  repeat match goal with
         | H : lift _ _ = (Ok _, _) |- _ =>
             apply lift_inv_ok in H; destruct H as [H ?]; subst
         end.

(** The closing lines of a handler of a marker-bounded construct: with
    siblings past the end marker the handler raises AssertionError, after
    everything before the check has run. *)
Lemma closing_check {R} (m : M (R * list node)) (k : R * list node -> M value)
    st r rest st' :
  m st = (Ok (r, rest), st') ->
  rest <> [] ->
  (x <- m ;; assert_ (is_nil (snd x)) ;;; k x) st = (Err AssertionError, st').
Proof.
  intros Hm Hrest. rewrite (bind_ok _ _ _ _ _ Hm). simpl.
  destruct rest; [congruence | reflexivity].
Qed.

Lemma closing_check_ok {R} (m : M (R * list node))
    (k : R * list node -> M value) st v st' :
  (x <- m ;; assert_ (is_nil (snd x)) ;;; k x) st = (Ok v, st') ->
  exists r st1, m st = (Ok (r, []), st1).
Proof.
  intros H. apply bind_inv_ok in H. destruct H as ([r rest] & st1 & Hm & H).
  apply bind_inv_ok in H. destruct H as (u & st2 & Ha & _).
  simpl in Ha. destruct rest; [eauto | discriminate].
Qed.

Lemma lower_If_Construct_rest self visit o kw st pre node rest st' ch idx :
  lower_If_Construct self visit o kw st = (Ok (pre, node, rest), st') ->
  node_children o = Ok ch ->
  py_index ch (get_child ch End_If_Stmt) = Ok idx ->
  rest = skipn (S idx) ch.
Proof.
  intros H Hch Hidx. unfold lower_If_Construct in H. chain H. lifted.
  apply ret_inv_ok in H. destruct H as [H _]. inversion H; subst.
  congruence.
Qed.

Lemma lower_Interface_Block_rest self visit o kw st pre node rest st' ch idx :
  lower_Interface_Block self visit o kw st = (Ok (pre, node, rest), st') ->
  node_children o = Ok ch ->
  py_index ch (get_child ch End_Interface_Stmt) = Ok idx ->
  rest = skipn (S idx) ch.
Proof.
  intros H Hch Hidx. unfold lower_Interface_Block in H. chain H. lifted.
  apply ret_inv_ok in H. destruct H as [H _]. inversion H; subst.
  congruence.
Qed.

Lemma lower_Case_Construct_rest self visit o kw st pre node rest st' ch idx :
  lower_Case_Construct self visit o kw st = (Ok (pre, node, rest), st') ->
  node_children o = Ok ch ->
  py_index ch (get_child ch End_Select_Stmt) = Ok idx ->
  rest = skipn (S idx) ch.
Proof.
  intros H Hch Hidx. unfold lower_Case_Construct in H. chain H. lifted.
  apply ret_inv_ok in H. destruct H as [H _]. inversion H; subst.
  congruence.
Qed.

Lemma lower_Associate_Construct_rest self visit rescope dims o kw st pre node
    rest st' ch idx :
  lower_Associate_Construct self visit rescope dims o kw st
  = (Ok (pre, node, rest), st') ->
  node_children o = Ok ch ->
  py_index ch (get_child ch End_Associate_Stmt) = Ok idx ->
  rest = skipn (S idx) ch.
Proof.
  intros H Hch Hidx. unfold lower_Associate_Construct in H. chain H. lifted.
  apply ret_inv_ok in H. destruct H as [H _]. inversion H; subst.
  congruence.
Qed.

(** C6: for each marker-bounded construct (IF construct, ASSOCIATE block,
    INTERFACE block, CASE construct), the siblings past the end marker
    must be empty: if any sibling follows the end marker, the handler
    raises AssertionError once everything before the check has run, and in
    no case returns a result. *)
Theorem C6_siblings_past_end_marker_are_fatal :
  forall self visit rescope dims o kw st,
    fatal_past_end (lower_If_Construct self visit o kw)
                   (visit_If_Construct self visit o kw) o End_If_Stmt st /\
    fatal_past_end (lower_Associate_Construct self visit rescope dims o kw)
                   (visit_Associate_Construct self visit rescope dims o kw)
                   o End_Associate_Stmt st /\
    fatal_past_end (lower_Interface_Block self visit o kw)
                   (visit_Interface_Block self visit o kw)
                   o End_Interface_Stmt st /\
    fatal_past_end (lower_Case_Construct self visit o kw)
                   (visit_Case_Construct self visit o kw)
                   o End_Select_Stmt st.
Proof.
  intros self visit rescope dims o kw st. unfold fatal_past_end.
  repeat split.
  - intros pre node rest st' Hl Hrest. unfold visit_If_Construct.
    now apply (closing_check _ _ _ (pre, node) rest st').
  - intros ch idx Hch Hidx Hrest v st' H. unfold visit_If_Construct in H.
    apply closing_check_ok in H. destruct H as ([pre node] & st1 & Hl).
    pose proof (lower_If_Construct_rest _ _ _ _ _ _ _ _ _ _ _ Hl Hch Hidx).
    congruence.
  - intros pre node rest st' Hl Hrest. unfold visit_Associate_Construct.
    now apply (closing_check _ _ _ (pre, node) rest st').
  - intros ch idx Hch Hidx Hrest v st' H.
    unfold visit_Associate_Construct in H.
    apply closing_check_ok in H. destruct H as ([pre node] & st1 & Hl).
    pose proof (lower_Associate_Construct_rest _ _ _ _ _ _ _ _ _ _ _ _ _
                  Hl Hch Hidx).
    congruence.
  - intros pre node rest st' Hl Hrest. unfold visit_Interface_Block.
    now apply (closing_check _ _ _ (pre, node) rest st').
  - intros ch idx Hch Hidx Hrest v st' H. unfold visit_Interface_Block in H.
    apply closing_check_ok in H. destruct H as ([pre node] & st1 & Hl).
    pose proof (lower_Interface_Block_rest _ _ _ _ _ _ _ _ _ _ _ Hl Hch Hidx).
    congruence.
  - intros pre node rest st' Hl Hrest. unfold visit_Case_Construct.
    now apply (closing_check _ _ _ (pre, node) rest st').
  - intros ch idx Hch Hidx Hrest v st' H. unfold visit_Case_Construct in H.
    apply closing_check_ok in H. destruct H as ([pre node] & st1 & Hl).
    pose proof (lower_Case_Construct_rest _ _ _ _ _ _ _ _ _ _ _ Hl Hch Hidx).
    congruence.
Qed.

Lemma C6_siblings_past_end_marker_are_fatal_witness :
  visit_If_Construct if_visitor (visit if_visitor no_rescope no_dims 4)
    if_with_trailing_sibling scope0_kwargs strict_state
  = (Err AssertionError, strict_state)
  /\ (forall v st',
       visit_If_Construct if_visitor (visit if_visitor no_rescope no_dims 4)
         if_with_trailing_sibling scope0_kwargs strict_state
       <> (Ok v, st'))
  /\ visit_Case_Construct plain_visitor
       (visit plain_visitor no_rescope no_dims 5)
       case_with_trailing_sibling scope0_kwargs strict_state
     = (Err AssertionError, strict_state).
Proof.
  split; [|split].
  - destruct (C6_siblings_past_end_marker_are_fatal if_visitor
                (visit if_visitor no_rescope no_dims 4) no_rescope no_dims
                if_with_trailing_sibling scope0_kwargs strict_state)
      as [[Hassert _] _].
    eapply Hassert.
    + vm_compute. reflexivity.
    + discriminate.
  - destruct (C6_siblings_past_end_marker_are_fatal if_visitor
                (visit if_visitor no_rescope no_dims 4) no_rescope no_dims
                if_with_trailing_sibling scope0_kwargs strict_state)
      as [[_ Hnever] _].
    apply (Hnever (if_children ++
                   [FNode Continue_Stmt (item_at 10 10) "CONTINUE" []])%list
                  8%nat).
    + reflexivity.
    + vm_compute. reflexivity.
    + vm_compute. discriminate.
  - destruct (C6_siblings_past_end_marker_are_fatal plain_visitor
                (visit plain_visitor no_rescope no_dims 5) no_rescope no_dims
                case_with_trailing_sibling scope0_kwargs strict_state)
      as (_ & _ & _ & Hassert & _).
    eapply Hassert.
    + vm_compute. reflexivity.
    + discriminate.
Defined.

(** ** Imports *)

Lemma with_scopes_id st sid sc :
  scopes st !! sid = Some sc ->
  with_scopes st (<[sid := with_symbols sc (symbols sc)]> (scopes st)) = st.
Proof.
  intros H. destruct st as [m l store], sc as [t p]. simpl in *.
  unfold with_scopes, with_symbols. simpl. f_equal.
  now apply insert_id.
Qed.

Lemma scope_define_run kw sid st sc n a :
  kw_scope kw = Some sid ->
  scopes st !! sid = Some sc ->
  scope_define kw n a st
  = (Ok tt, with_scopes st
              (<[sid := with_symbols sc (<[lower n := a]> (symbols sc))]>
                 (scopes st))).
Proof.
  intros Hkw Hsc.
  unfold scope_define, scope_addr, bind, get_state, put_state, ret, define.
  rewrite Hkw, Hsc. simpl. rewrite Hsc. reflexivity.
Qed.

(** A loop of definitions into the scope at [sid]: every key of the loop
    ends up bound to its value, every other name keeps its binding, and
    nothing else in the state changes. *)
Lemma define_loop {X} (step : X -> M unit) (key : X -> string)
    (val : string -> SymbolAttributes) kw sid (xs : list X) :
  kw_scope kw = Some sid ->
  Forall (fun x => forall st,
              step x st = scope_define kw (key x) (val (lower (key x))) st) xs ->
  forall st sc,
    scopes st !! sid = Some sc ->
    exists us t,
      mapM step xs st
      = (Ok us, with_scopes st (<[sid := with_symbols sc t]> (scopes st)))
      /\ forall k,
           t !! k = if decide (k ∈ map (fun x => lower (key x)) xs)
                    then Some (val k) else symbols sc !! k.
Proof.
  intros Hkw Hstep. induction Hstep as [|x xs Hx _ IH]; intros st sc Hsc.
  - exists [], (symbols sc). split.
    + simpl. unfold ret. now rewrite with_scopes_id.
    + intros k. simpl. destruct (decide (k ∈ [])) as [Hin|_]; [|reflexivity].
      now apply elem_of_nil in Hin.
  - simpl mapM.
    pose proof (scope_define_run kw sid st sc (key x) (val (lower (key x)))
                  Hkw Hsc) as Hrun.
    rewrite <- Hx in Hrun.
    set (sc2 := with_symbols sc (<[lower (key x) := val (lower (key x))]>
                                   (symbols sc))) in *.
    set (st2 := with_scopes st (<[sid := sc2]> (scopes st))) in *.
    assert (Hsc2 : scopes st2 !! sid = Some sc2).
    { subst st2. simpl. apply lookup_insert_eq. }
    destruct (IH st2 sc2 Hsc2) as (us & t & Hrest & Ht).
    exists (tt :: us), t. split.
    + rewrite (bind_ok _ _ _ _ _ Hrun), (bind_ok _ _ _ _ _ Hrest).
      unfold ret. f_equal. subst st2 sc2. unfold with_scopes, with_symbols.
      simpl. f_equal. apply insert_insert_eq.
    + intros k. rewrite Ht. simpl map.
      destruct (decide (k ∈ map (fun x0 => lower (key x0)) xs)) as [Hin|Hnin].
      * rewrite decide_True; [reflexivity | now apply list_elem_of_further].
      * subst sc2. simpl symbols.
        destruct (decide (k = lower (key x))) as [->|Hne].
        -- rewrite lookup_insert_eq.
           rewrite decide_True; [reflexivity | apply list_elem_of_here].
        -- rewrite lookup_insert_ne by congruence.
           rewrite decide_False; [reflexivity|].
           intros Hin. apply elem_of_cons in Hin. tauto.
Qed.

Lemma mapR_var_name_clone_scope syms names sc :
  mapR var_name syms = Ok names ->
  exists cloned, mapR (fun s => clone_scope s sc) syms = Ok cloned.
Proof.
  revert names. induction syms as [|s syms IH]; intros names H.
  - exists []. reflexivity.
  - simpl in H. destruct s; simpl in H; try discriminate.
    destruct (mapR var_name syms) as [ns|e] eqn:E; simpl in H;
      [|discriminate].
    destruct (IH ns eq_refl) as (cl & Hcl). simpl. rewrite Hcl. simpl. eauto.
Qed.

Lemma use_whole_module self visit item text c1 cls mi name mch c4 kw st sid
    sc m :
  kw_scope kw = Some sid ->
  scopes st !! sid = Some sc ->
  definitions self !! lower name = Some m ->
  (forall k a, module_symbols m !! k = Some a -> lower k = k) ->
  exists t,
    visit_Use_Stmt self visit
      (use_stmt item text c1 (FNode cls mi name mch) (FStr "") c4) kw st
    = (Ok (Import name PyNone (kw_label kw) (kw_source kw)),
       with_scopes st (<[sid := with_symbols sc t]> (scopes st)))
    /\ forall k,
         t !! k = match module_symbols m !! k with
                  | Some a => Some (clone_imported a (module_name m))
                  | None => symbols sc !! k
                  end.
Proof.
  intros Hkw Hsc Hm Hcanon.
  destruct (define_loop
              (fun kv : string * SymbolAttributes =>
                 scope_define kw (fst kv)
                   (clone_imported (snd kv) (module_name m)))
              fst (imported_from m) kw sid
              (map_to_list (module_symbols m)) Hkw) with (st := st) (sc := sc)
    as (us & t & Hrun & Ht); [|assumption|].
  { apply Forall_forall. intros [k a] Hin st0. simpl.
    apply elem_of_map_to_list in Hin. unfold imported_from.
    rewrite (Hcanon k a Hin), Hin. reflexivity. }
  exists t. split.
  - unfold visit_Use_Stmt, use_stmt.
    cbn [child node_children res_bind nth_error].
    rewrite lift_ok_bind. cbn [is_none]. rewrite bind_ret.
    rewrite lift_ok_bind. cbn [tostr]. rewrite lift_ok_bind.
    rewrite lift_ok_bind. rewrite Hm. cbn [eq_str String.eqb].
    unfold bind at 1. unfold bind at 1. rewrite Hrun. reflexivity.
  - intros k. rewrite Ht.
    destruct (module_symbols m !! k) as [a|] eqn:Hk.
    + rewrite decide_True.
      * unfold imported_from. now rewrite Hk.
      * apply list_elem_of_fmap. exists (k, a). simpl. split.
        -- symmetry. eauto.
        -- now apply elem_of_map_to_list.
    + rewrite decide_False; [reflexivity|].
      intros Hin. apply list_elem_of_fmap in Hin.
      destruct Hin as ([k' a'] & Hk' & Hin). simpl in Hk'.
      apply elem_of_map_to_list in Hin.
      rewrite (Hcanon k' a' Hin) in Hk'. congruence.
Qed.

Lemma mapR_var_name_names syms names :
  mapR var_name syms = Ok names ->
  names = map name_or_empty syms /\
  Forall (fun s => var_name s = Ok (name_or_empty s)) syms.
Proof.
  revert names. induction syms as [|s syms IH]; intros names H; simpl in H.
  - inversion H. split; [reflexivity | constructor].
  - destruct (var_name s) as [n|e] eqn:Hn; simpl in H; [|discriminate].
    destruct (mapR var_name syms) as [ns|e] eqn:E; simpl in H; [|discriminate].
    inversion H; subst. destruct (IH ns eq_refl) as [-> HF]. split.
    + simpl. f_equal. unfold name_or_empty. now rewrite Hn.
    + constructor; [|assumption]. unfold name_or_empty. now rewrite Hn.
Qed.

Lemma scope_addr_run kw sid st sc :
  kw_scope kw = Some sid -> scopes st !! sid = Some sc ->
  scope_addr kw st = (Ok sid, st).
Proof.
  intros Hkw Hsc. unfold scope_addr, bind, get_state, ret.
  rewrite Hkw, Hsc. reflexivity.
Qed.

Lemma use_only_known self visit item text c1 cls mi name mch c4 kw st st1 sid
    sc1 m syms names :
  kw_scope kw = Some sid ->
  is_none c4 = false ->
  visit c4 kw st = (Ok (PyTuple syms), st1) ->
  mapR var_name syms = Ok names ->
  scopes st1 !! sid = Some sc1 ->
  definitions self !! lower name = Some m ->
  (forall n, n ∈ names -> is_Some (module_symbols m !! lower n)) ->
  exists t cloned,
    mapR (fun s => clone_scope s (Some sid)) syms = Ok cloned /\
    visit_Use_Stmt self visit
      (use_stmt item text c1 (FNode cls mi name mch) (FStr ", ONLY:") c4) kw st
    = (Ok (Import name (PyTuple cloned) (kw_label kw) (kw_source kw)),
       with_scopes st1 (<[sid := with_symbols sc1 t]> (scopes st1)))
    /\ forall k,
         t !! k = if decide (k ∈ map lower names)
                  then (fun a => clone_imported a (module_name m))
                         <$> module_symbols m !! k
                  else symbols sc1 !! k.
Proof.
  intros Hkw Hc4 Hvisit Hnames Hsc Hm Hall.
  destruct (mapR_var_name_names _ _ Hnames) as [-> Hvars].
  destruct (mapR_var_name_clone_scope syms _ (Some sid) Hnames)
    as (cloned & Hcl).
  destruct (define_loop
              (fun s =>
                 n <- lift (var_name s) ;;
                 match module_symbols m !! lower n with
                 | Some a => scope_define kw n (clone_imported a (module_name m))
                 | None => raise KeyError
                 end)
              name_or_empty (imported_from m) kw sid syms Hkw)
    with (st := st1) (sc := sc1) as (us & t & Hrun & Ht); [|assumption|].
  { apply Forall_forall. intros s Hin st0.
    rewrite Forall_forall in Hvars. rewrite (Hvars s Hin).
    rewrite lift_ok_bind.
    destruct (Hall (name_or_empty s)) as (a & Ha).
    { apply list_elem_of_fmap. eauto. }
    unfold imported_from. rewrite Ha. reflexivity. }
  exists t, cloned. split; [assumption|]. split.
  - unfold visit_Use_Stmt, use_stmt.
    cbn [child node_children res_bind nth_error].
    rewrite lift_ok_bind. cbn [is_none]. rewrite bind_ret.
    rewrite lift_ok_bind. cbn [tostr]. rewrite lift_ok_bind.
    rewrite lift_ok_bind. rewrite Hm. cbn [eq_str String.eqb Ascii.eqb].
    cbn [Bool.eqb].
    rewrite bind_assoc, lift_ok_bind, Hc4.
    rewrite bind_assoc, (bind_ok _ _ _ _ _ Hvisit).
    rewrite bind_assoc. cbn [iter]. rewrite lift_ok_bind.
    rewrite !bind_assoc, (bind_ok _ _ _ _ _ Hrun), bind_ret.
    rewrite bind_assoc, Hkw, Hcl, lift_ok_bind, bind_ret. reflexivity.
  - intros k. rewrite Ht. rewrite map_map.
    destruct (decide (k ∈ map (fun x => lower (name_or_empty x)) syms))
      as [Hin|Hnin]; [|reflexivity].
    apply list_elem_of_fmap in Hin. destruct Hin as (s & -> & Hin).
    destruct (Hall (name_or_empty s)) as (a & Ha).
    { apply list_elem_of_fmap. eauto. }
    unfold imported_from. rewrite Ha. reflexivity.
Qed.

Lemma use_only_unknown self visit item text c1 cls mi name mch c4 kw st st1
    sid sc1 syms names :
  kw_scope kw = Some sid ->
  is_none c4 = false ->
  visit c4 kw st = (Ok (PyTuple syms), st1) ->
  mapR var_name syms = Ok names ->
  scopes st1 !! sid = Some sc1 ->
  definitions self !! lower name = None ->
  exists t cloned,
    mapR (fun s => clone_scope s (Some sid)) syms = Ok cloned /\
    visit_Use_Stmt self visit
      (use_stmt item text c1 (FNode cls mi name mch) (FStr ", ONLY:") c4) kw st
    = (Ok (Import name (PyTuple cloned) (kw_label kw) (kw_source kw)),
       with_scopes st1 (<[sid := with_symbols sc1 t]> (scopes st1)))
    /\ forall k,
         t !! k = if decide (k ∈ map lower names)
                  then Some (new_attrs (Basic DEFERRED) (Some true))
                  else symbols sc1 !! k.
Proof.
  intros Hkw Hc4 Hvisit Hnames Hsc Hm.
  destruct (mapR_var_name_clone_scope syms _ (Some sid) Hnames)
    as (cloned & Hcl).
  destruct (define_loop
              (fun n => scope_define kw n (new_attrs (Basic DEFERRED) (Some true)))
              (fun n => n) (fun _ => new_attrs (Basic DEFERRED) (Some true))
              kw sid names Hkw)
    with (st := st1) (sc := sc1) as (us & t & Hrun & Ht); [|assumption|].
  { apply Forall_forall. intros n _ st0. reflexivity. }
  exists t, cloned. split; [assumption|]. split.
  - unfold visit_Use_Stmt, use_stmt.
    cbn [child node_children res_bind nth_error].
    rewrite lift_ok_bind. cbn [is_none]. rewrite bind_ret.
    rewrite lift_ok_bind. cbn [tostr]. rewrite lift_ok_bind.
    rewrite lift_ok_bind. rewrite Hm. cbn [eq_str String.eqb Ascii.eqb].
    cbn [Bool.eqb].
    rewrite bind_assoc, lift_ok_bind, Hc4.
    rewrite bind_assoc, (bind_ok _ _ _ _ _ Hvisit).
    rewrite bind_assoc. cbn [iter]. rewrite lift_ok_bind.
    rewrite !bind_assoc, (bind_ok _ _ _ _ _ (scope_addr_run _ _ _ _ Hkw Hsc)).
    rewrite !bind_assoc, Hnames, lift_ok_bind.
    rewrite !bind_assoc, (bind_ok _ _ _ _ _ Hrun), bind_ret.
    rewrite Hkw, Hcl. reflexivity.
  - intros k. rewrite Ht. reflexivity.
Qed.

(** A USE statement with a module nature: in strict mode the handler logs
    an error and raises NotImplementedError before anything else; in
    lenient mode it logs a warning and goes on as for the statement without
    the module nature. *)
Lemma use_stmt_module_nature self visit item text c0 c1 c2 c3 c4 kw st :
  is_none c0 = false ->
  visit_Use_Stmt self visit (FNode Use_Stmt item text [c0; c1; c2; c3; c4])
                 kw st
  = if strict_mode st
    then (Err NotImplementedError, logged ERROR module_nature_msg st)
    else visit_Use_Stmt self visit (use_stmt item text c1 c2 c3 c4) kw
           (logged WARNING module_nature_msg st).
Proof.
  intros Hc0.
  unfold visit_Use_Stmt, use_stmt, warn_or_fail, error, warning, emit,
    logged, module_nature_msg, bind, lift, ret, raise, get_state.
  simpl. rewrite Hc0.
  destruct (strict_mode st) eqn:E; simpl; rewrite ?E; reflexivity.
Qed.

(** C7, as amended: a USE statement without ONLY list copies every symbol
    of the module found in the definitions table into the local scope,
    each tagged as imported (and as coming from that module); a USE
    statement with an ONLY list copies the listed names from the module,
    tagged likewise, when the module is in the table; and when the module
    is not in the table, it binds each listed name in the local scope with
    DEFERRED type, tagged as imported, and lowering succeeds.  In each of
    these cases every other name of the scope keeps its binding, and the
    handler hands no message to the logger: the log is the one left by
    lowering the ONLY list.  A USE statement that gives a module nature is
    lowered in the same way after a warning about the module nature has
    been logged in lenient mode; in strict mode an error is logged,
    NotImplementedError is raised and nothing is bound. *)
Theorem C7_use_stmt_binds_imported_symbols :
  forall self visit item text c1 cls mi name mch c4 kw sid,
    kw_scope kw = Some sid ->
    (forall st sc m,
        scopes st !! sid = Some sc ->
        definitions self !! lower name = Some m ->
        (forall k a, module_symbols m !! k = Some a -> lower k = k) ->
        exists t,
          visit_Use_Stmt self visit
            (use_stmt item text c1 (FNode cls mi name mch) (FStr "") c4) kw st
          = (Ok (Import name PyNone (kw_label kw) (kw_source kw)),
             with_scopes st (<[sid := with_symbols sc t]> (scopes st)))
          /\ forall k,
               t !! k = match module_symbols m !! k with
                        | Some a => Some (clone_imported a (module_name m))
                        | None => symbols sc !! k
                        end) /\
    (forall st st1 sc1 syms names,
        is_none c4 = false ->
        visit c4 kw st = (Ok (PyTuple syms), st1) ->
        mapR var_name syms = Ok names ->
        scopes st1 !! sid = Some sc1 ->
        (forall m,
            definitions self !! lower name = Some m ->
            (forall n, n ∈ names -> is_Some (module_symbols m !! lower n)) ->
            exists t cloned,
              mapR (fun s => clone_scope s (Some sid)) syms = Ok cloned /\
              visit_Use_Stmt self visit
                (use_stmt item text c1 (FNode cls mi name mch)
                          (FStr ", ONLY:") c4) kw st
              = (Ok (Import name (PyTuple cloned) (kw_label kw) (kw_source kw)),
                 with_scopes st1 (<[sid := with_symbols sc1 t]> (scopes st1)))
              /\ forall k,
                   t !! k = if decide (k ∈ map lower names)
                            then (fun a => clone_imported a (module_name m))
                                   <$> module_symbols m !! k
                            else symbols sc1 !! k) /\
        (definitions self !! lower name = None ->
         exists t cloned,
           mapR (fun s => clone_scope s (Some sid)) syms = Ok cloned /\
           visit_Use_Stmt self visit
             (use_stmt item text c1 (FNode cls mi name mch)
                       (FStr ", ONLY:") c4) kw st
           = (Ok (Import name (PyTuple cloned) (kw_label kw) (kw_source kw)),
              with_scopes st1 (<[sid := with_symbols sc1 t]> (scopes st1)))
           /\ forall k,
                t !! k = if decide (k ∈ map lower names)
                         then Some (new_attrs (Basic DEFERRED) (Some true))
                         else symbols sc1 !! k)) /\
    (forall nature c3 st,
        is_none nature = false ->
        visit_Use_Stmt self visit
          (FNode Use_Stmt item text
                 [nature; c1; FNode cls mi name mch; c3; c4]) kw st
        = if strict_mode st
          then (Err NotImplementedError, logged ERROR module_nature_msg st)
          else visit_Use_Stmt self visit
                 (use_stmt item text c1 (FNode cls mi name mch) c3 c4) kw
                 (logged WARNING module_nature_msg st)).
Proof.
  intros self visit item text c1 cls mi name mch c4 kw sid Hkw.
  split; [|split].
  - intros st sc m Hsc Hm Hcanon. now apply use_whole_module.
  - intros st st1 sc1 syms names Hc4 Hvisit Hnames Hsc. split.
    + intros m Hm Hall. now apply use_only_known with (names := names).
    + intros Hm. now apply use_only_unknown with (names := names).
  - intros nature c3 st Hn. now apply use_stmt_module_nature.
Qed.

Lemma module_m_keys_lower k a :
  module_symbols module_m !! k = Some a -> lower k = k.
Proof.
  intros H. apply elem_of_map_to_list in H. vm_compute in H.
  repeat (apply elem_of_cons in H; destruct H as [H|H];
          [inversion H; reflexivity|]).
  now apply elem_of_nil in H.
Qed.

Lemma C7_use_stmt_binds_imported_symbols_witness :
  (exists t,
      visit_Use_Stmt visitor_with_m (visit visitor_with_m no_rescope no_dims 3)
        use_all_example scope0_kwargs lenient_state
      = (Ok (Import "M" PyNone None None),
         with_scopes lenient_state
           (<[0%nat := with_symbols empty_scope t]> (scopes lenient_state)))
      /\ forall k,
           t !! k = match module_symbols module_m !! k with
                    | Some a => Some (clone_imported a "m")
                    | None => symbols empty_scope !! k
                    end) /\
  (exists t cloned,
      mapR (fun s => clone_scope s (Some 0%nat))
           [var_unscoped "a"; var_unscoped "B"] = Ok cloned /\
      visit_Use_Stmt visitor_with_m (visit visitor_with_m no_rescope no_dims 3)
        use_only_example scope0_kwargs lenient_state
      = (Ok (Import "m" (PyTuple cloned) None None),
         with_scopes lenient_state
           (<[0%nat := with_symbols empty_scope t]> (scopes lenient_state)))
      /\ forall k,
           t !! k = if decide (k ∈ map lower ["a"; "B"])
                    then (fun a => clone_imported a "m")
                           <$> module_symbols module_m !! k
                    else symbols empty_scope !! k) /\
  (exists t cloned,
      mapR (fun s => clone_scope s (Some 0%nat))
           [var_unscoped "a"; var_unscoped "B"] = Ok cloned /\
      visit_Use_Stmt visitor_without_m
        (visit visitor_without_m no_rescope no_dims 3)
        use_only_example scope0_kwargs lenient_state
      = (Ok (Import "m" (PyTuple cloned) None None),
         with_scopes lenient_state
           (<[0%nat := with_symbols empty_scope t]> (scopes lenient_state)))
      /\ forall k,
           t !! k = if decide (k ∈ map lower ["a"; "B"])
                    then Some (new_attrs (Basic DEFERRED) (Some true))
                    else symbols empty_scope !! k) /\
  visit_Use_Stmt visitor_without_m
    (visit visitor_without_m no_rescope no_dims 3)
    use_intrinsic_only_example scope0_kwargs lenient_state
  = visit_Use_Stmt visitor_without_m
      (visit visitor_without_m no_rescope no_dims 3)
      (use_stmt (item_at 1 1) "USE, INTRINSIC :: m, ONLY: a, B" (FStr "::")
         (FNode Module_Name None "m" []) (FStr ", ONLY:") only_list_a_B)
      scope0_kwargs (logged WARNING module_nature_msg lenient_state) /\
  visit_Use_Stmt visitor_with_m (visit visitor_with_m no_rescope no_dims 3)
    use_intrinsic_only_example scope0_kwargs strict_state
  = (Err NotImplementedError, logged ERROR module_nature_msg strict_state).
Proof.
  split; [|split; [|split; [|split]]].
  - apply (proj1 (C7_use_stmt_binds_imported_symbols visitor_with_m
                    (visit visitor_with_m no_rescope no_dims 3)
                    (item_at 1 1) "USE M" FNone Module_Name None "M" [] FNone
                    scope0_kwargs 0%nat eq_refl)
             lenient_state empty_scope module_m).
    + reflexivity.
    + reflexivity.
    + exact module_m_keys_lower.
  - apply (proj1 (proj1 (proj2 (C7_use_stmt_binds_imported_symbols
                    visitor_with_m
                    (visit visitor_with_m no_rescope no_dims 3)
                    (item_at 1 1) "USE m, ONLY: a, B" FNone Module_Name None
                    "m" [] only_list_a_B scope0_kwargs 0%nat eq_refl))
                  lenient_state lenient_state empty_scope
                  [var_unscoped "a"; var_unscoped "B"] ["a"; "B"]
                  eq_refl eq_refl eq_refl eq_refl) module_m).
    + reflexivity.
    + intros n Hn.
      repeat (apply elem_of_cons in Hn; destruct Hn as [->|Hn];
              [vm_compute; eauto|]).
      now apply elem_of_nil in Hn.
  - apply (proj2 (proj1 (proj2 (C7_use_stmt_binds_imported_symbols
                    visitor_without_m
                    (visit visitor_without_m no_rescope no_dims 3)
                    (item_at 1 1) "USE m, ONLY: a, B" FNone Module_Name None
                    "m" [] only_list_a_B scope0_kwargs 0%nat eq_refl))
                  lenient_state lenient_state empty_scope
                  [var_unscoped "a"; var_unscoped "B"] ["a"; "B"]
                  eq_refl eq_refl eq_refl eq_refl)).
    reflexivity.
  - exact (proj2 (proj2 (C7_use_stmt_binds_imported_symbols
                    visitor_without_m
                    (visit visitor_without_m no_rescope no_dims 3)
                    (item_at 1 1) "USE, INTRINSIC :: m, ONLY: a, B"
                    (FStr "::") Module_Name None "m" [] only_list_a_B
                    scope0_kwargs 0%nat eq_refl))
             (FStr "INTRINSIC") (FStr ", ONLY:") lenient_state eq_refl).
  - exact (proj2 (proj2 (C7_use_stmt_binds_imported_symbols
                    visitor_with_m
                    (visit visitor_with_m no_rescope no_dims 3)
                    (item_at 1 1) "USE, INTRINSIC :: m, ONLY: a, B"
                    (FStr "::") Module_Name None "m" [] only_list_a_B
                    scope0_kwargs 0%nat eq_refl))
             (FStr "INTRINSIC") (FStr ", ONLY:") strict_state eq_refl).
Defined.

(** The claim as first stated fails in two places.  Where it says that a
    warning is issued for the missing module: lowering [USE m, ONLY: a, B]
    without a definition of [m], in lenient mode, succeeds and leaves the
    log empty.  And where it speaks of every USE statement: in strict mode
    [USE, INTRINSIC :: M], for a module [m] that is in the definitions
    table, raises NotImplementedError and copies no symbol into the
    scope. *)
Lemma C7_missing_module_issues_no_warning :
  ~ (exists v st',
        visit visitor_without_m no_rescope no_dims 4 use_only_example
              no_kwargs lenient_state = (Ok v, st')
        /\ exists msg, In (WARNING, msg) (log st'))
  /\ visit visitor_with_m no_rescope no_dims 4 use_intrinsic_all_example
           no_kwargs strict_state
     = (Err NotImplementedError, logged ERROR module_nature_msg strict_state)
  /\ scopes (logged ERROR module_nature_msg strict_state)
     = empty_scope_store.
Proof.
  split; [|split].
  - intros (v & st' & H & msg & Hin). vm_compute in H.
    inversion H; subst. exact Hin.
  - vm_compute. reflexivity.
  - reflexivity.
Qed.

(** The same import, lowered by the whole visitor: the names are bound
    with DEFERRED type and tagged as imported. *)
Example lower_use_only_without_module :
  exists v st',
    visit visitor_without_m no_rescope no_dims 4 use_only_example no_kwargs
          lenient_state = (Ok v, st')
    /\ log st' = []
    /\ lookup (scopes st') 0 "a" = Some (new_attrs (Basic DEFERRED) (Some true))
    /\ lookup (scopes st') 0 "B" = Some (new_attrs (Basic DEFERRED) (Some true)).
Proof. do 2 eexists. repeat split; vm_compute; reflexivity. Qed.

(** ** Sums in the Maxeler back end *)





(** ** Assignments in the two back ends *)

Lemma assignment_token_streaming ty :
  assignment_token ty = " <== " <->
  dfevar ty = true /\ truthy (shape ty) = true.
Proof.
  unfold assignment_token.
  destruct (dfevar ty), (truthy (shape ty)); simpl; split;
    try (intros [? ?]); try intros ?; try discriminate; auto.
Qed.

(** C8: for one assignment, the Fortran printer writes the target, the
    plain assignment token [=] and the expression (so [x = x + 1] for the
    assignment of x + 1 to x); the Maxeler printer writes the streaming
    token [<==] in place of [=] exactly when the type of the target is
    marked as a streaming value (dfevar) and has a non-empty shape, and
    the plain [=] otherwise. *)
Theorem C8_assignment_token_per_backend :
  (forall self str o_target o_expr o_comment line width,
      fexpr_visit self str (Statement o_target o_expr false o_comment)
                  line width
      = (let? lw := fexpr_visit self str o_target line width in
         let lw' := append self (fst lw) " = " (snd lw) in
         fexpr_visit self str o_expr (fst lw') (snd lw'))) /\
  (forall str x source,
      str (Sum [SymVariable "x" PyNone PyNone x source;
                IntLiteral 1 PyNone None] None) = Ok "x + 1" ->
      fexprgen str
        (Statement (SymVariable "x" PyNone PyNone x source)
                   (Sum [SymVariable "x" PyNone PyNone x source;
                         IntLiteral 1 PyNone None] None) false PyNone)
        fexprgen_defaults
      = Ok "x = x + 1") /\
  (forall visit format_line type_of o_target o_expr ptr o_comment
          target expr comment ty,
      visit o_target = Ok target ->
      visit o_expr = Ok expr ->
      comment_text visit o_comment = Ok comment ->
      type_of o_target = Ok ty ->
      MaxjCodegen_visit_Statement visit format_line type_of
        (Statement o_target o_expr ptr o_comment)
      = Ok (format_line [target; assignment_token ty; expr; ";"] comment)
      /\ (assignment_token ty = " <== " <->
          dfevar ty = true /\ truthy (shape ty) = true)
      /\ (assignment_token ty = " = " <->
          ~ (dfevar ty = true /\ truthy (shape ty) = true))).
Proof.
  split; [|split].
  - reflexivity.
  - intros str x source Hstr. unfold fexprgen. simpl. rewrite Hstr.
    reflexivity.
  - intros visit format_line type_of o_target o_expr ptr o_comment
           target expr comment ty Ht He Hc Hty.
    split; [|split].
    + unfold MaxjCodegen_visit_Statement. rewrite Ht, He. simpl.
      unfold comment_text in Hc. rewrite Hc. simpl. rewrite Hty. simpl.
      unfold assignment_token.
      destruct (dfevar ty && truthy (shape ty)); reflexivity.
    + apply assignment_token_streaming.
    + unfold assignment_token.
      destruct (dfevar ty), (truthy (shape ty)); simpl; split; intros H;
        try discriminate H; try reflexivity;
        try (intros [H1 H2]; discriminate);
        exfalso; apply H; split; reflexivity.
Qed.

Lemma C8_assignment_token_per_backend_witness :
  fexprgen expr_str x_plus_1 fexprgen_defaults = Ok "x = x + 1"
  /\ maxj_x_plus_1 (real_x true vector_shape) = Ok "x <== x + 1;"
  /\ maxj_x_plus_1 (real_x true PyNone) = Ok "x = x + 1;"
  /\ maxj_x_plus_1 (real_x false vector_shape) = Ok "x = x + 1;".
Proof.
  destruct C8_assignment_token_per_backend as (_ & Hf & H).
  split; [|split; [|split]].
  - apply (Hf expr_str (Some 0%nat) None). reflexivity.
  - apply (H (fun v => stringify 5 v PREC_NONE) join_line
             (type_in (store_with_x (real_x true vector_shape)))
             (var_in_scope0 "x")
             (Sum [var_in_scope0 "x"; IntLiteral 1 PyNone None] None)
             false PyNone "x" "x + 1" "" (real_x true vector_shape));
      reflexivity.
  - apply (H (fun v => stringify 5 v PREC_NONE) join_line
             (type_in (store_with_x (real_x true PyNone)))
             (var_in_scope0 "x")
             (Sum [var_in_scope0 "x"; IntLiteral 1 PyNone None] None)
             false PyNone "x" "x + 1" "" (real_x true PyNone));
      reflexivity.
  - apply (H (fun v => stringify 5 v PREC_NONE) join_line
             (type_in (store_with_x (real_x false vector_shape)))
             (var_in_scope0 "x")
             (Sum [var_in_scope0 "x"; IntLiteral 1 PyNone None] None)
             false PyNone "x" "x + 1" "" (real_x false vector_shape));
      reflexivity.
Defined.

(** ** The round trip of a subtraction *)

(** C3: the expression [a - b - 1] (as fparser parses it) lowers to the
    nested sum of products with leading -1, and the Fortran printer
    renders that tree as [a - b - 1]: each product with leading -1 is
    printed as a subtraction, not as a multiplication by -1. *)
Theorem C3_round_trip_of_subtraction :
  forall rescope dims scope st,
    parse_fparser_expression rescope dims a_minus_b_minus_1 "a - b - 1"
                             scope st
    = (Ok (Sum [Sum [SymVariable "a" PyNone PyNone scope None;
                     Product [PyInt (-1);
                              SymVariable "b" PyNone PyNone scope None] None]
                    None;
                Product [PyInt (-1); IntLiteral 1 PyNone None] None] None),
       st)
    /\ fexprgen expr_str
         (Sum [Sum [SymVariable "a" PyNone PyNone scope None;
                    Product [PyInt (-1);
                             SymVariable "b" PyNone PyNone scope None] None]
                   None;
               Product [PyInt (-1); IntLiteral 1 PyNone None] None] None)
         fexprgen_defaults
       = Ok "a - b - 1".
Proof.
  intros rescope dims scope st. split.
  - reflexivity.
  - reflexivity.
Qed.

(** ** Block extraction of the IF handler *)

Lemma node_same_refl : forall x, node_same x x = true.
Proof.
  fix IH 1. intros [| s | c i t ch]; simpl.
  - reflexivity.
  - apply String.eqb_refl.
  - rewrite !bool_decide_eq_true_2 by reflexivity.
    rewrite String.eqb_refl. simpl.
    induction ch as [|y r IHr]; [reflexivity|].
    rewrite IH. exact IHr.
Qed.

(** The same object is an equal object: the test for identity that
    [index] and the comparison of tuples make first never changes the
    outcome *)
Lemma node_same_eqb : forall a b, node_same a b = true -> node_eqb a b = true.
Proof.
  fix IH 1.
  intros [| s | c i t ch] [| s' | c' i' t' ch']; simpl; try discriminate;
    try (intros H; exact H).
  intros H. apply andb_true_iff in H. destruct H as [H Hch].
  apply andb_true_iff in H. destruct H as [H Ht].
  apply andb_true_iff in H. destruct H as [Hc _].
  apply bool_decide_eq_true_1 in Hc. subst c'.
  destruct ch as [|x r], ch' as [|y r']; try discriminate.
  - destruct (is_block c); [reflexivity | exact Ht].
  - rewrite Bool.eqb_reflx. cbn [andb].
    apply andb_true_iff in Hch. destruct Hch as [Hxy Hr].
    rewrite (IH x y Hxy). cbn [andb].
    revert r' Hr. induction r as [|a l IHl]; intros [|b l'] Hl;
      try discriminate; [reflexivity|].
    apply andb_true_iff in Hl. destruct Hl as [Hab Hl].
    rewrite (IH a b Hab). exact (IHl l' Hl).
Qed.

Lemma node_same_isinstance x y c :
  node_same y x = true -> isinstance x c = true -> isinstance y c = true.
Proof.
  destruct x as [| s | cx ix tx chx], y as [| s' | cy iy ty chy]; simpl;
    try discriminate.
  intros H Hx. apply andb_true_iff in H. destruct H as [H _].
  apply andb_true_iff in H. destruct H as [H _].
  apply andb_true_iff in H. destruct H as [H _].
  apply bool_decide_eq_true_1 in H. now subst.
Qed.

Lemma get_child_app l1 x l2 c :
  Forall (fun y => isinstance y c = false) l1 ->
  isinstance x c = true ->
  get_child (l1 ++ x :: l2) c = x.
Proof.
  intros Hl Hx. unfold get_child.
  induction Hl as [|y l1 Hy _ IH]; simpl.
  - now rewrite Hx.
  - rewrite Hy. exact IH.
Qed.

Lemma get_child_none l c :
  Forall (fun y => isinstance y c = false) l -> get_child l c = FNone.
Proof.
  intros Hl. unfold get_child. induction Hl as [|y l Hy _ IH]; simpl.
  - reflexivity.
  - rewrite Hy. exact IH.
Qed.

Lemma index_from_app l1 x l2 c k :
  Forall (fun y => isinstance y c = false) l1 ->
  isinstance x c = true ->
  Forall (fun y => node_eqb y x = false) l1 ->
  index_from x (l1 ++ x :: l2) k = Ok (k + length l1)%nat.
Proof.
  intros Hl Hx Hne. revert k.
  induction Hl as [|y l1 Hy _ IH]; intros k; simpl.
  - rewrite node_same_refl. cbn [orb]. f_equal. lia.
  - inversion Hne as [|? ? Hyx Hne']; subst. rewrite Hyx, orb_false_r.
    destruct (node_same y x) eqn:E.
    + rewrite (node_same_isinstance x y c E Hx) in Hy. discriminate.
    + rewrite (IH Hne'). f_equal. lia.
Qed.

Lemma py_index_app l1 x l2 c :
  Forall (fun y => isinstance y c = false) l1 ->
  isinstance x c = true ->
  Forall (fun y => node_eqb y x = false) l1 ->
  py_index (l1 ++ x :: l2) x = Ok (length l1).
Proof.
  intros Hl Hx Hne. unfold py_index.
  now rewrite (index_from_app l1 x l2 c 0).
Qed.

Lemma combine_app_same_length {A B} (a1 a2 : list A) (b1 b2 : list B) :
  length a1 = length b1 ->
  combine (a1 ++ a2) (b1 ++ b2) = (combine a1 b1 ++ combine a2 b2)%list.
Proof.
  revert b1. induction a1 as [|x a1 IH]; intros [|y b1] H; simpl in *;
    try discriminate; [reflexivity|].
  f_equal. apply IH. lia.
Qed.

Lemma enumerate_from_app {A} k (l1 l2 : list A) :
  enumerate_from k (l1 ++ l2)
  = (enumerate_from k l1 ++ enumerate_from (k + length l1) l2)%list.
Proof.
  unfold enumerate_from. rewrite length_app, seq_app.
  rewrite combine_app_same_length; [reflexivity|]. now rewrite length_seq.
Qed.

Lemma enumerate_from_cons {A} k (x : A) l :
  enumerate_from k (x :: l) = (k, x) :: enumerate_from (S k) l.
Proof. reflexivity. Qed.

Lemma filter_enumerate_none k l c :
  Forall (fun y => isinstance y c = false) l ->
  List.filter (fun ic => isinstance (snd ic) c) (enumerate_from k l) = [].
Proof.
  intros Hl. revert k. induction Hl as [|y l Hy _ IH]; intros k.
  - reflexivity.
  - rewrite enumerate_from_cons. simpl. rewrite Hy. apply IH.
Qed.

Lemma if_marker_false y :
  if_marker y = false ->
  isinstance y If_Then_Stmt = false /\ isinstance y Else_If_Stmt = false /\
  isinstance y Else_Stmt = false /\ isinstance y End_If_Stmt = false.
Proof.
  unfold if_marker. intros H.
  repeat (apply orb_false_iff in H; destruct H as [H ?]). auto.
Qed.

Lemma isinstance_other m c c' :
  isinstance m c = true -> c <> c' -> isinstance m c' = false.
Proof.
  destruct m as [| s | cm i t ch]; simpl; try discriminate.
  intros H Hne. apply bool_decide_eq_true_1 in H. subst.
  now apply bool_decide_eq_false_2.
Qed.

(** A sequence of ELSE-IF branches: each marker is an ELSE-IF statement,
    and no body holds a marker statement of the construct *)
Lemma branch_nodes_not_class rest c :
  c <> Else_If_Stmt ->
  (c = If_Then_Stmt \/ c = Else_Stmt \/ c = End_If_Stmt) ->
  Forall (fun mb => isinstance (fst mb) Else_If_Stmt = true /\
                    Forall (fun y => if_marker y = false) (snd mb)) rest ->
  Forall (fun y => isinstance y c = false) (branch_nodes rest).
Proof.
  intros Hne Hc Hrest. induction Hrest as [|[m b] r [Hm Hb] _ IH]; simpl.
  - constructor.
  - constructor.
    + apply (isinstance_other m Else_If_Stmt c Hm). congruence.
    + apply Forall_app. split; [|exact IH].
      eapply Forall_impl; [exact Hb|]. intros y Hy. simpl in Hy.
      destruct (if_marker_false y Hy) as (H1 & H2 & H3 & H4).
      destruct Hc as [->|[->| ->]]; assumption.
Qed.

Lemma plain_not_class l c :
  (c = If_Then_Stmt \/ c = Else_If_Stmt \/ c = Else_Stmt \/ c = End_If_Stmt) ->
  Forall (fun y => if_marker y = false) l ->
  Forall (fun y => isinstance y c = false) l.
Proof.
  intros Hc Hl. eapply Forall_impl; [exact Hl|]. intros y Hy. simpl in Hy.
  destruct (if_marker_false y Hy) as (H1 & H2 & H3 & H4).
  destruct Hc as [->|[->|[->| ->]]]; assumption.
Qed.

Lemma length_positions k branches :
  length (positions k branches) = length branches.
Proof.
  revert k. induction branches as [|mb r IH]; intros k; simpl;
    [reflexivity|]. now rewrite IH.
Qed.

Lemma hd_positions k branches :
  hd (k + length (branch_nodes branches))%nat (positions k branches) = k.
Proof. destruct branches as [|mb r]; simpl; lia. Qed.

Lemma combine_shifted (k e : nat) (P : list nat) :
  combine (k :: P) (P ++ [e]) = (k, hd e P) :: combine P (tl P ++ [e]).
Proof. destruct P as [|p P']; reflexivity. Qed.

Lemma branch_nodes_cons m b r :
  branch_nodes ((m, b) :: r) = m :: (b ++ branch_nodes r)%list.
Proof. reflexivity. Qed.

Lemma else_if_positions k rest :
  Forall (fun mb => isinstance (fst mb) Else_If_Stmt = true /\
                    Forall (fun y => if_marker y = false) (snd mb)) rest ->
  List.filter (fun ic => isinstance (snd ic) Else_If_Stmt)
              (enumerate_from k (branch_nodes rest))
  = combine (positions k rest) (map fst rest).
Proof.
  intros Hrest. revert k. induction Hrest as [|[m b] r [Hm Hb] _ IH];
    intros k; [reflexivity|].
  rewrite branch_nodes_cons.
  rewrite enumerate_from_cons. cbn [List.filter snd]. simpl in Hm.
  rewrite Hm. rewrite enumerate_from_app, List.filter_app.
  rewrite filter_enumerate_none
    by (apply plain_not_class; [tauto | exact Hb]).
  cbn [positions map fst snd combine app]. f_equal.
  replace (S k + length b)%nat with (k + 1 + length b)%nat by lia.
  apply IH.
Qed.

Lemma slice_middle {A} (pfx b sfx : list A) (m : A) :
  slice (pfx ++ m :: b ++ sfx) (S (length pfx)) (length pfx + 1 + length b) = b.
Proof.
  unfold slice.
  replace (pfx ++ m :: b ++ sfx)%list with ((pfx ++ [m]) ++ b ++ sfx)%list
    by (rewrite <- app_assoc; reflexivity).
  replace (S (length pfx)) with (length (pfx ++ [m]))
    by (rewrite length_app; simpl; lia).
  rewrite drop_app_length.
  replace (length pfx + 1 + length b - length (pfx ++ [m]))%nat
    with (length b) by (rewrite length_app; simpl; lia).
  apply take_app_length.
Qed.

Lemma bodies_slices branches :
  forall pfx sfx,
    Forall2 (fun ss b =>
               slice (pfx ++ branch_nodes branches ++ sfx) (S (fst ss)) (snd ss)
               = b)
      (combine (positions (length pfx) branches)
         (tl (positions (length pfx) branches) ++
          [(length pfx + length (branch_nodes branches))%nat]))
      (map snd branches).
Proof.
  induction branches as [|[m b] r IH]; intros pfx sfx.
  - constructor.
  - cbn [positions snd tl]. rewrite combine_shifted.
    cbn [map snd]. rewrite branch_nodes_cons.
    assert (Hlen : (length pfx + length (m :: b ++ branch_nodes r)
                    = length pfx + 1 + length b + length (branch_nodes r))%nat).
    { simpl. rewrite length_app. lia. }
    rewrite Hlen. rewrite hd_positions. constructor.
    + cbn [fst snd].
      change ((m :: b ++ branch_nodes r) ++ sfx)%list
        with (m :: (b ++ branch_nodes r) ++ sfx)%list.
      rewrite <- app_assoc. apply slice_middle.
    + specialize (IH (pfx ++ m :: b)%list sfx).
      replace (length (pfx ++ m :: b)) with (length pfx + 1 + length b)%nat
        in IH by (rewrite length_app; simpl; lia).
      replace (pfx ++ (m :: b ++ branch_nodes r) ++ sfx)%list
        with ((pfx ++ m :: b) ++ branch_nodes r ++ sfx)%list.
      * exact IH.
      * rewrite <- !app_assoc. simpl. rewrite <- !app_assoc. reflexivity.
Qed.

Lemma mapM_Forall2 {A A' B} (f : A -> M B) (g : A' -> M B) l1 l2 :
  Forall2 (fun x y => f x = g y) l1 l2 -> mapM f l1 = mapM g l2.
Proof.
  intros H. induction H as [|x y l1 l2 Hxy _ IH]; simpl.
  - reflexivity.
  - now rewrite Hxy, IH.
Qed.

Lemma mapM_length {A B} (f : A -> M B) l st r st' :
  mapM f l st = (Ok r, st') -> length r = length l.
Proof.
  revert st r st'. induction l as [|x l IH]; intros st r st' H; simpl in H.
  - apply ret_inv_ok in H. destruct H as [-> _]. reflexivity.
  - apply bind_inv_ok in H. destruct H as (y & s1 & _ & H).
    apply bind_inv_ok in H. destruct H as (ys & s2 & Hys & H).
    apply ret_inv_ok in H. destruct H as [-> _]. simpl.
    f_equal. eapply IH. exact Hys.
Qed.

Lemma bind_congr {A B} (m : M A) (k1 k2 : A -> M B) st :
  (forall a st', m st = (Ok a, st') -> k1 a st' = k2 a st') ->
  bind m k1 st = bind m k2 st.
Proof.
  intros H. unfold bind. destruct (m st) as [[a|e] st'] eqn:E.
  - now apply H.
  - reflexivity.
Qed.

Section IfLayout.

Variable self : FParser2IR.
Variable visit : node -> kwargs -> M value.
Variables (pre : list node) (it : node) (b1 : list node)
          (rest : list (node * list node)) (els : option (node * list node))
          (endif : node).
Hypothesis Hok : if_layout_ok pre it b1 rest els endif.

Let all : list (node * list node) := (it, b1) :: rest.
Let ch : list node := if_layout pre all els endif.
Let else_part : list node :=
  match els with Some (e, body) => e :: body | None => [] end.
Let front : list node := (pre ++ branch_nodes all ++ else_part)%list.
Let else_idx : nat := (length pre + length (branch_nodes all))%nat.

Lemma layout_ch_front : ch = (front ++ [endif])%list.
Proof.
  unfold ch, front, if_layout, else_part. now rewrite <- !app_assoc.
Qed.

Lemma layout_ch_if :
  ch = (pre ++ it :: (b1 ++ branch_nodes rest) ++ else_part ++ [endif])%list.
Proof. reflexivity. Qed.

Lemma layout_ch_else :
  ch = ((pre ++ branch_nodes all) ++ else_part ++ [endif])%list.
Proof. unfold ch, if_layout, else_part. now rewrite <- !app_assoc. Qed.

Lemma layout_front_not c :
  (c = If_Then_Stmt \/ c = Else_If_Stmt \/ c = Else_Stmt \/ c = End_If_Stmt) ->
  c <> If_Then_Stmt -> c <> Else_If_Stmt -> c <> Else_Stmt ->
  Forall (fun y => isinstance y c = false) front.
Proof.
  intros Hc H1 H2 H3. destruct Hok as [Hpre Hif Hb1 Hrest Hels Hend Hitems Hend_item Hfound_if Hfound_else Hfound_end].
  assert (Hc' : c = If_Then_Stmt \/ c = Else_Stmt \/ c = End_If_Stmt) by tauto.
  unfold front. apply Forall_app. split; [now apply plain_not_class|].
  apply Forall_app. split.
  - unfold all. rewrite branch_nodes_cons. constructor.
    + now apply (isinstance_other it If_Then_Stmt).
    + apply Forall_app. split; [now apply plain_not_class|].
      now apply branch_nodes_not_class.
  - unfold else_part. destruct els as [[e body]|]; [|constructor].
    destruct Hels as [He Hbody]. constructor.
    + now apply (isinstance_other e Else_Stmt).
    + now apply plain_not_class.
Qed.

Lemma layout_if_child : get_child ch If_Then_Stmt = it.
Proof.
  destruct Hok as [Hpre Hif Hb1 Hrest Hels Hend Hitems Hend_item Hfound_if Hfound_else Hfound_end]. rewrite layout_ch_if. apply get_child_app; [|assumption].
  apply plain_not_class; [tauto | assumption].
Qed.

Lemma layout_if_index : py_index ch it = Ok (length pre).
Proof.
  destruct Hok as [Hpre Hif Hb1 Hrest Hels Hend Hitems Hend_item Hfound_if Hfound_else Hfound_end]. rewrite layout_ch_if.
  apply (py_index_app _ _ _ If_Then_Stmt); [|assumption..].
  apply plain_not_class; [tauto | assumption].
Qed.

Lemma layout_end_child : get_child ch End_If_Stmt = endif.
Proof.
  destruct Hok as [Hpre Hif Hb1 Hrest Hels Hend Hitems Hend_item Hfound_if Hfound_else Hfound_end]. rewrite layout_ch_front. apply get_child_app; [|assumption].
  apply layout_front_not; [tauto | discriminate..].
Qed.

Lemma layout_end_index : py_index ch endif = Ok (length front).
Proof.
  destruct Hok as [Hpre Hif Hb1 Hrest Hels Hend Hitems Hend_item Hfound_if Hfound_else Hfound_end]. rewrite layout_ch_front.
  apply (py_index_app _ _ _ End_If_Stmt); [|assumption..].
  apply layout_front_not; [tauto | discriminate..].
Qed.

Lemma layout_pre : firstn (length pre) ch = pre.
Proof. unfold ch, if_layout. apply take_app_length. Qed.

Lemma layout_past_end : skipn (S (length front)) ch = [].
Proof.
  rewrite layout_ch_front. apply skipn_all_nil.
  rewrite length_app. simpl. lia.
Qed.

Lemma layout_else_ifs :
  List.filter (fun ic => isinstance (snd ic) Else_If_Stmt) (enumerate ch)
  = combine (positions (length pre + 1 + length b1) rest) (map fst rest).
Proof.
  destruct Hok as [Hpre Hif Hb1 Hrest Hels Hend Hitems Hend_item Hfound_if Hfound_else Hfound_end]. unfold enumerate. fold (enumerate_from 0 ch).
  rewrite layout_ch_if.
  rewrite enumerate_from_app, List.filter_app.
  rewrite filter_enumerate_none
    by (apply plain_not_class; [tauto | assumption]).
  rewrite enumerate_from_cons. cbn [List.filter snd app].
  rewrite (isinstance_other it If_Then_Stmt Else_If_Stmt Hif)
    by discriminate.
  rewrite <- app_assoc.
  rewrite enumerate_from_app, List.filter_app.
  rewrite filter_enumerate_none
    by (apply plain_not_class; [tauto | assumption]).
  rewrite enumerate_from_app, List.filter_app.
  cbn [app plus].
  replace (S (length pre + length b1))%nat
    with (length pre + 1 + length b1)%nat by lia.
  rewrite (else_if_positions _ rest Hrest).
  rewrite filter_enumerate_none; [apply app_nil_r|].
  apply Forall_app. split.
  - unfold else_part. destruct els as [[e body]|]; [|constructor].
    destruct Hels as [He Hbody]. constructor.
    + now apply (isinstance_other e Else_Stmt).
    + apply plain_not_class; [tauto | assumption].
  - constructor; [|constructor].
    now apply (isinstance_other endif End_If_Stmt).
Qed.

Lemma layout_else_index st :
  (if is_none (get_child ch Else_Stmt)
   then ret (length front)
   else lift (py_index ch (get_child ch Else_Stmt))) st
  = (Ok else_idx, st).
Proof.
  destruct Hok as [Hpre Hif Hb1 Hrest Hels Hend Hitems Hend_item Hfound_if Hfound_else Hfound_end].
  assert (Hfront : Forall (fun y => isinstance y Else_Stmt = false)
                          (pre ++ branch_nodes all)).
  { apply Forall_app. split.
    - apply plain_not_class; [tauto | assumption].
    - unfold all. rewrite branch_nodes_cons. constructor.
      + now apply (isinstance_other it If_Then_Stmt).
      + apply Forall_app. split.
        * apply plain_not_class; [tauto | assumption].
        * apply branch_nodes_not_class; [discriminate | tauto | assumption]. }
  rewrite layout_ch_else. unfold else_part, else_idx, front, else_part.
  destruct els as [[e body]|].
  - destruct Hels as [He Hbody]. cbn [app].
    rewrite (get_child_app _ e _ Else_Stmt Hfront He).
    destruct e as [| s | c i t chn]; try discriminate. cbn [is_none].
    rewrite (py_index_app _ _ _ Else_Stmt Hfront He Hfound_else).
    rewrite length_app. reflexivity.
  - cbn [app]. rewrite get_child_none.
    + cbn [is_none]. unfold ret. rewrite app_nil_r, length_app. reflexivity.
    + apply Forall_app. split; [assumption|]. constructor; [|constructor].
      now apply (isinstance_other endif End_If_Stmt).
Qed.

Lemma layout_bodies (kw : kwargs) :
  mapM (fun ss => visit_all visit (slice ch (S (fst ss)) (snd ss)) kw)
       (combine (length pre :: positions (length pre + 1 + length b1) rest)
                (positions (length pre + 1 + length b1) rest ++ [else_idx]))
  = mapM (fun b => visit_all visit b kw) (map snd all).
Proof.
  apply mapM_Forall2.
  pose proof (bodies_slices all pre (else_part ++ [endif])) as H.
  unfold all in H at 2 3. cbn [positions snd tl] in H.
  fold all in H. fold else_idx in H.
  eapply Forall2_impl; [exact H|].
  intros ss b Hs. cbv beta in Hs.
  change (slice ch (S (fst ss)) (snd ss) = b) in Hs. now rewrite Hs.
Qed.

Lemma layout_else_body :
  slice ch (S else_idx) (length front) = else_nodes els.
Proof.
  unfold else_idx, front, else_part, else_nodes.
  rewrite layout_ch_else. unfold else_part.
  destruct els as [[e body]|].
  - cbn [app].
    replace (length (pre ++ branch_nodes all ++ e :: body))
      with (length (pre ++ branch_nodes all) + 1 + length body)%nat
      by (rewrite !length_app; simpl; lia).
    rewrite <- length_app. apply slice_middle.
  - unfold slice. rewrite app_nil_r, length_app.
    replace (length pre + length (branch_nodes all)
             - S (length pre + length (branch_nodes all)))%nat
      with 0%nat by lia.
    reflexivity.
Qed.

Lemma layout_sources_labels :
  mapR (fun conditional =>
          let? it0 := node_item conditional in
          let? eit := node_item endif in
          let? lbl := get_label conditional in
          Ok (span_source (raw_source self) (fst (span it0)) (snd (span eit)),
              lbl))
       (map fst all)
  = Ok (map (fun m => (branch_source self (end_item_of endif) m,
                       branch_label m)) (map fst all)).
Proof.
  destruct Hok as [Hpre Hif Hb1 Hrest Hels Hend Hitems Hend_item Hfound_if Hfound_else Hfound_end]. clear - Hitems Hend_item.
  destruct endif as [| s | ce [eit|] te che]; try discriminate.
  fold all in Hitems.
  induction Hitems as [|[m b] r Hm _ IH]; [reflexivity|].
  cbn [map fst mapR]. rewrite IH.
  destruct m as [| s | c [i|] t chn]; try discriminate. reflexivity.
Qed.

Lemma update_name_nested branches else_body nm :
  branches <> [] ->
  update_name (nested_conditional branches else_body) nm
  = Ok (with_name nm (nested_conditional branches else_body)).
Proof.
  destruct branches as [|[[[c b] l] s0] [|e r]]; intros H;
    [congruence | reflexivity | reflexivity].
Qed.

Lemma map_fst_combine {A B} (a : list A) (b : list B) :
  length a = length b -> map fst (combine a b) = a.
Proof.
  revert b. induction a as [|x a IH]; intros [|y b] H; simpl in *;
    try discriminate; [reflexivity|]. f_equal. apply IH. lia.
Qed.

Lemma map_snd_combine {A B} (a : list A) (b : list B) :
  length a = length b -> map snd (combine a b) = b.
Proof.
  revert b. induction a as [|x a IH]; intros [|y b] H; simpl in *;
    try discriminate; [reflexivity|]. f_equal. apply IH. lia.
Qed.

Lemma layout_start_name : get_start_name it = Ok (branch_name it).
Proof.
  destruct Hok as [_ _ _ _ _ _ Hitems _ _ _ _]. inversion Hitems as [|x l Hit _].
  simpl in Hit. destruct it as [| s | c [i|] t chn]; try discriminate.
  reflexivity.
Qed.

(** The IF handler on a well-formed layout: the nodes before the construct,
    the conditions, the bodies and the else-body are lowered in this order,
    each child in the segment it belongs to, and the result is the nesting
    of the branches in source order. *)
Lemma If_Construct_block_extraction cls item text kw st :
  visit_If_Construct self visit (FNode cls item text ch) kw st
  = (pre' <- visit_all visit pre kw ;;
     conditions <- visit_all visit (map fst all) kw ;;
     bodies <- mapM (fun b => visit_all visit b kw) (map snd all) ;;
     else_body <- visit_all visit (else_nodes els) kw ;;
     ret (PyTuple
            (pre' ++
             [with_name (branch_name it)
                (nested_conditional
                   (zip4 conditions bodies
                      (map branch_label (map fst all))
                      (map (branch_source self (end_item_of endif))
                           (map fst all)))
                   else_body)]))) st.
Proof.
  assert (Hlenp : length (positions (length pre + 1 + length b1) rest)
                  = length (map fst rest)).
  { now rewrite length_positions, length_map. }
  unfold visit_If_Construct, lower_If_Construct. cbn [node_children].
  rewrite !bind_assoc, lift_ok_bind. cbv zeta.
  rewrite !layout_if_child, !layout_end_child.
  rewrite layout_if_index, !bind_assoc, lift_ok_bind.
  rewrite layout_end_index, !bind_assoc, lift_ok_bind.
  rewrite layout_pre, layout_else_ifs.
  rewrite (map_fst_combine _ _ Hlenp), (map_snd_combine _ _ Hlenp).
  change (it :: map fst rest) with (map fst all).
  rewrite bind_assoc.
  apply bind_congr. intros pre0 st1 _.
  rewrite bind_assoc.
  rewrite (bind_ok _ _ _ _ _ (layout_else_index st1)).
  rewrite bind_assoc. 
  apply bind_congr. intros conditions st2 Hc.
  rewrite layout_bodies.
  rewrite bind_assoc.
  apply bind_congr. intros bodies st3 Hb.
  rewrite layout_else_body.
  rewrite bind_assoc. apply bind_congr. intros else_body st4 _.
  rewrite layout_sources_labels.
  rewrite bind_assoc, lift_ok_bind. rewrite !map_map. cbn [fst snd].
  apply mapM_length in Hc. apply mapM_length in Hb.
  rewrite length_map in Hc, Hb.
  rewrite bind_assoc.
  rewrite build_conditional_nested.
  - rewrite lift_ok_bind, bind_assoc.
    rewrite layout_start_name, lift_ok_bind, bind_assoc.
    rewrite update_name_nested.
    + rewrite lift_ok_bind, bind_ret.
      rewrite layout_past_end. reflexivity.
    + intros H. apply (f_equal (@length _)) in H.
      rewrite length_zip4 in H; rewrite ?length_map; try congruence.
      rewrite Hc in H. discriminate.
  - intros ->. discriminate.
  - congruence.
  - rewrite length_map. congruence.
  - rewrite length_map. congruence.
Qed.
End IfLayout.

(** * Further properties of the lowering engine and the printers *)

(** ** Extraction of the nodes between two markers *)

Lemma node_sublist_loop_inactive l s e :
  Forall (fun n => isinstance n s = false) l ->
  node_sublist_loop false l s e = [].
Proof.
  induction 1 as [|x l Hx _ IH]; simpl; [reflexivity|].
  rewrite Hx. destruct (isinstance x e); exact IH.
Qed.

Lemma node_sublist_loop_active l s e :
  Forall (fun n => isinstance n e = false) l ->
  forall r, node_sublist_loop true (l ++ r) s e
            = (l ++ node_sublist_loop true r s e)%list.
Proof.
  induction 1 as [|x l Hx _ IH]; intros r; simpl; [reflexivity|].
  rewrite Hx. simpl. f_equal.
  destruct (isinstance x s); apply IH.
Qed.

Lemma node_sublist_loop_skip l s e :
  Forall (fun n => isinstance n s = false) l ->
  forall r, node_sublist_loop false (l ++ r) s e
            = node_sublist_loop false r s e.
Proof.
  induction 1 as [|x l Hx _ IH]; intros r; simpl; [reflexivity|].
  rewrite Hx. destruct (isinstance x e); apply IH.
Qed.

(** When the list is laid out as: nodes that are no start marker, a start
    marker, a body without end marker, an end marker, and nodes that are no
    start marker, [node_sublist] returns exactly the body.  Start and end
    marker are of different classes. *)
Theorem node_sublist_between_markers :
  forall pre start body stop post starttype endtype,
    starttype <> endtype ->
    Forall (fun n => isinstance n starttype = false) pre ->
    isinstance start starttype = true ->
    Forall (fun n => isinstance n endtype = false) body ->
    isinstance stop endtype = true ->
    Forall (fun n => isinstance n starttype = false) post ->
    node_sublist (pre ++ start :: body ++ stop :: post) starttype endtype
    = body.
Proof.
  intros pre start body stop post s e Hne Hpre Hs Hbody He Hpost.
  unfold node_sublist. rewrite node_sublist_loop_skip by assumption.
  assert (Hse : isinstance start e = false).
  { destruct start as [| |c i t ch]; try discriminate. simpl in *.
    apply bool_decide_eq_true in Hs. subst c. now apply bool_decide_eq_false. }
  assert (Hes : isinstance stop s = false).
  { destruct stop as [| |c i t ch]; try discriminate. simpl in *.
    apply bool_decide_eq_true in He. subst c.
    apply bool_decide_eq_false. congruence. }
  simpl. rewrite Hse, Hs. simpl.
  rewrite node_sublist_loop_active by assumption.
  simpl. rewrite He, Hes. simpl.
  rewrite node_sublist_loop_inactive by assumption.
  now rewrite app_nil_r.
Qed.

Lemma node_sublist_between_markers_witness :
  node_sublist
    [name_node "c"; FNode If_Then_Stmt None "IF (a) THEN" [];
     name_node "x"; FNode If_Then_Stmt None "IF (b) THEN" []; FStr "y";
     FNode End_If_Stmt None "END IF" []; name_node "z"]
    If_Then_Stmt End_If_Stmt
  = [name_node "x"; FNode If_Then_Stmt None "IF (b) THEN" []; FStr "y"].
Proof.
  apply (node_sublist_between_markers
           [name_node "c"] (FNode If_Then_Stmt None "IF (a) THEN" [])
           [name_node "x"; FNode If_Then_Stmt None "IF (b) THEN" []; FStr "y"]
           (FNode End_If_Stmt None "END IF" []) [name_node "z"]
           If_Then_Stmt End_If_Stmt).
  - discriminate.
  - repeat constructor.
  - reflexivity.
  - repeat constructor.
  - reflexivity.
  - repeat constructor.
Defined.

Lemma node_sublist_loop_sublist active l s e :
  sublist (node_sublist_loop active l s e) l.
Proof.
  revert active. induction l as [|x l IH]; intros active; simpl.
  - constructor.
  - destruct (if isinstance x e then false else active).
    + simpl. apply sublist_skip. apply IH.
    + simpl. apply sublist_cons. apply IH.
Qed.

Lemma node_sublist_loop_no_end active l s e :
  Forall (fun n => isinstance n e = false) (node_sublist_loop active l s e).
Proof.
  revert active. induction l as [|x l IH]; intros active; simpl.
  - constructor.
  - destruct (isinstance x e) eqn:E; simpl.
    + apply IH.
    + destruct active; simpl; [constructor; [exact E|]|]; apply IH.
Qed.

(** Whatever the list, [node_sublist] keeps the order of the nodes it
    returns and never returns a node of the end class.  Without a start
    marker it returns nothing; after a start marker that no end marker
    follows it returns every node up to the end of the list. *)
Theorem node_sublist_order_and_markers :
  forall l starttype endtype,
    sublist (node_sublist l starttype endtype) l /\
    Forall (fun n => isinstance n endtype = false)
           (node_sublist l starttype endtype) /\
    (Forall (fun n => isinstance n starttype = false) l ->
     node_sublist l starttype endtype = []) /\
    (forall pre start body,
        l = (pre ++ start :: body)%list ->
        Forall (fun n => isinstance n starttype = false) pre ->
        isinstance start starttype = true ->
        isinstance start endtype = false ->
        Forall (fun n => isinstance n endtype = false) body ->
        node_sublist l starttype endtype = body).
Proof.
  intros l s e. split; [|split; [|split]].
  - apply node_sublist_loop_sublist.
  - apply node_sublist_loop_no_end.
  - apply node_sublist_loop_inactive.
  - intros pre start body -> Hpre Hs Hse Hbody. unfold node_sublist.
    rewrite node_sublist_loop_skip by assumption.
    simpl. rewrite Hse, Hs. simpl.
    rewrite <- (app_nil_r body) at 1.
    rewrite node_sublist_loop_active by assumption.
    simpl. now rewrite app_nil_r.
Qed.

Lemma node_sublist_order_and_markers_witness :
  node_sublist [name_node "a"; name_node "b"] If_Then_Stmt End_If_Stmt = [] /\
  node_sublist
    [name_node "a"; FNode If_Then_Stmt None "IF (c) THEN" []; name_node "b";
     FNode Continue_Stmt None "CONTINUE" []]
    If_Then_Stmt End_If_Stmt
  = [name_node "b"; FNode Continue_Stmt None "CONTINUE" []].
Proof.
  split.
  - apply (node_sublist_order_and_markers
             [name_node "a"; name_node "b"] If_Then_Stmt End_If_Stmt).
    repeat constructor.
  - apply (proj2 (proj2 (proj2 (node_sublist_order_and_markers
             [name_node "a"; FNode If_Then_Stmt None "IF (c) THEN" [];
              name_node "b"; FNode Continue_Stmt None "CONTINUE" []]
             If_Then_Stmt End_If_Stmt)))
             [name_node "a"] (FNode If_Then_Stmt None "IF (c) THEN" [])
             [name_node "b"; FNode Continue_Stmt None "CONTINUE" []]);
      try reflexivity; repeat constructor.
Defined.

(** ** The last child of a class *)

Lemma find_app_none {A} (f : A -> bool) l1 l2 :
  List.find f l1 = None -> List.find f (l1 ++ l2) = List.find f l2.
Proof.
  induction l1 as [|x l1 IH]; simpl; [reflexivity|].
  destruct (f x); [discriminate|exact IH].
Qed.

Lemma find_none_Forall {A} (f : A -> bool) l :
  List.find f l = None <-> Forall (fun x => f x = false) l.
Proof.
  induction l as [|x l IH]; simpl.
  - split; [constructor|reflexivity].
  - destruct (f x) eqn:E.
    + split; [discriminate|]. intros H. inversion H; congruence.
    + rewrite IH. split; [now constructor|]. intros H. now inversion H.
Qed.

Lemma find_some_split {A} (f : A -> bool) l x :
  List.find f l = Some x ->
  exists l1 l2, l = (l1 ++ x :: l2)%list /\ f x = true /\
                Forall (fun y => f y = false) l1.
Proof.
  induction l as [|y l IH]; simpl; [discriminate|].
  destruct (f y) eqn:E.
  - intros [= ->]. exists [], l. repeat split; [exact E|constructor].
  - intros H. destruct (IH H) as (l1 & l2 & -> & Hx & Hl1).
    exists (y :: l1), l2. repeat split; [exact Hx|now constructor].
Qed.

(** [rget_child] returns [None] exactly when no child is of the class;
    otherwise it returns a child of the class after which no other child
    of the class follows. *)
Theorem rget_child_is_last_of_class :
  forall cls item text ch node_type r,
    rget_child (FNode cls item text ch) node_type = Ok r ->
    (r = FNone /\ Forall (fun c => isinstance c node_type = false) ch) \/
    (exists before after,
        ch = (before ++ r :: after)%list /\
        isinstance r node_type = true /\
        Forall (fun c => isinstance c node_type = false) after).
Proof.
  intros cls item text ch c r. unfold rget_child. simpl.
  destruct (List.find _ (rev ch)) as [x|] eqn:E; intros [= <-].
  - right. apply find_some_split in E.
    destruct E as (l1 & l2 & Hrev & Hx & Hl1).
    exists (rev l2), (rev l1). repeat split.
    + rewrite <- (rev_involutive ch), Hrev, rev_app_distr. simpl.
      now rewrite <- app_assoc.
    + exact Hx.
    + apply Forall_rev. exact Hl1.
  - left. split; [reflexivity|].
    apply find_none_Forall in E. apply Forall_rev in E.
    now rewrite rev_involutive in E.
Qed.

Lemma rget_child_is_last_of_class_witness :
  (FNode Else_If_Stmt None "ELSE IF (b) THEN" [] = FNone /\
   Forall (fun c => isinstance c Else_If_Stmt = false)
     [FNode Else_If_Stmt None "ELSE IF (a) THEN" []; name_node "x";
      FNode Else_If_Stmt None "ELSE IF (b) THEN" []; name_node "y"]) \/
  (exists before after,
      [FNode Else_If_Stmt None "ELSE IF (a) THEN" []; name_node "x";
       FNode Else_If_Stmt None "ELSE IF (b) THEN" []; name_node "y"]
      = (before ++ FNode Else_If_Stmt None "ELSE IF (b) THEN" [] :: after)%list /\
      isinstance (FNode Else_If_Stmt None "ELSE IF (b) THEN" []) Else_If_Stmt
      = true /\
      Forall (fun c => isinstance c Else_If_Stmt = false) after).
Proof.
  apply (rget_child_is_last_of_class (Unhandled "Block" true) None ""
           [FNode Else_If_Stmt None "ELSE IF (a) THEN" []; name_node "x";
            FNode Else_If_Stmt None "ELSE IF (b) THEN" []; name_node "y"]
           Else_If_Stmt (FNode Else_If_Stmt None "ELSE IF (b) THEN" [])).
  reflexivity.
Defined.

(** ** The operators of [create_operation] *)

Lemma comparison_of_spelling op sym l r rest source :
  In (lower op, sym) comparison_spellings ->
  create_operation op (l :: r :: rest) source
  = Ok (Comparison l sym r source).
Proof.
  intros H. simpl in H.
  repeat (destruct H as [H|H]; [
    injection H as Hop <-; symmetry in Hop; unfold create_operation;
    rewrite (lower_eq_not op _ "*" Hop), (lower_eq_not op _ "/" Hop),
      (lower_eq_not op _ "+" Hop), (lower_eq_not op _ "-" Hop),
      (lower_eq_not op _ "**" Hop) by (vm_compute; discriminate);
    rewrite Hop; reflexivity |]).
  contradiction.
Qed.

(** Each relational operator lowers to the same comparison whether it is
    written as a symbol or as a dotted keyword in any letter case; the
    comparison records the symbol, [/=] and [.ne.] as [!=]; it takes the
    first two operands and ignores further ones. *)
Theorem create_operation_comparison_spellings :
  forall op sym l r rest source,
    In (lower op, sym) comparison_spellings ->
    create_operation op (l :: r :: rest) source
    = Ok (Comparison l sym r source).
Proof.
  intros op sym l r rest source H.
  now apply comparison_of_spelling.
Qed.

Lemma create_operation_comparison_spellings_witness :
  create_operation ".Ne." [PyInt 1; PyInt 2; PyInt 3] None
  = Ok (Comparison (PyInt 1) "!=" (PyInt 2) None).
Proof.
  apply (create_operation_comparison_spellings
           ".Ne." "!=" (PyInt 1) (PyInt 2) [PyInt 3] None).
  simpl. tauto.
Defined.

Ltac split_orb_false :=
  repeat match goal with
         | H : (_ || _)%bool = false |- _ =>
             apply orb_false_elim in H; destruct H
         end.

(** [create_operation] fails with RuntimeError on every operator it does
    not know, whatever the operands; on an operator it knows it succeeds as
    soon as there are two operands; and it raises no exception other than
    RuntimeError and IndexError. *)
Theorem create_operation_failures :
  forall op exprs source,
    (known_operator op = false ->
     create_operation op exprs source = Err RuntimeError) /\
    (known_operator op = true -> (2 <= length exprs)%nat ->
     exists v, create_operation op exprs source = Ok v) /\
    (forall e, create_operation op exprs source = Err e ->
               e = RuntimeError \/ e = IndexError).
Proof.
  intros op exprs source. split; [|split].
  - intros H. unfold known_operator, str_in in H. simpl in H.
    split_orb_false. unfold create_operation, str_in. simpl.
    repeat match goal with
           | E : String.eqb _ _ = false |- _ => rewrite E; clear E
           end.
    reflexivity.
  - intros Hk Hlen.
    destruct exprs as [|a [|b rest]]; simpl in Hlen; try lia.
    unfold create_operation, str_in; simpl.
    repeat match goal with
           | |- context [if ?c then _ else _] =>
               destruct c eqn:?; [simpl; eauto; fail|]
           end.
    exfalso. unfold known_operator, str_in in Hk. simpl in Hk.
    split_orb_false.
    repeat match goal with
           | E : String.eqb _ _ = false |- _ => rewrite E in Hk; clear E
           end.
    discriminate Hk.
  - intros e.
    destruct exprs as [|a [|b rest]]; unfold create_operation, str_in; simpl;
      repeat match goal with
             | |- context [if ?c then _ else _] =>
                 destruct c; [intros [=]; subst; auto; fail|]
             end;
      intros [=]; subst; auto.
Qed.

Lemma create_operation_failures_witness :
  create_operation ".xor." [PyInt 1; PyInt 2] None = Err RuntimeError /\
  exists v, create_operation ".GE." [PyInt 1; PyInt 2] None = Ok v.
Proof.
  split.
  - apply (proj1 (create_operation_failures ".xor." [PyInt 1; PyInt 2] None)).
    reflexivity.
  - apply (proj1 (proj2 (create_operation_failures ".GE." [PyInt 1; PyInt 2]
                           None))).
    + reflexivity.
    + simpl. lia.
Defined.

(** ** Parentheses *)

Lemma node_kwargs_idem self kw :
  node_kwargs self None (node_kwargs self None kw) = node_kwargs self None kw.
Proof.
  unfold node_kwargs. simpl. f_equal.
  destruct (kw_scope kw); [reflexivity|]. now destruct (self_scope self).
Qed.

Lemma visit_node_no_item self rescope dims d cls text ch kw st :
  visit self rescope dims (S d) (FNode cls None text ch) kw st
  = lookup_method self rescope dims (visit self rescope dims d)
      (FNode cls None text ch) (node_kwargs self None kw) st.
Proof. reflexivity. Qed.

Lemma lower_subtraction self rescope dims n A B inner kw st a b st1 st2 :
  visit self rescope dims n A (node_kwargs self None kw) st = (Ok a, st1) ->
  visit self rescope dims n B (node_kwargs self None kw) st1 = (Ok b, st2) ->
  visit self rescope dims (S n)
    (FNode Level_2_Expr None inner [A; FStr "-"; B]) kw st
  = (Ok (Sum [a; Product [PyInt (-1); b] None]
           (option_map (fun s => clone_with_string s inner) (kw_source kw))),
     st2).
Proof.
  intros HA HB. rewrite visit_node_no_item. cbn [lookup_method].
  unfold visit_Level_2_Expr, op_source, bind, lift. simpl.
  destruct (kw_source kw); simpl; rewrite HA, HB; reflexivity.
Qed.

(** The whole visitor on a parenthesised subtraction [(A - B)]: once the
    operands lower to [a] and [b], the result is the parenthesised sum of
    [a] and the product of -1 and [b]; the parentheses of the source are
    kept on the sum, with the text of the parenthesised expression as its
    source string. *)
Theorem parenthesised_subtraction_is_recorded :
  forall self rescope dims n A B text inner kw st a b st1 st2,
    visit self rescope dims n A (node_kwargs self None kw) st = (Ok a, st1) ->
    visit self rescope dims n B (node_kwargs self None kw) st1 = (Ok b, st2) ->
    visit self rescope dims (S (S n))
      (FNode Parenthesis None text
         [FStr "("; FNode Level_2_Expr None inner [A; FStr "-"; B]; FStr ")"])
      kw st
    = (Ok (ParenthesisedAdd [a; Product [PyInt (-1); b] None]
             (option_map (fun s => clone_with_string s text) (kw_source kw))),
       st2).
Proof.
  intros self rescope dims n A B text inner kw st a b st1 st2 HA HB.
  rewrite visit_node_no_item. cbn [lookup_method]. unfold visit_Parenthesis.
  cbn [child node_children res_bind nth_error]. rewrite lift_ok_bind.
  rewrite <- (node_kwargs_idem self kw) in HA, HB.
  rewrite (bind_ok _ _ _ _ _ (lower_subtraction _ _ _ _ _ _ _ _ _ _ _ _ _
                                 HA HB)).
  unfold op_source, node_kwargs, bind, lift, ret. simpl.
  destruct (kw_source kw); reflexivity.
Qed.

Lemma parenthesised_subtraction_is_recorded_witness :
  visit plain_visitor no_rescope no_dims 3
    (FNode Parenthesis None "(a - b)"
       [FStr "("; FNode Level_2_Expr None "a - b"
                    [name_node "a"; FStr "-"; name_node "b"]; FStr ")"])
    no_kwargs strict_state
  = (Ok (ParenthesisedAdd
           [SymVariable "a" PyNone PyNone None None;
            Product [PyInt (-1); SymVariable "b" PyNone PyNone None None] None]
           None),
     strict_state).
Proof.
  apply (parenthesised_subtraction_is_recorded plain_visitor no_rescope
           no_dims 1 (name_node "a") (name_node "b") "(a - b)" "a - b"
           no_kwargs strict_state
           (SymVariable "a" PyNone PyNone None None)
           (SymVariable "b" PyNone PyNone None None)
           strict_state strict_state); reflexivity.
Defined.

(** ** USE statements outside the implemented forms *)

(** A USE statement with a rename list never yields an import: in strict
    mode the handler logs an error and raises NotImplementedError; in
    lenient mode it logs a warning and then fails with UnboundLocalError,
    because no value was bound to the symbols of the import.  No scope is
    touched. *)
Theorem use_rename_list_never_returns :
  forall self visit item text c1 mcls mitem mname mch c4 kw st,
    visit_Use_Stmt self visit
      (use_stmt item text c1 (FNode mcls mitem mname mch) (FStr ",") c4)
      kw st
    = (Err (if strict_mode st then NotImplementedError
            else UnboundLocalError),
       logged (if strict_mode st then ERROR else WARNING)
              "rename lists not implemented for USE statements" st).
Proof.
  intros self visit item text c1 mcls mitem mname mch c4 kw st.
  unfold visit_Use_Stmt, use_stmt, warn_or_fail, error, warning, emit,
    logged, bind, lift, ret, raise, get_state.
  simpl. destruct (strict_mode st) eqn:E; simpl; rewrite ?E; reflexivity.
Qed.

(** A USE statement without ONLY list whose module is not in the
    definitions table binds no symbol: when it returns, the import records
    the module name as written and no symbols, and the scope is not even
    looked at.  Without a module nature the state stays as it is (no
    symbol, no message).  With a module nature, lenient mode only adds the
    warning about the module nature to the log, and strict mode logs it as
    an error and raises NotImplementedError. *)
Theorem use_all_of_unknown_module_binds_nothing :
  forall self visit item text nature c1 mcls mitem mname mch c4 kw st,
    definitions self !! lower mname = None ->
    visit_Use_Stmt self visit
      (FNode Use_Stmt item text
             [nature; c1; FNode mcls mitem mname mch; FStr ""; c4])
      kw st
    = if is_none nature
      then (Ok (Import mname PyNone (kw_label kw) (kw_source kw)), st)
      else if strict_mode st
      then (Err NotImplementedError, logged ERROR module_nature_msg st)
      else (Ok (Import mname PyNone (kw_label kw) (kw_source kw)),
            logged WARNING module_nature_msg st).
Proof.
  intros self visit item text nature c1 mcls mitem mname mch c4 kw st H.
  assert (Hplain : forall s,
    visit_Use_Stmt self visit
      (use_stmt item text c1 (FNode mcls mitem mname mch) (FStr "") c4) kw s
    = (Ok (Import mname PyNone (kw_label kw) (kw_source kw)), s)).
  { intros s. unfold visit_Use_Stmt, use_stmt, bind, lift, ret. simpl.
    rewrite H. reflexivity. }
  destruct (is_none nature) eqn:Hn.
  - destruct nature; try discriminate Hn. apply Hplain.
  - rewrite use_stmt_module_nature by exact Hn.
    destruct (strict_mode st); [reflexivity | apply Hplain].
Qed.

Lemma use_all_of_unknown_module_binds_nothing_witness :
  visit_Use_Stmt visitor_without_m
    (visit visitor_without_m no_rescope no_dims 2) use_all_example
    no_kwargs lenient_state
  = (Ok (Import "M" PyNone None None), lenient_state)
  /\ visit_Use_Stmt visitor_without_m
       (visit visitor_without_m no_rescope no_dims 2)
       use_intrinsic_all_example no_kwargs lenient_state
     = (Ok (Import "M" PyNone None None),
        logged WARNING module_nature_msg lenient_state)
  /\ visit_Use_Stmt visitor_without_m
       (visit visitor_without_m no_rescope no_dims 2)
       use_intrinsic_all_example no_kwargs strict_state
     = (Err NotImplementedError, logged ERROR module_nature_msg strict_state).
Proof.
  split; [|split].
  - apply (use_all_of_unknown_module_binds_nothing visitor_without_m
             (visit visitor_without_m no_rescope no_dims 2) (item_at 1 1)
             "USE M" FNone FNone Module_Name None "M" [] FNone no_kwargs
             lenient_state).
    reflexivity.
  - apply (use_all_of_unknown_module_binds_nothing visitor_without_m
             (visit visitor_without_m no_rescope no_dims 2) (item_at 1 1)
             "USE, INTRINSIC :: M" (FStr "INTRINSIC") (FStr "::") Module_Name
             None "M" [] FNone no_kwargs lenient_state).
    reflexivity.
  - apply (use_all_of_unknown_module_binds_nothing visitor_without_m
             (visit visitor_without_m no_rescope no_dims 2) (item_at 1 1)
             "USE, INTRINSIC :: M" (FStr "INTRINSIC") (FStr "::") Module_Name
             None "M" [] FNone no_kwargs strict_state).
    reflexivity.
Defined.

(** ** Constructs without their start marker *)

Lemma index_from_FNone_missing ch k :
  Forall (fun c => is_none c = false) ch ->
  index_from FNone ch k = Err ValueError.
Proof.
  intros H. revert k. induction H as [|x l Hx _ IH]; intros k; simpl;
    [reflexivity|].
  destruct x; try discriminate; simpl; apply IH.
Qed.

Lemma start_marker_missing ch c :
  Forall (fun x => is_none x = false) ch ->
  Forall (fun x => isinstance x c = false) ch ->
  py_index ch (get_child ch c) = Err ValueError.
Proof.
  intros Hn Hc. unfold get_child.
  rewrite (proj2 (find_none_Forall _ _) Hc).
  now apply index_from_FNone_missing.
Qed.

(** A marker-bounded construct none of whose children is its start marker
    (and none of whose children is [None]) is not lowered at all: each of
    the four handlers raises ValueError when it looks for the position of
    the marker, before it visits any child or touches the state. *)
Theorem block_without_start_marker_raises_ValueError :
  forall self visit rescope dims cls item text ch kw st,
    Forall (fun c => is_none c = false) ch ->
    (Forall (fun c => isinstance c If_Then_Stmt = false) ch ->
     visit_If_Construct self visit (FNode cls item text ch) kw st
     = (Err ValueError, st)) /\
    (Forall (fun c => isinstance c Associate_Stmt = false) ch ->
     visit_Associate_Construct self visit rescope dims
       (FNode cls item text ch) kw st
     = (Err ValueError, st)) /\
    (Forall (fun c => isinstance c Interface_Stmt = false) ch ->
     visit_Interface_Block self visit (FNode cls item text ch) kw st
     = (Err ValueError, st)) /\
    (Forall (fun c => isinstance c Select_Case_Stmt = false) ch ->
     visit_Case_Construct self visit (FNode cls item text ch) kw st
     = (Err ValueError, st)).
Proof.
  intros self visit rescope dims cls item text ch kw st Hn.
  repeat split; intros Hc.
  - unfold visit_If_Construct, lower_If_Construct, bind, lift. simpl.
    now rewrite (start_marker_missing ch _ Hn Hc).
  - unfold visit_Associate_Construct, lower_Associate_Construct, bind, lift.
    simpl. now rewrite (start_marker_missing ch _ Hn Hc).
  - unfold visit_Interface_Block, lower_Interface_Block, bind, lift. simpl.
    now rewrite (start_marker_missing ch _ Hn Hc).
  - unfold visit_Case_Construct, lower_Case_Construct, bind, lift. simpl.
    now rewrite (start_marker_missing ch _ Hn Hc).
Qed.

Lemma block_without_start_marker_raises_ValueError_witness :
  visit_If_Construct plain_visitor
    (visit plain_visitor no_rescope no_dims 2)
    (FNode If_Construct None ""
       [name_node "x"; FNode End_If_Stmt (item_at 2 2) "END IF" [FNone]])
    no_kwargs strict_state
  = (Err ValueError, strict_state).
Proof.
  apply (block_without_start_marker_raises_ValueError plain_visitor
           (visit plain_visitor no_rescope no_dims 2) no_rescope no_dims
           If_Construct None ""
           [name_node "x"; FNode End_If_Stmt (item_at 2 2) "END IF" [FNone]]
           no_kwargs strict_state);
    repeat constructor.
Defined.

(** ** The values and bodies of a CASE construct *)




Lemma mapM_Forall {A B} (f : A -> M B) (P : B -> Prop) l st r st' :
  (forall x s y s', f x s = (Ok y, s') -> P y) ->
  mapM f l st = (Ok r, st') -> Forall P r.
Proof.
  intros Hf. revert st r st'.
  induction l as [|x l IH]; intros st r st' H; simpl in H.
  - apply ret_inv_ok in H. destruct H as [-> _]. constructor.
  - apply bind_inv_ok in H. destruct H as (y & s1 & Hy & H).
    apply bind_inv_ok in H. destruct H as (ys & s2 & Hys & H).
    apply ret_inv_ok in H. destruct H as [-> _].
    constructor; [exact (Hf x st y s1 Hy) | exact (IH s1 ys s2 Hys)].
Qed.







Lemma If_Construct_block_extraction_witness :
  let V := visit if_visitor no_rescope no_dims 4 in
  let branches := if_first_branch :: if_more_branches in
  visit_If_Construct if_visitor V if_example no_kwargs strict_state
  = (pre' <- visit_all V [] no_kwargs ;;
     conditions <- visit_all V (map fst branches) no_kwargs ;;
     bodies <- mapM (fun b => visit_all V b no_kwargs) (map snd branches) ;;
     else_body <- visit_all V (snd if_else_part) no_kwargs ;;
     ret (PyTuple
            (pre' ++
             [with_name None
                (nested_conditional
                   (zip4 conditions bodies
                      (map branch_label (map fst branches))
                      (map (branch_source if_visitor
                              (end_item_of if_end_marker))
                           (map fst branches)))
                   else_body)]))) strict_state.
Proof.
  apply (If_Construct_block_extraction if_visitor
           (visit if_visitor no_rescope no_dims 4) []
           (fst if_first_branch) (snd if_first_branch) if_more_branches
           (Some if_else_part) if_end_marker).
  constructor; simpl; repeat constructor.
Defined.

(** ** Qualified names *)

Lemma append_cons (x : ascii) (a b : string) :
  String x a ++ b = String x (a ++ b).
Proof. reflexivity. Qed.

Lemma string_app_assoc (a b c : string) : (a ++ b) ++ c = a ++ (b ++ c).
Proof.
  induction a as [|x a IH]; [reflexivity|].
  rewrite !append_cons. now rewrite IH.
Qed.

Lemma concat_percent_merge (a b : string) (r : list string) :
  String.concat "%" ((a ++ "%" ++ b) :: r) = String.concat "%" (a :: b :: r).
Proof.
  destruct r as [|x r]; [reflexivity|].
  change (String.concat "%" ((a ++ "%" ++ b) :: x :: r))
    with ((a ++ "%" ++ b) ++ "%" ++ String.concat "%" (x :: r)).
  change (String.concat "%" (a :: b :: x :: r))
    with (a ++ "%" ++ (b ++ "%" ++ String.concat "%" (x :: r))).
  now rewrite string_app_assoc, (string_app_assoc "%" b).
Qed.

Lemma data_ref_parts_run visit cs kw :
  forall v0 st vs st',
    mapM (fun c => visit c kw) cs st = (Ok vs, st') ->
    is_variable v0 = true ->
    Forall (fun v => is_variable v = true) vs ->
    data_ref_parts visit cs v0 kw st = (Ok (fold_left qualified vs v0), st').
Proof.
  induction cs as [|c cs IH]; intros v0 st vs st' H Hv0 Hvs; simpl in H.
  - apply ret_inv_ok in H. destruct H as [-> ->]. reflexivity.
  - apply bind_inv_ok in H. destruct H as (y & s1 & Hy & H).
    apply bind_inv_ok in H. destruct H as (ys & s2 & Hys & H).
    apply ret_inv_ok in H. destruct H as [-> ->].
    inversion Hvs as [|? ? Hy' Hys']; subst.
    cbn [data_ref_parts]. rewrite (bind_ok _ _ _ _ _ Hy).
    destruct v0; try discriminate. destruct y; try discriminate.
    cbn [var_name clone_name_parent]. rewrite !lift_ok_bind.
    cbn [fold_left]. apply IH; [exact Hys | reflexivity | exact Hys'].
Qed.

Lemma qualified_chain_name vs :
  forall v0,
    is_variable v0 = true ->
    Forall (fun v => is_variable v = true) vs ->
    var_name (fold_left qualified vs v0)
    = Ok (String.concat "%" (map name_or_empty (v0 :: vs))).
Proof.
  induction vs as [|y ys IH]; intros v0 Hv0 Hvs.
  - destruct v0; try discriminate. reflexivity.
  - inversion Hvs as [|? ? Hy Hys]; subst.
    destruct v0; try discriminate. destruct y; try discriminate.
    cbn [fold_left]. rewrite IH by (assumption || reflexivity).
    f_equal. cbn [map qualified]. unfold name_or_empty at 1 3 4.
    cbn [var_name]. apply concat_percent_merge.
Qed.

(** A qualified reference [p0 % p1 % ... % pk] whose parts lower to
    variables is lowered to one variable: the last part, renamed to the
    names of all parts joined by [%], with the variable built for the parts
    before it as its parent (and so on up the chain).  The parts are
    visited once each, from left to right. *)
Theorem data_ref_is_qualified_name :
  forall visit cls item text c0 cs kw st v0 vs st',
    visit_all visit (c0 :: cs) kw st = (Ok (v0 :: vs), st') ->
    Forall (fun v => is_variable v = true) (v0 :: vs) ->
    visit_Data_Ref visit (FNode cls item text (c0 :: cs)) kw st
    = (Ok (fold_left qualified vs v0), st') /\
    var_name (fold_left qualified vs v0)
    = Ok (String.concat "%" (map name_or_empty (v0 :: vs))).
Proof.
  intros visit cls item text c0 cs kw st v0 vs st' H Hv.
  inversion Hv as [|? ? Hv0 Hvs]; subst. split.
  - unfold visit_all in H. simpl in H.
    apply bind_inv_ok in H. destruct H as (y & s1 & Hy & H).
    apply bind_inv_ok in H. destruct H as (ys & s2 & Hys & H).
    apply ret_inv_ok in H. destruct H as [[= -> ->] ->].
    unfold visit_Data_Ref. cbn [child node_children res_bind nth_error].
    rewrite lift_ok_bind, (bind_ok _ _ _ _ _ Hy), lift_ok_bind.
    cbn [skipn]. now apply data_ref_parts_run.
  - now apply qualified_chain_name.
Qed.

Lemma data_ref_is_qualified_name_witness :
  visit_Data_Ref (visit plain_visitor no_rescope no_dims 1)
    (FNode (Unhandled "Data_Ref" false) None "a%b%c"
       [name_node "a"; name_node "b"; name_node "c"])
    no_kwargs strict_state
  = (Ok (fold_left qualified [var_unscoped "b"; var_unscoped "c"]
           (var_unscoped "a")), strict_state) /\
  var_name (fold_left qualified [var_unscoped "b"; var_unscoped "c"]
              (var_unscoped "a"))
  = Ok (String.concat "%"
          (map name_or_empty
             [var_unscoped "a"; var_unscoped "b"; var_unscoped "c"])).
Proof.
  apply (data_ref_is_qualified_name
           (visit plain_visitor no_rescope no_dims 1)
           (Unhandled "Data_Ref" false) None "a%b%c"
           (name_node "a") [name_node "b"; name_node "c"]
           no_kwargs strict_state (var_unscoped "a")
           [var_unscoped "b"; var_unscoped "c"] strict_state).
  - reflexivity.
  - repeat constructor.
Defined.

(** ** The Maxeler text of lowered subtractions and comparisons *)



(** Equality and inequality tests as the front end lowers them, in any
    spelling ([==], [.eq.], [/=], [.ne.], any letter case), print in the
    Maxeler back end as a method call on the left operand, [l.eq(r)] and
    [l.neq(r)]: the left operand at the precedence of a call, the right one
    without enclosing precedence, the whole in parentheses where the
    enclosing precedence is above that of a comparison.  The other
    relational operators are left to the base mapper. *)
Theorem maxj_prints_equality_as_method_call :
  forall rec super op l r source prec,
    (forall tl tr,
        In (lower op) ["=="; ".eq."] ->
        rec l PREC_CALL = Ok tl -> rec r PREC_NONE = Ok tr ->
        (let? e := create_operation op [l; r] source in
         map_comparison rec super e prec)
        = Ok (parenthesize_if_needed (tl ++ ".eq(" ++ tr ++ ")")
                prec PREC_COMPARISON)) /\
    (forall tl tr,
        In (lower op) ["/="; ".ne."] ->
        rec l PREC_CALL = Ok tl -> rec r PREC_NONE = Ok tr ->
        (let? e := create_operation op [l; r] source in
         map_comparison rec super e prec)
        = Ok (parenthesize_if_needed (tl ++ ".neq(" ++ tr ++ ")")
                prec PREC_COMPARISON)) /\
    (forall sym,
        In (lower op, sym) comparison_spellings ->
        sym <> "==" -> sym <> "!=" ->
        (let? e := create_operation op [l; r] source in
         map_comparison rec super e prec)
        = super (Comparison l sym r source) prec).
Proof.
  intros rec super op l r source prec. split; [|split].
  - intros tl tr Hop Hl Hr.
    rewrite (comparison_of_spelling op "==" l r [] source).
    + cbn [res_bind map_comparison str_in existsb String.eqb Ascii.eqb
           Bool.eqb orb]. rewrite Hl. cbn [res_bind]. rewrite Hr.
      reflexivity.
    + simpl in Hop. simpl. destruct Hop as [<-|[<-|[]]]; tauto.
  - intros tl tr Hop Hl Hr.
    rewrite (comparison_of_spelling op "!=" l r [] source).
    + cbn [res_bind map_comparison str_in existsb String.eqb Ascii.eqb
           Bool.eqb orb]. rewrite Hl. cbn [res_bind]. rewrite Hr.
      reflexivity.
    + simpl in Hop. simpl. destruct Hop as [<-|[<-|[]]]; tauto.
  - intros sym Hop H1 H2.
    rewrite (comparison_of_spelling op sym l r [] source Hop).
    cbn [res_bind map_comparison str_in existsb].
    apply String.eqb_neq in H1, H2. rewrite H1, H2. reflexivity.
Qed.

Lemma maxj_prints_equality_as_method_call_witness :
  (let? e := create_operation ".EQ." [var_unscoped "a"; var_unscoped "b"]
               None in
   map_comparison print_name (fun _ _ => Err NotImplementedError) e
     PREC_NONE) = Ok "a.eq(b)" /\
  (let? e := create_operation "/=" [var_unscoped "a"; var_unscoped "b"]
               None in
   map_comparison print_name (fun _ _ => Err NotImplementedError) e
     PREC_SUM) = Ok "(a.neq(b))" /\
  (let? e := create_operation ".le." [var_unscoped "a"; var_unscoped "b"]
               None in
   map_comparison print_name (fun _ _ => Ok "a <= b") e PREC_NONE)
  = Ok "a <= b".
Proof.
  split; [|split].
  - apply (proj1 (maxj_prints_equality_as_method_call print_name
                    (fun _ _ => Err NotImplementedError) ".EQ."
                    (var_unscoped "a") (var_unscoped "b") None PREC_NONE)
                 "a" "b"); [simpl; tauto | reflexivity | reflexivity].
  - apply (proj1 (proj2 (maxj_prints_equality_as_method_call print_name
                    (fun _ _ => Err NotImplementedError) "/="
                    (var_unscoped "a") (var_unscoped "b") None PREC_SUM))
                 "a" "b"); [simpl; tauto | reflexivity | reflexivity].
  - apply (proj2 (proj2 (maxj_prints_equality_as_method_call print_name
                    (fun _ _ => Ok "a <= b") ".le."
                    (var_unscoped "a") (var_unscoped "b") None PREC_NONE))
                 "<="); [simpl; tauto | discriminate | discriminate].
Defined.

(** ** The Maxeler type of a streaming vector *)

Lemma length_removelast_pred {A} (l : list A) :
  length (removelast l) = pred (length l).
Proof.
  rewrite removelast_firstn_len, length_firstn. lia.
Qed.

Lemma times_snoc n s : times n s ++ s = s ++ times n s.
Proof.
  induction n as [|n IH]; simpl.
  - induction s as [|c s IHs]; [reflexivity|].
    rewrite append_cons. now rewrite <- IHs.
  - now rewrite string_app_assoc, IH.
Qed.

(** For a streaming type (dfevar) that is no derived type, the Maxeler
    type is [DFEVar] wrapped in one [DFEVector<...>] per dimension of its
    shape: the nesting depth is the rank.  The recursion over the shape
    needs one level more than the rank. *)
Theorem dfevar_type_nests_one_vector_per_dimension :
  forall str_kind type_name dims o depth,
    dfevar o = true ->
    (forall n, dtype o <> DerivedType n) ->
    shape o = PyTuple dims ->
    (length dims < depth)%nat ->
    MaxjCodegen_visit_SymbolType str_kind type_name depth o
    = Ok (times (length dims) "DFEVector<" ++ "DFEVar" ++
          times (length dims) ">").
Proof.
  intros str_kind type_name dims.
  remember (length dims) as n eqn:Hn. revert dims Hn.
  induction n as [|n IH]; intros dims Hn o depth Hdfe Hty Hshape Hdepth;
    (destruct depth as [|d]; [lia|]); cbn [MaxjCodegen_visit_SymbolType].
  - destruct dims; [|discriminate].
    rewrite Hdfe, Hshape. destruct (dtype o) eqn:E; try reflexivity.
    now destruct (Hty name).
  - destruct dims as [|x dims]; [discriminate|].
    rewrite Hdfe, Hshape. cbn [truthy shape_but_last res_bind].
    rewrite (IH (removelast (x :: dims))).
    + destruct (dtype o) eqn:E; try (now destruct (Hty name));
        cbn [res_bind times]; f_equal;
        rewrite !string_app_assoc, times_snoc; reflexivity.
    + rewrite length_removelast_pred, <- Hn. reflexivity.
    + exact Hdfe.
    + exact Hty.
    + reflexivity.
    + lia.
Qed.

Lemma dfevar_type_nests_one_vector_per_dimension_witness :
  MaxjCodegen_visit_SymbolType (fun _ => "None") (fun _ => Err AttributeError)
    3 (real_x true (PyTuple [var_in_scope0 "n"; var_in_scope0 "m"]))
  = Ok "DFEVector<DFEVector<DFEVar>>".
Proof.
  apply (dfevar_type_nests_one_vector_per_dimension
           (fun _ => "None") (fun _ => Err AttributeError)
           [var_in_scope0 "n"; var_in_scope0 "m"]
           (real_x true (PyTuple [var_in_scope0 "n"; var_in_scope0 "m"]))
           3%nat); try reflexivity.
  - discriminate.
  - simpl. lia.
Defined.

(** ** The expression printer only appends *)

Lemma printed_parts_ind (P : value -> Prop) :
  (forall v, printed_parts P v -> P v) -> forall v, P v.
Proof.
  intros H. fix IH 1. intros v. apply H. destruct v; simpl; try exact I.
  - induction items as [|x l IHl]; constructor; [apply IH | exact IHl].
  - apply IH.
  - destruct v2; try exact I.
    induction items as [|x l IHl]; constructor; [apply IH | exact IHl].
  - split; apply IH.
  - induction operands as [|x l IHl]; constructor; [apply IH | exact IHl].
  - apply IH.
  - split; apply IH.
Qed.

Lemma append_nil_r_string (s : string) : s ++ "" = s.
Proof.
  induction s as [|c s IH]; [reflexivity|].
  rewrite append_cons. now rewrite IH.
Qed.

Lemma append_after_line self line txt width :
  append self line txt width
  = (line ++ fst (append self "" txt width), snd (append self "" txt width)).
Proof.
  unfold append. destruct (linewidth self <? width + len txt); reflexivity.
Qed.

Lemma after_line_after_line a b r :
  after_line a (after_line b r) = after_line (a ++ b) r.
Proof.
  destruct r as [[l w]|e]; simpl; [|reflexivity].
  now rewrite string_app_assoc.
Qed.

Lemma visit_str_after_line self txt line width :
  visit_str self txt line width
  = after_line line (visit_str self txt "" width).
Proof.
  unfold visit_str, after_line. cbn [res_bind].
  now rewrite append_after_line.
Qed.

Lemma paren_open_after_line self p line width :
  paren_open self p (line, width)
  = (line ++ fst (paren_open self p ("", width)),
     snd (paren_open self p ("", width))).
Proof.
  unfold paren_open. cbn [fst snd].
  destruct (p || parenthesise self).
  - apply append_after_line.
  - cbn [fst snd]. now rewrite append_nil_r_string.
Qed.

Lemma paren_close_after_line self p line s width :
  paren_close self p (line ++ s, width)
  = (line ++ fst (paren_close self p (s, width)),
     snd (paren_close self p (s, width))).
Proof.
  unfold paren_close. cbn [fst snd].
  destruct (p || parenthesise self).
  - rewrite (append_after_line self (line ++ s)),
      (append_after_line self s). cbn [fst snd].
    now rewrite string_app_assoc.
  - reflexivity.
Qed.

Lemma fexpr_visit_Operation self str ops operands parenthesis line width :
  fexpr_visit self str (Operation ops operands parenthesis) line width
  = match ops, operands with
    | [op], [operand] =>
        let lw := paren_open self parenthesis (line, width) in
        let lw := append self (fst lw) op (snd lw) in
        let? lw := fexpr_visit self str operand (fst lw) (snd lw) in
        Ok (paren_close self parenthesis lw)
    | _, [] => Err IndexError
    | _, first :: rest =>
        let lw := paren_open self parenthesis (line, width) in
        let? lw := fexpr_visit self str first (fst lw) (snd lw) in
        let? lw := operation_pairs self str ops rest lw in
        Ok (paren_close self parenthesis lw)
    end.
Proof.
  assert (Hloop : forall ops rest lw,
             (fix pairs (ops : list string) (operands : list value)
                  (lw : string * Z) {struct operands} : res (string * Z) :=
                match ops, operands with
                | op :: ops', operand :: operands' =>
                    let lw := append self (fst lw) (s_op self op) (snd lw) in
                    let? lw := fexpr_visit self str operand (fst lw) (snd lw) in
                    pairs ops' operands' lw
                | _, _ => Ok lw
                end) ops rest lw
             = operation_pairs self str ops rest lw).
  { intros ops0 rest. revert ops0.
    induction rest as [|x rest IH]; intros ops0 lw; destruct ops0;
      try reflexivity.
    cbn [operation_pairs]. cbv zeta.
    destruct (fexpr_visit self str x _ _) as [lw1|err]; cbn [res_bind];
      [apply IH | reflexivity]. }
  destruct ops as [|op [|op2 ops]]; destruct operands as [|first rest];
    try reflexivity; cbn [fexpr_visit]; cbv zeta;
    try (destruct rest; [reflexivity|]);
    (destruct (fexpr_visit self str first _ _) as [lw1|err];
     cbn [res_bind]; [|reflexivity]);
    rewrite <- Hloop; reflexivity.
Qed.


Ltac push_line :=
  repeat first
    [ progress cbn [after_line res_bind fst snd]
    | match goal with
      | |- context [append ?s ?l ?t ?w] =>
          lazymatch l with
          | EmptyString => fail
          | _ => rewrite (append_after_line s l t w)
          end
      end
    | match goal with
      | H : line_independent ?s ?st ?o
        |- context [fexpr_visit ?s ?st ?o ?l ?w] =>
          lazymatch l with
          | EmptyString => fail
          | _ => rewrite (H l w)
          end
      end ].

Lemma fexpr_visit_after_line self str :
  forall o, line_independent self str o.
Proof.
  apply printed_parts_ind. intros o Hparts line width.
  destruct o; try reflexivity;
    try (cbn [fexpr_visit]; destruct (str _) as [txt|err]; cbn [res_bind];
         [apply visit_str_after_line | reflexivity]).
  - cbn [fexpr_visit]. apply visit_str_after_line.
  - (* PyTuple *)
    cbn [fexpr_visit]. simpl in Hparts. revert line width.
    induction Hparts as [|e r He Hr IHr]; intros line width.
    + cbn [after_line res_bind fst snd]. now rewrite append_nil_r_string.
    + rewrite (He line width).
      destruct (fexpr_visit self str e "" width) as [[s1 w1]|err] eqn:E.
      * cbn [after_line res_bind fst snd].
        destruct r as [|e' r'].
        -- reflexivity.
        -- rewrite (append_after_line self (line ++ s1)).
           rewrite (append_after_line self s1).
           cbn [fst snd]. rewrite IHr. rewrite (IHr (s1 ++ _)).
           rewrite after_line_after_line. now rewrite string_app_assoc.
      * reflexivity.
  - (* SymVariable *)
    simpl in Hparts.
    cbn [fexpr_visit]. rewrite (append_after_line self line).
    destruct (append self "" name width) as [a1 w1]. cbn [fst snd].
    destruct o1; try reflexivity.
    destruct items as [|d ds]; [reflexivity|].
    push_line.
    destruct (append self "" "(" w1) as [a2 w2]. push_line.
    destruct (fexpr_visit self str (PyTuple (d :: ds)) "" w2)
      as [[s3 w3]|err]; push_line; [|reflexivity].
    now rewrite !string_app_assoc.
  - (* InlineCall *)
    simpl in Hparts.
    cbn [fexpr_visit]. destruct (var_name o1) as [nm|err]; [|reflexivity].
    cbn [res_bind]. rewrite (append_after_line self line).
    destruct (append self "" (nm ++ "(") width) as [a1 w1]. cbn [fst snd].
    destruct o2; try reflexivity.
    destruct Hparts as [|a rest Ha Hrest].
    + push_line. now rewrite !string_app_assoc.
    + push_line.
      destruct (fexpr_visit self str a "" w1) as [[s2 w2]|err];
        push_line; [|reflexivity].
      rewrite (string_app_assoc line a1 s2).
      generalize (a1 ++ s2) as S. generalize w2 as w. clear w2.
      revert line.
      induction Hrest as [|arg rest Harg Hrest IHrest]; intros line w S.
      * push_line. now rewrite !string_app_assoc.
      * push_line.
        destruct (append self "" "," w) as [a3 w3]. push_line.
        destruct (fexpr_visit self str arg "" w3) as [[s4 w4]|err];
          push_line; [|reflexivity].
        rewrite !string_app_assoc.
        rewrite <- (string_app_assoc S a3 s4).
        apply IHrest.
  - (* Statement *)
    simpl in Hparts. destruct Hparts as [H1 H2].
    cbn [fexpr_visit]. rewrite (H1 line width).
    destruct (fexpr_visit self str o1 "" width) as [[s1 w1]|err];
      push_line; [|reflexivity].
    destruct (append self "" (if ptr then " => " else " = ") w1) as [a2 w2].
    push_line.
    destruct (fexpr_visit self str o2 "" w2) as [[s3 w3]|err];
      push_line; [|reflexivity].
    now rewrite !string_app_assoc.
  - (* Operation *)
    simpl in Hparts. rewrite !fexpr_visit_Operation.
    assert (Hgen : forall first rest,
               line_independent self str first ->
               Forall (line_independent self str) rest ->
               (let lw := paren_open self parenthesis (line, width) in
                let? lw := fexpr_visit self str first (fst lw) (snd lw) in
                let? lw := operation_pairs self str ops rest lw in
                Ok (paren_close self parenthesis lw))
               = after_line line
                   (let lw := paren_open self parenthesis ("", width) in
                    let? lw := fexpr_visit self str first (fst lw) (snd lw) in
                    let? lw := operation_pairs self str ops rest lw in
                    Ok (paren_close self parenthesis lw))).
    { intros first rest Hfirst Hrest. cbv zeta.
      rewrite (paren_open_after_line self parenthesis line).
      destruct (paren_open self parenthesis ("", width)) as [a1 w1].
      push_line.
      destruct (fexpr_visit self str first "" w1) as [[s2 w2]|err];
        push_line; [|reflexivity].
      rewrite (string_app_assoc line a1 s2).
      generalize (a1 ++ s2) as S. generalize w2 as w. clear w2.
      generalize ops as ops0. revert line.
      induction Hrest as [|operand rest Hoperand Hrest IHrest];
        intros line ops0 w S.
      - destruct ops0; cbn [operation_pairs res_bind];
          rewrite paren_close_after_line; reflexivity.
      - destruct ops0 as [|op ops0]; cbn [operation_pairs res_bind].
        + rewrite paren_close_after_line. reflexivity.
        + push_line.
          destruct (append self "" (s_op self op) w) as [a3 w3]. push_line.
          destruct (fexpr_visit self str operand "" w3) as [[s4 w4]|err];
            push_line; [|reflexivity].
          rewrite !string_app_assoc.
          rewrite <- (string_app_assoc S a3 s4).
          apply IHrest. }
    destruct operands as [|first rest]; [now destruct ops as [|? [|? ?]]|].
    inversion Hparts as [|? ? Hfirst Hrest]; subst.
    destruct ops as [|op [|op2 ops]]; try (apply Hgen; assumption).
    destruct rest as [|second rest]; [|apply Hgen; assumption].
    (* a unary operator *)
    rewrite (paren_open_after_line self parenthesis line).
    destruct (paren_open self parenthesis ("", width)) as [a1 w1].
    push_line.
    destruct (append self "" op w1) as [a2 w2]. push_line.
    destruct (fexpr_visit self str first "" w2) as [[s3 w3]|err];
      push_line; [|reflexivity].
    replace (((line ++ a1) ++ a2) ++ s3) with (line ++ ((a1 ++ a2) ++ s3))
      by now rewrite !string_app_assoc.
    now rewrite paren_close_after_line.
  - (* LiteralList *)
    simpl in Hparts. cbn [fexpr_visit]. push_line.
    destruct (append self "" "(/" width) as [a1 w1]. push_line.
    destruct (fexpr_visit self str o "" w1) as [[s2 w2]|err];
      push_line; [|reflexivity].
    now rewrite !string_app_assoc.
  - (* Variable_ *)
    simpl in Hparts. destruct Hparts as [Hdims Hsub].
    cbn [fexpr_visit]. rewrite (append_after_line self line).
    destruct (append self "" name width) as [a1 w1]. cbn [fst snd].
    assert (Htail : forall S w,
      match o2 with
      | PyNone => Ok (line ++ S, w)
      | _ => let lw := append self (line ++ S) "%" w in
             fexpr_visit self str o2 (fst lw) (snd lw)
      end
      = after_line line
          (match o2 with
           | PyNone => Ok (S, w)
           | _ => let lw := append self S "%" w in
                  fexpr_visit self str o2 (fst lw) (snd lw)
           end)).
    { intros S w.
      assert (Hgo : (let lw := append self (line ++ S) "%" w in
                     fexpr_visit self str o2 (fst lw) (snd lw))
                    = after_line line
                        (let lw := append self S "%" w in
                         fexpr_visit self str o2 (fst lw) (snd lw))).
      { cbv zeta. rewrite (append_after_line self (line ++ S)).
        rewrite (append_after_line self S).
        destruct (append self "" "%" w) as [a2 w2]. cbn [fst snd].
        rewrite (Hsub ((line ++ S) ++ a2)), (Hsub (S ++ a2)).
        rewrite after_line_after_line. now rewrite string_app_assoc. }
      destruct o2; try exact Hgo. reflexivity. }
    cbv zeta in Htail.
    destruct o1; try reflexivity.
    + cbn [res_bind]. apply (Htail a1 w1).
    + destruct items as [|d ds]; [cbn [res_bind]; apply (Htail a1 w1)|].
      rewrite (append_after_line self (line ++ a1)).
      rewrite (append_after_line self a1).
      destruct (append self "" "(" w1) as [a2 w2]. cbn [fst snd].
      rewrite (Hdims ((line ++ a1) ++ a2)), (Hdims (a1 ++ a2)).
      destruct (fexpr_visit self str (PyTuple (d :: ds)) "" w2)
        as [[s3 w3]|err]; cbn [after_line res_bind fst snd]; [|reflexivity].
      rewrite (append_after_line self (((line ++ a1) ++ a2) ++ s3)).
      rewrite (append_after_line self ((a1 ++ a2) ++ s3)).
      destruct (append self "" ")" w3) as [a4 w4]. cbn [fst snd].
      replace ((((line ++ a1) ++ a2) ++ s3) ++ a4)
        with (line ++ (((a1 ++ a2) ++ s3) ++ a4))
        by now rewrite !string_app_assoc.
      apply (Htail (((a1 ++ a2) ++ s3) ++ a4) w4).
Qed.

(** The expression printer only appends to the line it is given, and the
    text it appends does not depend on that line: run on [line] at some
    width, it fails exactly as it does on the empty line at that width,
    and otherwise returns [line] followed by the text it returns on the
    empty line, with the same final width.  Line breaks are decided by the
    width alone. *)
Theorem fexpr_printer_only_appends :
  forall self str o line width,
    fexpr_visit self str o line width
    = after_line line (fexpr_visit self str o "" width) /\
    (forall r,
        fexpr_visit self str o line width = Ok r ->
        exists text,
          fst r = line ++ text /\
          fexpr_visit self str o "" width = Ok (text, snd r)).
Proof.
  intros self str o line width.
  pose proof (fexpr_visit_after_line self str o line width) as H.
  split; [exact H|].
  intros r Hr. rewrite H in Hr.
  destruct (fexpr_visit self str o "" width) as [[text w]|err];
    [|discriminate].
  injection Hr as <-. exists text. split; reflexivity.
Qed.

(** A member of a derived type, [a(i)%b], in the printer *)
Example fexprgen_sub_variable :
  fexprgen print_text
    (Variable_ "a" (PyTuple [PyStr "i"]) (Variable_ "b" PyNone PyNone))
    fexprgen_defaults
  = Ok "a(i)%b".
Proof. reflexivity. Qed.

(** ** The layout of an INTERFACE block *)

Lemma Forall_fst_snd {A} (P Q : A -> Prop) (l : list A) :
  Forall (fun y => P y /\ Q y) l -> Forall P l /\ Forall Q l.
Proof.
  intros H. split; eapply Forall_impl; try exact H; intros y Hy;
    simpl in Hy; tauto.
Qed.

(** For an INTERFACE block laid out as: nodes before the block, the
    INTERFACE statement, the body, the END INTERFACE statement (both
    statements with their reader items, no earlier sibling of their
    classes or equal to them, so that [index] finds them where they
    are), the handler lowers the nodes before the block, then the
    statement, then the body, and returns the lowered nodes before the
    block followed by one Interface node, whose source spans from the
    first line of the INTERFACE statement to the last line of the END
    INTERFACE statement. *)
Theorem interface_block_extraction :
  forall self visit cls item text pre it ti ci body eit te ce kw st,
    Forall (fun y => isinstance y Interface_Stmt = false /\
                     isinstance y End_Interface_Stmt = false) pre ->
    Forall (fun y => isinstance y End_Interface_Stmt = false) body ->
    Forall (fun y => node_eqb y (FNode Interface_Stmt (Some it) ti ci) = false)
           pre ->
    Forall (fun y => node_eqb y (FNode End_Interface_Stmt (Some eit) te ce)
                     = false)
           (pre ++ FNode Interface_Stmt (Some it) ti ci :: body) ->
    visit_Interface_Block self visit
      (FNode cls item text
         (pre ++ FNode Interface_Stmt (Some it) ti ci ::
          body ++ [FNode End_Interface_Stmt (Some eit) te ce])%list) kw st
    = (pre' <- visit_all visit pre kw ;;
       spec <- visit (FNode Interface_Stmt (Some it) ti ci) kw ;;
       body' <- visit_all visit body kw ;;
       ret (PyTuple
              (pre' ++
               [Interface spec body' (kw_label kw)
                  (Some (span_source (raw_source self)
                           (fst (span it)) (snd (span eit))))]))) st.
Proof.
  intros self visit cls item text pre it ti ci body eit te ce kw st
    Hpre Hbody Hfound Hfound_end.
  destruct (Forall_fst_snd _ _ _ Hpre) as [Hpre1 Hpre2].
  set (istmt := FNode Interface_Stmt (Some it) ti ci).
  set (iend := FNode End_Interface_Stmt (Some eit) te ce).
  set (ch := (pre ++ istmt :: body ++ [iend])%list).
  assert (Hch : ch = ((pre ++ istmt :: body) ++ iend :: [])%list).
  { subst ch. rewrite <- app_assoc. reflexivity. }
  assert (Hfront : Forall (fun y => isinstance y End_Interface_Stmt = false)
                     (pre ++ istmt :: body)).
  { apply Forall_app. split; [exact Hpre2|].
    constructor; [reflexivity | exact Hbody]. }
  assert (H1 : get_child ch Interface_Stmt = istmt)
    by (apply get_child_app; [exact Hpre1 | reflexivity]).
  assert (H2 : py_index ch istmt = Ok (length pre))
    by (apply (py_index_app _ _ _ Interface_Stmt);
        [exact Hpre1 | reflexivity | exact Hfound]).
  assert (H3 : get_child ch End_Interface_Stmt = iend)
    by (rewrite Hch; apply get_child_app; [exact Hfront | reflexivity]).
  assert (H4 : py_index ch iend = Ok (length (pre ++ istmt :: body)))
    by (rewrite Hch; apply (py_index_app _ _ _ End_Interface_Stmt);
        [exact Hfront | reflexivity | exact Hfound_end]).
  unfold visit_Interface_Block, lower_Interface_Block.
  cbn [node_children]. rewrite !bind_assoc, lift_ok_bind. cbv zeta.
  rewrite H1, H3, H2, !bind_assoc, lift_ok_bind.
  rewrite H4, !bind_assoc, lift_ok_bind.
  replace (firstn (length pre) ch) with pre
    by (subst ch; now rewrite take_app_length).
  rewrite !bind_assoc. apply bind_congr. intros pre' st1 _.
  subst istmt iend. cbn [node_item].
  rewrite bind_assoc, lift_ok_bind, bind_assoc, lift_ok_bind, bind_assoc.
  apply bind_congr. intros spec st2 _.
  replace (slice ch (S (length pre))
             (length (pre ++ FNode Interface_Stmt (Some it) ti ci :: body)))
    with body.
  2:{ subst ch. rewrite length_app. cbn [length].
      replace (length pre + S (length body))%nat
        with (length pre + 1 + length body)%nat by lia.
      symmetry. apply slice_middle. }
  rewrite bind_assoc. apply bind_congr. intros body' st3 _.
  rewrite bind_ret.
  replace (skipn (S (length
             (pre ++ FNode Interface_Stmt (Some it) ti ci :: body))) ch)
    with (@nil node).
  2:{ rewrite Hch. symmetry. apply skipn_all_nil.
      rewrite length_app. simpl. lia. }
  reflexivity.
Qed.

Lemma interface_block_extraction_witness :
  let V := visit plain_visitor no_rescope no_dims 3 in
  let istmt := FNode Interface_Stmt (item_at_line 1) "INTERFACE" [FNone] in
  visit_Interface_Block plain_visitor V
    (FNode Interface_Block None ""
       [istmt; FNode Continue_Stmt None "CONTINUE" [];
        FNode End_Interface_Stmt (item_at_line 3) "END INTERFACE"
          [FStr "INTERFACE"; FNone]])
    no_kwargs strict_state
  = (pre' <- visit_all V [] no_kwargs ;;
     spec <- V istmt no_kwargs ;;
     body' <- visit_all V [FNode Continue_Stmt None "CONTINUE" []] no_kwargs ;;
     ret (PyTuple
            (pre' ++
             [Interface spec body' None
                (Some (span_source [] 1 3))]))) strict_state.
Proof.
  apply (interface_block_extraction plain_visitor
           (visit plain_visitor no_rescope no_dims 3) Interface_Block None ""
           [] {| span := (1, 1); item_label := None; item_name := None |}
           "INTERFACE" [FNone] [FNode Continue_Stmt None "CONTINUE" []]
           {| span := (3, 3); item_label := None; item_name := None |}
           "END INTERFACE" [FStr "INTERFACE"; FNone] no_kwargs strict_state);
    repeat constructor.
Defined.

(** ** The first CASE of a CASE construct *)

Lemma index_from_nth x l k i :
  index_from x l k = Ok i ->
  (k <= i)%nat /\
  exists y, nth_error l (i - k) = Some y /\
            node_same y x || node_eqb y x = true.
Proof.
  revert k. induction l as [|y l IH]; intros k; simpl; [discriminate|].
  destruct (node_same y x || node_eqb y x) eqn:E.
  - intros [= <-]. split; [lia|]. rewrite Nat.sub_diag. eauto.
  - intros H. destruct (IH _ H) as (Hle & z & Hz & Hzx).
    split; [lia|]. exists z. split; [|exact Hzx].
    replace (i - k)%nat with (S (i - S k)) by lia. exact Hz.
Qed.

Lemma first_of_class_nth c l k i :
  nth_res (map fst (List.filter (fun ic => isinstance (snd ic) c)
                      (enumerate_from k l))) 0 = Ok i ->
  (k <= i)%nat /\
  exists y, nth_error l (i - k) = Some y /\ isinstance y c = true /\
            Forall (fun z => isinstance z c = false) (firstn (i - k) l).
Proof.
  revert k. induction l as [|y l IH]; intros k; [discriminate|].
  rewrite enumerate_from_cons. cbn [List.filter snd].
  destruct (isinstance y c) eqn:E.
  - cbn [map fst nth_res nth_error]. intros [= <-]. split; [lia|].
    rewrite Nat.sub_diag. exists y. repeat split; [exact E | constructor].
  - intros H. destruct (IH _ H) as (Hle & z & Hz & Hzc & Hbefore).
    split; [lia|]. exists z.
    replace (i - k)%nat with (S (i - S k)) by lia.
    repeat split; [exact Hz | exact Hzc |].
    cbn [firstn]. constructor; assumption.
Qed.

Lemma get_child_instance ch c cls item text chs :
  get_child ch c = FNode cls item text chs ->
  isinstance (FNode cls item text chs) c = true.
Proof.
  unfold get_child. destruct (List.find _ ch) as [x|] eqn:E; [|discriminate].
  intros <-. apply List.find_some in E. tauto.
Qed.

Lemma nth_error_two_split {A} (l : list A) i x y :
  nth_error l i = Some x -> nth_error l (S i) = Some y ->
  l = (firstn i l ++ x :: y :: skipn (S (S i)) l)%list.
Proof.
  revert i. induction l as [|z l IH]; intros i; [now destruct i|].
  destruct i as [|i]; simpl.
  - intros [= ->]. destruct l as [|w l]; [discriminate|].
    simpl. intros [= ->]. reflexivity.
  - intros Hx Hy. f_equal. now apply IH.
Qed.

(** The CASE handler returns only for a construct whose first CASE
    statement directly follows the SELECT CASE statement: whenever it
    returns, the children are some nodes without CASE statement, the SELECT
    CASE statement, a CASE statement, and the rest.  A node between the
    two statements, or a construct without any CASE statement, never gives
    a result.  (The SELECT CASE statement is where [index] finds it: no
    child of another class is equal to it.) *)
Theorem case_construct_needs_case_after_select :
  forall self visit cls item text ch kw st v st',
    Forall (fun y => isinstance y Select_Case_Stmt = false ->
                     node_eqb y (get_child ch Select_Case_Stmt) = false) ch ->
    visit_Case_Construct self visit (FNode cls item text ch) kw st
    = (Ok v, st') ->
    exists pre sel c1 rest,
      ch = (pre ++ sel :: c1 :: rest)%list /\
      isinstance sel Select_Case_Stmt = true /\
      isinstance c1 Case_Stmt = true /\
      Forall (fun y => isinstance y Case_Stmt = false) pre.
Proof.
  intros self visit cls item text ch kw st v st' Hfound H.
  unfold visit_Case_Construct in H.
  apply bind_inv_ok in H. destruct H as (r & st1 & Hl & _).
  unfold lower_Case_Construct in Hl. cbn [node_children] in Hl.
  chain Hl. lifted.
  match goal with H : Ok ch = Ok _ |- _ => injection H as <- end.
  match goal with
  | H : assert_ (?i =? S ?j)%nat _ = (Ok _, _) |- _ =>
      destruct (Nat.eqb_spec i (S j)) as [Heq|]; [subst i|discriminate H]
  end.
  match goal with
  | H : py_index ch (get_child ch Select_Case_Stmt) = Ok ?j |- _ =>
      destruct (index_from_nth _ _ _ _ H) as (_ & sel & Hsel & Hsel_eq);
      rewrite Nat.sub_0_r in Hsel
  end.
  match goal with
  | H : nth_res (map fst _) 0 = Ok _ |- _ =>
      change (enumerate ch) with (enumerate_from 0 ch) in H;
      destruct (first_of_class_nth _ _ _ _ H)
        as (_ & c1 & Hc1 & Hc1_case & Hbefore);
      rewrite Nat.sub_0_r in Hc1, Hbefore
  end.
  match goal with
  | H : node_item (get_child ch Select_Case_Stmt) = Ok _ |- _ =>
      destruct (get_child ch Select_Case_Stmt) as [| |scls sitem stext sch]
        eqn:Hget; try discriminate H
  end.
  pose proof (get_child_instance _ _ _ _ _ _ Hget) as Hinst.
  exists (firstn a0 ch), sel, c1, (skipn (S (S a0)) ch).
  repeat split.
  - now apply nth_error_two_split.
  - apply orb_true_iff in Hsel_eq. destruct Hsel_eq as [Hsame|Heq].
    + exact (node_same_isinstance _ _ _ Hsame Hinst).
    + destruct (isinstance sel Select_Case_Stmt) eqn:Hcls; [reflexivity|].
      apply nth_error_In in Hsel.
      rewrite List.Forall_forall in Hfound.
      rewrite (Hfound sel Hsel Hcls) in Heq. discriminate.
  - exact Hc1_case.
  - replace (firstn a0 ch) with (firstn a0 (firstn (S a0) ch))
      by (rewrite firstn_firstn; f_equal; lia).
    apply Forall_take. exact Hbefore.
Qed.

Lemma case_construct_needs_case_after_select_witness :
  exists pre sel c1 rest,
    case_children = (pre ++ sel :: c1 :: rest)%list /\
    isinstance sel Select_Case_Stmt = true /\
    isinstance c1 Case_Stmt = true /\
    Forall (fun y => isinstance y Case_Stmt = false) pre.
Proof.
  apply (case_construct_needs_case_after_select plain_visitor
           (visit plain_visitor no_rescope no_dims 5) Case_Construct None ""
           case_children scope0_kwargs strict_state case_example_lowered
           strict_state).
  - repeat constructor; intros Hcls; (reflexivity || discriminate Hcls).
  - vm_compute. reflexivity.
Defined.

(** ** Surplus operators and operands of an operation *)

Lemma operation_pairs_truncate self str rest :
  forall ops lw,
    operation_pairs self str ops rest lw
    = operation_pairs self str
        (firstn (Nat.min (length ops) (length rest)) ops)
        (firstn (Nat.min (length ops) (length rest)) rest) lw.
Proof.
  induction rest as [|x rest IH]; intros ops lw.
  - destruct ops; reflexivity.
  - destruct ops as [|op ops]; [reflexivity|].
    cbn [length Nat.min firstn operation_pairs]. cbv zeta.
    destruct (fexpr_visit self str x _ _) as [lw1|err]; cbn [res_bind];
      [apply IH | reflexivity].
Qed.

(** The printer pairs each operator with the operand after it and stops
    at the shorter of the two lists: for an operation with at least two
    operands, the operators beyond the number of operand gaps and the
    operands beyond one more than the number of operators are not printed
    at all.  The output is that of the operation cut to [k] operators and
    [k + 1] operands, [k] being the smaller of the number of operators and
    the number of operands less one. *)
Theorem fexpr_operation_ignores_surplus :
  forall self str ops operands parenthesis line width,
    (2 <= length operands)%nat ->
    fexpr_visit self str (Operation ops operands parenthesis) line width
    = fexpr_visit self str
        (Operation
           (firstn (Nat.min (length ops) (length operands - 1)) ops)
           (firstn (S (Nat.min (length ops) (length operands - 1))) operands)
           parenthesis)
        line width.
Proof.
  intros self str ops operands parenthesis line width Hlen.
  destruct operands as [|first [|second rest]]; simpl in Hlen; try lia.
  rewrite !fexpr_visit_Operation.
  change (length (first :: second :: rest) - 1)%nat
    with (length (second :: rest)).
  pose (G := fun ops' rest' =>
          let lw := paren_open self parenthesis (line, width) in
          let? lw := fexpr_visit self str first (fst lw) (snd lw) in
          let? lw := operation_pairs self str ops' rest' lw in
          Ok (paren_close self parenthesis lw)).
  transitivity (G ops (second :: rest));
    [destruct ops as [|? [|? ?]]; reflexivity|].
  destruct (Nat.min (length ops) (length (second :: rest))) as [|k'] eqn:Hk.
  - assert (ops = []) as ->
        by (destruct ops; [reflexivity | simpl in Hk; discriminate]).
    reflexivity.
  - cbn [firstn].
    transitivity (G (firstn (S k') ops) (second :: firstn k' rest));
      [|destruct (firstn (S k') ops) as [|? [|? ?]]; reflexivity].
    unfold G. cbv zeta.
    destruct (fexpr_visit self str first _ _) as [lw1|err]; cbn [res_bind];
      [|reflexivity].
    rewrite operation_pairs_truncate, Hk. reflexivity.
Qed.

Lemma fexpr_operation_ignores_surplus_witness :
  fexpr_visit fexprgen_defaults print_text
    (Operation ["+"] [PyStr "a"; PyStr "b"; PyStr "c"] false) "" 0
  = fexpr_visit fexprgen_defaults print_text
      (Operation ["+"] [PyStr "a"; PyStr "b"] false) "" 0.
Proof.
  apply (fexpr_operation_ignores_surplus fexprgen_defaults print_text
           ["+"] [PyStr "a"; PyStr "b"; PyStr "c"] false "" 0).
  simpl. lia.
Defined.

(** ** The source of a node *)

Lemma rstrip_nl_line txt :
  no_newline txt -> rstrip_nl (txt ++ String nl "") = txt.
Proof.
  unfold no_newline. induction txt as [|c r IH]; intros H.
  - reflexivity.
  - simpl in H. inversion H as [|? ? Hc Hr]; subst.
    rewrite append_cons. cbn [rstrip_nl]. rewrite (IH Hr).
    destruct (Ascii.eqb_spec c nl) as [->|_]; [contradiction|reflexivity].
Qed.

Lemma strip_nl_line txt :
  no_newline txt -> strip_nl (txt ++ String nl "") = txt.
Proof.
  intros H. unfold strip_nl. destruct txt as [|c r].
  - reflexivity.
  - rewrite append_cons. cbn [lstrip_nl].
    unfold no_newline in H. simpl in H. inversion H as [|? ? Hc Hr]; subst.
    destruct (Ascii.eqb_spec c nl) as [->|_]; [contradiction|].
    rewrite <- append_cons. now apply rstrip_nl_line.
Qed.

Lemma slice_one {A} (l : list A) k x :
  nth_error l k = Some x -> slice l k (S k) = [x].
Proof.
  intros H. unfold slice. replace (S k - k)%nat with 1%nat by lia.
  revert k H. induction l as [|y l IH]; intros [|k] H; try discriminate.
  - injection H as ->. reflexivity.
  - simpl in H. cbn [skipn]. now apply IH.
Qed.

(** The source that the visitor derives for a node with a reader item
    does not depend on the source it inherits.  For a statement on one
    line of the raw source, it is that line without its line end.  For a
    span that starts past the last line of the raw source the visitor
    does not fail: the source keeps the line numbers and its text is
    empty. *)
Theorem get_source_of_item :
  forall self cls it text ch source,
    (forall k line_text,
        span it = (Z.of_nat k + 1, Z.of_nat k + 1) ->
        nth_error (raw_source self) k = Some (line_text ++ String nl "") ->
        no_newline line_text ->
        get_source self (FNode cls (Some it) text ch) source
        = Ok (Some {| lines := (Z.of_nat k + 1, Z.of_nat k + 1);
                      src_string := Some line_text |})) /\
    (Z.of_nat (length (raw_source self)) < fst (span it) ->
     get_source self (FNode cls (Some it) text ch) source
     = Ok (Some {| lines := span it; src_string := Some "" |})).
Proof.
  intros self cls it text ch source. split.
  - intros k line_text Hspan Hnth Hnl. cbn [get_source]. rewrite Hspan.
    cbn [fst snd]. unfold span_source. do 3 f_equal.
    assert (Hlt : (k < length (raw_source self))%nat)
      by (apply nth_error_Some; congruence).
    unfold py_slice, clip.
    replace (Z.of_nat k + 1 - 1) with (Z.of_nat k) by lia.
    destruct (Z.ltb_spec (Z.of_nat k) 0); [lia|].
    destruct (Z.ltb_spec (Z.of_nat k + 1) 0); [lia|].
    rewrite Z.min_l, Z.min_l by lia.
    rewrite Nat2Z.id.
    replace (Z.to_nat (Z.of_nat k + 1)) with (S k) by lia.
    rewrite (slice_one _ _ _ Hnth). cbn [String.concat].
    f_equal. now apply strip_nl_line.
  - intros Hpast. cbn [get_source]. unfold span_source.
    destruct (span it) as [first last]. cbn [fst snd] in *. do 3 f_equal.
    unfold py_slice, clip.
    destruct (Z.ltb_spec (first - 1) 0); [lia|].
    rewrite Z.min_r by lia. rewrite Nat2Z.id. unfold slice.
    rewrite skipn_all. now rewrite firstn_nil.
Qed.

Lemma get_source_of_item_witness :
  get_source if_visitor
    (FNode Stop_Stmt (item_at 4 4) "STOP" [FStr "STOP"; FNone]) None
  = Ok (Some {| lines := (4, 4); src_string := Some "  STOP" |}) /\
  get_source if_visitor
    (FNode Stop_Stmt (item_at 12 13) "STOP" [FStr "STOP"; FNone]) None
  = Ok (Some {| lines := (12, 13); src_string := Some "" |}).
Proof.
  split.
  - apply (proj1 (get_source_of_item if_visitor Stop_Stmt
                    {| span := (4, 4); item_label := None;
                       item_name := None |} "STOP" [FStr "STOP"; FNone] None)
                 3%nat "  STOP"); try reflexivity.
    repeat constructor; discriminate.
  - apply (proj2 (get_source_of_item if_visitor Stop_Stmt
                    {| span := (12, 13); item_label := None;
                       item_name := None |} "STOP" [FStr "STOP"; FNone] None)).
    simpl. lia.
Defined.

(** ** The kind of a Maxeler module *)

Lemma length_string_app (a b : string) :
  String.length (a ++ b) = (String.length a + String.length b)%nat.
Proof.
  induction a as [|c a IH]; [reflexivity|].
  rewrite append_cons. simpl. now rewrite IH.
Qed.

Lemma substring_prefix (p s : string) :
  substring 0 (String.length p) (p ++ s) = p.
Proof.
  induction p as [|c p IH].
  - destruct s; reflexivity.
  - rewrite append_cons. simpl. now rewrite IH.
Qed.

Lemma str_drop_last_suffix (p suffix : string) :
  str_drop_last (p ++ suffix) (String.length suffix) = p.
Proof.
  unfold str_drop_last. rewrite length_string_app.
  replace (String.length p + String.length suffix - String.length suffix)%nat
    with (String.length p) by lia.
  apply substring_prefix.
Qed.

Lemma endswith_suffix (p suffix : string) : endswith (p ++ suffix) suffix = true.
Proof.
  induction p as [|c p IH].
  - destruct suffix; simpl; [reflexivity|].
    now rewrite Ascii.eqb_refl, String.eqb_refl.
  - rewrite append_cons. cbn [endswith]. rewrite IH. apply orb_true_r.
Qed.

Lemma endswith_split (s suffix : string) :
  endswith s suffix = true -> exists p, s = p ++ suffix.
Proof.
  induction s as [|c s IH]; cbn [endswith].
  - rewrite orb_false_r. intros H. apply String.eqb_eq in H. subst.
    now exists "".
  - intros H. apply orb_true_iff in H. destruct H as [H|H].
    + apply String.eqb_eq in H. rewrite H. now exists "".
    + destruct (IH H) as (p & ->). exists (String c p). reflexivity.
Qed.

Lemma last_char_app (p s : string) :
  s <> "" -> last_char (p ++ s) = last_char s.
Proof.
  intros Hs. induction p as [|c p IH]; [reflexivity|].
  rewrite append_cons. cbn [last_char]. rewrite <- IH.
  destruct (p ++ s) eqn:E; [|reflexivity].
  destruct p as [|c' p'];
    [change (s = "") in E; contradiction
    | rewrite append_cons in E; discriminate].
Qed.

Lemma endswith_other_last (p suffix other : string) :
  suffix <> "" -> other <> "" ->
  last_char suffix <> last_char other ->
  endswith (p ++ suffix) other = false.
Proof.
  intros Hs Ho Hne. destruct (endswith (p ++ suffix) other) eqn:E;
    [|reflexivity].
  apply endswith_split in E. destruct E as (q & E).
  apply (f_equal last_char) in E.
  rewrite !last_char_app in E by assumption. contradiction.
Qed.

(** The name of a module decides its kind, and the three endings exclude
    each other: a name [p ++ "Kernel"] gives a kernel class, [p ++ "Manager"]
    a manager interface, [p ++ "ManagerMAX5C"] the platform class that
    implements the interface [p ++ "Manager"]; in each case the package is
    [p], the name without its ending.  The lines are the package line, the
    imports, the signature, the specification without imports and the
    routines one level deeper, and the closing brace.  A name with none of
    the endings raises ValueError before anything is printed. *)
Theorem maxj_module_kind_by_name :
  forall format_line join_lines find_imports visit visit_all depth p spec
         subroutines import_lines spec_text routines,
    visit_all depth (find_imports spec) = Ok import_lines ->
    visit (S depth) true spec = Ok spec_text ->
    visit_all (S depth) subroutines = Ok routines ->
    let lines name signature :=
      join_lines
        ([Some (format_line depth ["package "; p; ";"])] ++ import_lines ++
         [Some (format_line depth signature)] ++
         spec_text :: routines ++ [Some (format_line depth ["}"])])%list in
    let run name :=
      MaxjCodegen_visit_Module format_line join_lines find_imports visit
        visit_all depth
        {| m_name := name; m_spec := spec; m_subroutines := subroutines |} in
    run (p ++ "Kernel")
    = Ok (lines (p ++ "Kernel")
            ["class "; p ++ "Kernel"; " extends Kernel {"]) /\
    run (p ++ "Manager")
    = Ok (lines (p ++ "Manager")
            ["public interface "; p ++ "Manager";
             " extends ManagerPCIe, ManagerKernel {"]) /\
    run (p ++ "ManagerMAX5C")
    = Ok (lines (p ++ "ManagerMAX5C")
            ["public class "; p ++ "ManagerMAX5C";
             " extends MAX5CManager implements "; p ++ "Manager"; " {"]) /\
    (forall name,
        endswith name "ManagerMAX5C" = false ->
        endswith name "Manager" = false ->
        endswith name "Kernel" = false ->
        run name = Err ValueError).
Proof.
  intros format_line join_lines find_imports visit visit_all depth p spec
    subroutines import_lines spec_text routines Hi Hs Hr lines run.
  subst lines run. unfold MaxjCodegen_visit_Module. cbn [m_name m_spec
    m_subroutines]. repeat split.
  - rewrite (endswith_other_last p "Kernel" "ManagerMAX5C"),
      (endswith_other_last p "Kernel" "Manager"), endswith_suffix
      by (try discriminate; vm_compute; discriminate).
    cbn [res_bind]. rewrite Hi, Hs, Hr. cbn [res_bind].
    rewrite (str_drop_last_suffix p "Kernel"). rewrite <- !app_assoc.
    reflexivity.
  - rewrite (endswith_other_last p "Manager" "ManagerMAX5C"), endswith_suffix
      by (try discriminate; vm_compute; discriminate).
    cbn [res_bind]. rewrite Hi, Hs, Hr. cbn [res_bind].
    rewrite (str_drop_last_suffix p "Manager"). rewrite <- !app_assoc.
    reflexivity.
  - rewrite endswith_suffix.
    cbn [res_bind]. rewrite Hi, Hs, Hr. cbn [res_bind].
    rewrite (str_drop_last_suffix p "ManagerMAX5C").
    change (p ++ "ManagerMAX5C") with (p ++ ("Manager" ++ "MAX5C")).
    rewrite <- (string_app_assoc p "Manager" "MAX5C").
    pose proof (str_drop_last_suffix (p ++ "Manager") "MAX5C") as E.
    change (String.length "MAX5C") with 5%nat in E. rewrite E.
    rewrite <- !app_assoc. reflexivity.
  - intros name H1 H2 H3. now rewrite H1, H2, H3.
Qed.

Lemma maxj_module_kind_by_name_witness :
  let format_line (depth : nat) parts := String.concat "" parts in
  let join_lines (ls : list (option string)) :=
    Some (String.concat "/" (omap id ls)) in
  let run name :=
    MaxjCodegen_visit_Module format_line join_lines (fun _ => [])
      (fun _ _ _ => Ok None) (fun _ l => Ok (map (fun _ => None) l)) 0
      {| m_name := name; m_spec := PyNone; m_subroutines := [] |} in
  run "AdderKernel"
  = Ok (Some "package Adder;/class AdderKernel extends Kernel {/}") /\
  run "AdderManagerMAX5C"
  = Ok (Some
     "package Adder;/public class AdderManagerMAX5C extends MAX5CManager implements AdderManager {/}").
Proof.
  pose proof (maxj_module_kind_by_name
                (fun _ parts => String.concat "" parts)
                (fun ls => Some (String.concat "/" (omap id ls)))
                (fun _ => []) (fun _ _ _ => Ok None)
                (fun _ l => Ok (map (fun _ => None) l)) 0 "Adder" PyNone []
                [] None [] eq_refl eq_refl eq_refl) as H.
  split; [exact (proj1 H) | exact (proj1 (proj2 (proj2 H)))].
Defined.

(** ** Arguments of a function reference *)

Lemma visit_arguments_run visit kw entries :
  (forall k e, In (Some k, e) entries ->
     forall s, visit (arg_node (Some k, e)) kw s
               = visit_Actual_Arg_Spec visit (arg_node (Some k, e)) kw s) ->
  forall vals st st',
    mapM (fun e => visit e kw) (map snd entries) st = (Ok vals, st') ->
    mapM (fun c => visit c kw) (map arg_node entries) st
    = (Ok (map (fun av => arg_value (fst av) (snd av)) (combine entries vals)),
       st').
Proof.
  induction entries as [|[keyword e] entries IH]; intros Hd vals st st' H;
    simpl in H.
  - apply ret_inv_ok in H. destruct H as [-> ->]. reflexivity.
  - apply bind_inv_ok in H. destruct H as (v & s1 & Hv & H).
    apply bind_inv_ok in H. destruct H as (vs & s2 & Hvs & H).
    apply ret_inv_ok in H. destruct H as [-> ->].
    assert (Hd' : forall k e0, In (Some k, e0) entries ->
              forall s, visit (arg_node (Some k, e0)) kw s
                        = visit_Actual_Arg_Spec visit (arg_node (Some k, e0)) kw s)
      by (intros k e0 Hin; apply Hd; now right).
    specialize (IH Hd' vs s1 s2 Hvs).
    cbn [map mapM combine].
    assert (Hhead : visit (arg_node (keyword, e)) kw st
                    = (Ok (arg_value (keyword, e) v), s1)).
    { destruct keyword as [k|].
      - rewrite (Hd k e (or_introl eq_refl)).
        unfold visit_Actual_Arg_Spec, arg_node.
        cbn [child node_children res_bind nth_error is_none tostr].
        rewrite lift_ok_bind. cbn [is_none tostr res_bind].
        rewrite !lift_ok_bind, (bind_ok _ _ _ _ _ Hv). reflexivity.
      - exact Hv. }
    rewrite (bind_ok _ _ _ _ _ Hhead), (bind_ok _ _ _ _ _ IH). reflexivity.
Qed.

Lemma filter_positional (l : list ((option string * node) * value)) :
  Forall (fun av => is_keyword av = false -> is_tuple (snd av) = false) l ->
  List.filter (fun arg => negb (is_tuple arg))
    (map (fun av => arg_value (fst av) (snd av)) l)
  = map snd (List.filter (fun av => negb (is_keyword av)) l).
Proof.
  induction 1 as [|[[keyword e] v] l Hx _ IH]; [reflexivity|].
  cbn [map List.filter]. unfold is_keyword, arg_value in *. cbn [fst snd] in *.
  destruct keyword as [k|]; cbn [is_tuple negb].
  - exact IH.
  - rewrite (Hx eq_refl). cbn [negb map]. now rewrite IH.
Qed.

Lemma filter_keywords (l : list ((option string * node) * value)) :
  Forall (fun av => is_keyword av = false -> is_tuple (snd av) = false) l ->
  List.filter is_tuple (map (fun av => arg_value (fst av) (snd av)) l)
  = map (fun av => arg_value (fst av) (snd av)) (List.filter is_keyword l).
Proof.
  induction 1 as [|[[keyword e] v] l Hx _ IH]; [reflexivity|].
  cbn [map List.filter]. unfold is_keyword, arg_value in *. cbn [fst snd] in *.
  destruct keyword as [k|]; cbn [is_tuple].
  - cbn [map]. now rewrite IH.
  - rewrite (Hx eq_refl). exact IH.
Qed.

(** A function reference [f(a1, ..., an)] whose list node goes to
    [visit_List] and whose keyword arguments go to [visit_Actual_Arg_Spec]
    visits the name and then the expression of every argument exactly
    once, in source order whatever its kind.  The call it builds holds the
    values of the arguments without keyword as [parameters] and the pairs
    (keyword, value) of the others as [kw_parameters], each in source
    order, provided no argument without keyword lowers to a tuple. *)
Theorem function_reference_arguments :
  forall visit cls item text c0 lcls litem ltext entries kw st name st1 vals
         st2,
    (forall s,
        visit (FNode lcls litem ltext (map arg_node entries)) kw s
        = visit_List visit (FNode lcls litem ltext (map arg_node entries))
            kw s) ->
    (forall k e, In (Some k, e) entries ->
       forall s, visit (arg_node (Some k, e)) kw s
                 = visit_Actual_Arg_Spec visit (arg_node (Some k, e)) kw s) ->
    visit c0 kw st = (Ok name, st1) ->
    mapM (fun e => visit e kw) (map snd entries) st1 = (Ok vals, st2) ->
    Forall (fun av => is_keyword av = false -> is_tuple (snd av) = false)
      (combine entries vals) ->
    visit_Function_Reference visit
      (FNode cls item text
         [c0; FNode lcls litem ltext (map arg_node entries)]) kw st
    = (Ok (InlineCall name
             (PyTuple (map snd
                (List.filter (fun av => negb (is_keyword av))
                   (combine entries vals))))
             (PyTuple (map (fun av => arg_value (fst av) (snd av))
                (List.filter is_keyword (combine entries vals))))
             (kw_source kw)), st2).
Proof.
  intros visit cls item text c0 lcls litem ltext entries kw st name st1 vals
    st2 Hlist Hspec Hname Hvals Hpos.
  pose proof (visit_arguments_run visit kw entries Hspec vals st1 st2 Hvals)
    as Hrun.
  unfold visit_Function_Reference.
  cbn [child node_children res_bind nth_error is_none].
  rewrite lift_ok_bind, (bind_ok _ _ _ _ _ Hname), lift_ok_bind.
  assert (Hc1 : visit (FNode lcls litem ltext (map arg_node entries)) kw st1
                = (Ok (PyTuple (map (fun av => arg_value (fst av) (snd av))
                                  (combine entries vals))), st2)).
  { rewrite Hlist. unfold visit_List, visit_all. cbn [node_children].
    rewrite lift_ok_bind, (bind_ok _ _ _ _ _ Hrun). reflexivity. }
  cbn [is_none]. rewrite bind_assoc, (bind_ok _ _ _ _ _ Hc1).
  cbn [iter_object]. rewrite bind_assoc, lift_ok_bind, !bind_ret.
  cbn [fst snd].
  now rewrite (filter_positional _ Hpos), (filter_keywords _ Hpos).
Qed.

Lemma function_reference_arguments_witness :
  visit_Function_Reference (call_visitor 3)
    (FNode (Unhandled "Function_Reference" false) None "f(a, k=b, c)"
       [name_node "f";
        FNode (Unhandled "Actual_Arg_Spec_List" false) None "a, k=b, c"
          (map arg_node [(None, name_node "a"); (Some "k", name_node "b");
                         (None, name_node "c")])])
    no_kwargs strict_state
  = (Ok (InlineCall (SymVariable "f" PyNone PyNone None None)
           (PyTuple [SymVariable "a" PyNone PyNone None None;
                     SymVariable "c" PyNone PyNone None None])
           (PyTuple [PyTuple [PyStr "k";
                              SymVariable "b" PyNone PyNone None None]])
           None), strict_state).
Proof.
  apply (function_reference_arguments (call_visitor 3)
           (Unhandled "Function_Reference" false) None "f(a, k=b, c)"
           (name_node "f") (Unhandled "Actual_Arg_Spec_List" false) None
           "a, k=b, c"
           [(None, name_node "a"); (Some "k", name_node "b");
            (None, name_node "c")]
           no_kwargs strict_state (SymVariable "f" PyNone PyNone None None)
           strict_state
           [SymVariable "a" PyNone PyNone None None;
            SymVariable "b" PyNone PyNone None None;
            SymVariable "c" PyNone PyNone None None] strict_state).
  - intros s. reflexivity.
  - intros k e [H|[H|[H|[]]]]; inversion H; subst. intros s. reflexivity.
  - reflexivity.
  - reflexivity.
  - repeat constructor.
Defined.

(** ** Casts *)

(** A reference to the intrinsic [REAL] or [INT] (in any letter case)
    becomes a cast of its first argument without keyword.  Without
    keyword arguments the kind is the second argument, or [None] when
    there is only one, and arguments past the second are dropped without
    notice; [REAL(x, k)] and [REAL(x, kind=k)] therefore give the same
    cast.  With keyword arguments there must be exactly one argument
    without keyword and exactly one keyword argument, spelled [kind] in
    lower case; anything else, and a reference without any argument, fails
    the assertions. *)
Theorem intrinsic_cast_kind :
  forall visit Cast str cls item text c0 c1 kw st name st1 s,
    visit c0 kw st = (Ok name, st1) ->
    str name = Ok s ->
    str_in (upper s) ["REAL"; "INT"] = true ->
    let run :=
      visit_Intrinsic_Function_Reference visit Cast str
        (FNode cls item text [c0; c1]) kw st in
    (c1 = FNone -> run = (Err AssertionError, st1)) /\
    (forall args st2,
        is_none c1 = false ->
        visit c1 kw st1 = (Ok (PyTuple args), st2) ->
        let positional := List.filter (fun arg => negb (is_tuple arg)) args in
        let keywords := List.filter is_tuple args in
        (forall x rest,
            keywords = [] -> positional = x :: rest ->
            run = (Ok (Cast name x (hd PyNone rest) (kw_source kw)), st2)) /\
        (forall x key k more,
            positional = [x] -> keywords = [PyTuple (key :: k :: more)] ->
            eq_text key "kind" = true ->
            run = (Ok (Cast name x k (kw_source kw)), st2)) /\
        (positional = [] -> run = (Err AssertionError, st2)) /\
        (forall x y rest,
            keywords <> [] -> positional = x :: y :: rest ->
            run = (Err AssertionError, st2)) /\
        (forall x first second rest,
            positional = [x] -> keywords = first :: second :: rest ->
            run = (Err AssertionError, st2)) /\
        (forall x key more,
            positional = [x] -> keywords = [PyTuple (key :: more)] ->
            eq_text key "kind" = false ->
            run = (Err AssertionError, st2))).
Proof.
  intros visit Cast str cls item text c0 c1 kw st name st1 s Hname Hstr Hin
    run.
  subst run. unfold visit_Intrinsic_Function_Reference.
  cbn [child node_children res_bind nth_error].
  rewrite lift_ok_bind, (bind_ok _ _ _ _ _ Hname), lift_ok_bind.
  split.
  - intros ->. cbn [is_none]. rewrite bind_ret. cbn [fst snd].
    rewrite Hstr, lift_ok_bind, Hin. reflexivity.
  - intros args st2 Hc1 Hargs. rewrite Hc1.
    rewrite bind_assoc, (bind_ok _ _ _ _ _ Hargs). cbn [iter_object].
    rewrite bind_assoc, lift_ok_bind, bind_ret. cbn [fst snd].
    rewrite Hstr, lift_ok_bind, Hin.
    repeat split.
    + intros x rest -> ->. destruct rest as [|y rest]; reflexivity.
    + intros x key k more -> -> Hkey.
      cbv -[eq_text]. now rewrite Hkey.
    + intros ->. reflexivity.
    + intros x y rest Hk ->. destruct (List.filter is_tuple args); [contradiction|reflexivity].
    + intros x first second rest -> ->. reflexivity.
    + intros x key more -> -> Hkey.
      cbv -[eq_text]. now rewrite Hkey.
Qed.

Lemma intrinsic_cast_kind_witness :
  let Cast n e k (src : option Source) := PyTuple [PyStr "Cast"; n; e; k] in
  let var n := SymVariable n PyNone PyNone None None in
  let run arguments :=
    visit_Intrinsic_Function_Reference (call_visitor 3) Cast var_name
      (FNode (Unhandled "Intrinsic_Function_Reference" false) None ""
         [name_node "real";
          FNode (Unhandled "Actual_Arg_Spec_List" false) None ""
            (map arg_node arguments)])
      no_kwargs strict_state in
  run [(None, name_node "x"); (None, name_node "jprb")]
  = (Ok (Cast (var "real") (var "x") (var "jprb") None), strict_state) /\
  run [(None, name_node "x"); (Some "kind", name_node "jprb")]
  = (Ok (Cast (var "real") (var "x") (var "jprb") None), strict_state) /\
  run [(None, name_node "x"); (Some "KIND", name_node "jprb")]
  = (Err AssertionError, strict_state).
Proof.
  cbv zeta.
  pose (Cast := fun n e k (src : option Source) =>
                  PyTuple [PyStr "Cast"; n; e; k]).
  pose (var := fun n => SymVariable n PyNone PyNone None None).
  pose (list_node := fun arguments =>
          FNode (Unhandled "Actual_Arg_Spec_List" false) None ""
            (map arg_node arguments)).
  assert (H : forall arguments,
             _ /\ _) by
    (intros arguments;
     exact (intrinsic_cast_kind (call_visitor 3) Cast var_name
              (Unhandled "Intrinsic_Function_Reference" false) None ""
              (name_node "real") (list_node arguments) no_kwargs
              strict_state (var "real") strict_state "real"
              eq_refl eq_refl eq_refl)).
  split; [|split].
  - apply (proj1 (proj2 (H [(None, name_node "x"); (None, name_node "jprb")])
                   [var "x"; var "jprb"] strict_state eq_refl eq_refl)
             (var "x") [var "jprb"]); reflexivity.
  - apply (proj1 (proj2
             (proj2 (H [(None, name_node "x");
                        (Some "kind", name_node "jprb")])
                [var "x"; PyTuple [PyStr "kind"; var "jprb"]] strict_state
                eq_refl eq_refl))
             (var "x") (PyStr "kind") (var "jprb") []); reflexivity.
  - apply (proj2 (proj2 (proj2 (proj2 (proj2
             (proj2 (H [(None, name_node "x");
                        (Some "KIND", name_node "jprb")])
                [var "x"; PyTuple [PyStr "KIND"; var "jprb"]] strict_state
                eq_refl eq_refl)))))
             (var "x") (PyStr "KIND") [var "jprb"]); reflexivity.
Defined.

(** ** SELECT TYPE constructs *)

Lemma banter_until_found visit c kw pre stmt rest :
  Forall (fun ch => isinstance ch c = false) pre ->
  isinstance stmt c = true ->
  forall st pre' st',
    mapM (fun ch => visit ch kw) pre st = (Ok pre', st') ->
    banter_until visit c (pre ++ stmt :: rest) kw st
    = (Ok (pre', Some stmt), st').
Proof.
  intros Hpre Hstmt. induction Hpre as [|x pre Hx _ IH]; intros st pre' st' H;
    simpl in H.
  - apply ret_inv_ok in H. destruct H as [-> ->].
    cbn [app banter_until]. now rewrite Hstmt.
  - apply bind_inv_ok in H. destruct H as (v & s1 & Hv & H).
    apply bind_inv_ok in H. destruct H as (vs & s2 & Hvs & H).
    apply ret_inv_ok in H. destruct H as [-> ->].
    cbn [app banter_until]. rewrite Hx.
    rewrite (bind_ok _ _ _ _ _ Hv), (bind_ok _ _ _ _ _ (IH _ _ _ Hvs)).
    reflexivity.
Qed.

Lemma banter_until_missing visit c kw content :
  Forall (fun ch => isinstance ch c = false) content ->
  forall st vs st',
    mapM (fun ch => visit ch kw) content st = (Ok vs, st') ->
    banter_until visit c content kw st = (Ok (vs, None), st').
Proof.
  induction 1 as [|x content Hx _ IH]; intros st vs st' H; simpl in H.
  - apply ret_inv_ok in H. destruct H as [-> ->]. reflexivity.
  - apply bind_inv_ok in H. destruct H as (v & s1 & Hv & H).
    apply bind_inv_ok in H. destruct H as (vs' & s2 & Hvs & H).
    apply ret_inv_ok in H. destruct H as [-> ->].
    cbn [banter_until]. rewrite Hx.
    rewrite (bind_ok _ _ _ _ _ Hv), (bind_ok _ _ _ _ _ (IH _ _ _ Hvs)).
    reflexivity.
Qed.

Lemma rget_child_last cls item text before stmt after c :
  isinstance stmt c = true ->
  Forall (fun ch => isinstance ch c = false) after ->
  rget_child (FNode cls item text (before ++ stmt :: after)) c = Ok stmt.
Proof.
  intros Hstmt Hafter. unfold rget_child. cbn [node_children res_bind].
  rewrite rev_app_distr. cbn [rev]. rewrite <- app_assoc.
  rewrite find_app_none
    by (apply find_none_Forall; now apply Forall_rev).
  cbn [app List.find]. now rewrite Hstmt.
Qed.

(** A SELECT TYPE construct is kept as text.  For children laid out as
    nodes without SELECT TYPE statement, the SELECT TYPE statement, any
    body, the last END SELECT statement and any nodes after it, the
    handler lowers the nodes before the construct and nothing else: it
    returns them followed by one intrinsic node whose text is the raw
    source from the first line of the SELECT TYPE statement to the last
    line of END SELECT, with the label of the SELECT TYPE statement.  The
    body and the nodes after END SELECT are never visited, whatever the
    visitor would do with them.  Without SELECT TYPE statement every child
    is lowered and the handler then raises AttributeError. *)
Theorem select_type_construct_is_kept_as_text :
  forall self visit cls item text kw st,
    (forall pre sel_item sel_text sel_ch body end_item end_text end_ch post
            pre' st',
        Forall (fun c => isinstance c Select_Type_Stmt = false) pre ->
        Forall (fun c => isinstance c End_Select_Type_Stmt = false) post ->
        visit_all visit pre kw st = (Ok pre', st') ->
        visit_Select_Type_Construct self visit
          (FNode cls item text
             (pre ++ [FNode Select_Type_Stmt (Some sel_item) sel_text sel_ch]
                  ++ body
                  ++ [FNode End_Select_Type_Stmt (Some end_item) end_text
                        end_ch]
                  ++ post)) kw st
        = (Ok (PyTuple
                 (pre' ++
                  [Intrinsic
                     (strip_nl
                        (String.concat ""
                           (py_slice (raw_source self)
                              (fst (span sel_item) - 1)
                              (snd (span end_item)))))
                     (item_label sel_item)
                     (Some (span_source (raw_source self)
                              (fst (span sel_item))
                              (snd (span end_item))))])), st')) /\
    (forall content vs st',
        Forall (fun c => isinstance c Select_Type_Stmt = false) content ->
        visit_all visit content kw st = (Ok vs, st') ->
        visit_Select_Type_Construct self visit (FNode cls item text content)
          kw st
        = (Err AttributeError, st')).
Proof.
  intros self visit cls item text kw st. split.
  - intros pre sel_item sel_text sel_ch body end_item end_text end_ch post
      pre' st' Hpre Hpost Hvisit.
    unfold visit_Select_Type_Construct. cbn [node_children].
    rewrite lift_ok_bind.
    rewrite (bind_ok _ _ _ _ _
               (banter_until_found visit Select_Type_Stmt kw pre
                  (FNode Select_Type_Stmt (Some sel_item) sel_text sel_ch)
                  (body
                   ++ [FNode End_Select_Type_Stmt (Some end_item) end_text
                         end_ch] ++ post)
                  Hpre eq_refl st pre' st' Hvisit)).
    cbn [fst snd].
    replace (pre ++ [FNode Select_Type_Stmt (Some sel_item) sel_text sel_ch]
                 ++ body
                 ++ [FNode End_Select_Type_Stmt (Some end_item) end_text
                       end_ch] ++ post)%list
      with ((pre ++ [FNode Select_Type_Stmt (Some sel_item) sel_text sel_ch]
                 ++ body)
            ++ FNode End_Select_Type_Stmt (Some end_item) end_text end_ch
               :: post)%list
      by (now rewrite <- !app_assoc).
    rewrite rget_child_last by (reflexivity || assumption).
    reflexivity.
  - intros content vs st' Hno Hvisit.
    unfold visit_Select_Type_Construct. cbn [node_children].
    rewrite lift_ok_bind.
    rewrite (bind_ok _ _ _ _ _
               (banter_until_missing visit Select_Type_Stmt kw content Hno
                  st vs st' Hvisit)).
    cbn [fst snd]. unfold get_child.
    rewrite (proj2 (find_none_Forall _ content) Hno).
    unfold rget_child. cbn [node_children res_bind]. reflexivity.
Qed.

Lemma select_type_construct_is_kept_as_text_witness :
  visit_Select_Type_Construct select_type_visitor (call_visitor 1)
    (FNode (Unhandled "Select_Type_Construct" true) None ""
       ([name_node "c"]
        ++ [FNode Select_Type_Stmt
              (Some {| span := (1, 1); item_label := Some "10";
                       item_name := None |}) "SELECT TYPE (p)" []]
        ++ [name_node "t"; name_node "x"]
        ++ [FNode End_Select_Type_Stmt
              (Some {| span := (4, 4); item_label := None;
                       item_name := None |}) "END SELECT" []]
        ++ [name_node "d"]))
    no_kwargs strict_state
  = (Ok (PyTuple
           ([SymVariable "c" PyNone PyNone None None] ++
            [Intrinsic
               (strip_nl (String.concat ""
                            (py_slice select_type_source (1 - 1) 4)))
               (Some "10")
               (Some (span_source select_type_source 1 4))])),
     strict_state) /\
  visit_Select_Type_Construct select_type_visitor (call_visitor 1)
    (FNode (Unhandled "Select_Type_Construct" true) None ""
       [name_node "c"; name_node "d"])
    no_kwargs strict_state
  = (Err AttributeError, strict_state).
Proof.
  split.
  - apply (proj1 (select_type_construct_is_kept_as_text select_type_visitor
                    (call_visitor 1) (Unhandled "Select_Type_Construct" true)
                    None "" no_kwargs strict_state)
             [name_node "c"]
             {| span := (1, 1); item_label := Some "10"; item_name := None |}
             "SELECT TYPE (p)" [] [name_node "t"; name_node "x"]
             {| span := (4, 4); item_label := None; item_name := None |}
             "END SELECT" [] [name_node "d"]
             [SymVariable "c" PyNone PyNone None None] strict_state).
    + repeat constructor.
    + repeat constructor.
    + reflexivity.
  - apply (proj2 (select_type_construct_is_kept_as_text select_type_visitor
                    (call_visitor 1) (Unhandled "Select_Type_Construct" true)
                    None "" no_kwargs strict_state)
             [name_node "c"; name_node "d"]
             [SymVariable "c" PyNone PyNone None None;
              SymVariable "d" PyNone PyNone None None] strict_state).
    + repeat constructor.
    + reflexivity.
Defined.

(** ** Line breaks of the Fortran printer *)

Lemma scan_lines_app a b acc :
  scan_lines (a ++ b) acc = scan_lines b (scan_lines a acc).
Proof.
  revert acc. induction a as [|c a IH]; intros acc; [reflexivity|].
  rewrite append_cons. cbn [scan_lines]. apply IH.
Qed.

Lemma scan_lines_no_newline t acc :
  no_newline t -> scan_lines t acc = (fst acc + len t, snd acc).
Proof.
  unfold no_newline, len. revert acc.
  induction t as [|c t IH]; intros acc H.
  - cbn. destruct acc. cbn. f_equal. lia.
  - cbn [list_ascii_of_string] in H. inversion H as [|? ? Hc Ht]; subst.
    cbn [scan_lines String.length].
    destruct (Ascii.eqb_spec c nl) as [->|_]; [contradiction|].
    rewrite (IH _ Ht). cbn [fst snd]. f_equal. lia.
Qed.

Lemma append_within_linewidth self lw txt :
  no_newline (indent self) ->
  no_newline txt -> len txt <= linewidth self ->
  within_linewidth self lw ->
  within_linewidth self (append self (fst lw) txt (snd lw)).
Proof.
  intros Hindent Htxt Hlen (Hw & Hcur & Hbest).
  assert (Hpos : 0 <= len txt) by (unfold len; lia).
  assert (Hipos : 0 <= len (indent self)) by (unfold len; lia).
  unfold within_linewidth, append.
  destruct (Z.ltb_spec (linewidth self) (snd lw + len txt)); cbn [fst snd].
  - rewrite !scan_lines_app.
    change (scan_lines "&" (scan_lines (fst lw) (0, 0)))
      with (fst (scan_lines (fst lw) (0, 0)) + 1,
            snd (scan_lines (fst lw) (0, 0))).
    change (String nl (indent self)) with (String nl "" ++ indent self).
    rewrite scan_lines_app.
    change (scan_lines (String nl "")
              (fst (scan_lines (fst lw) (0, 0)) + 1,
               snd (scan_lines (fst lw) (0, 0))))
      with (0, Z.max (snd (scan_lines (fst lw) (0, 0)))
                     (fst (scan_lines (fst lw) (0, 0)) + 1)).
    rewrite (scan_lines_no_newline (indent self)) by assumption.
    cbn [fst snd]. rewrite (scan_lines_no_newline "& ")
      by (repeat constructor; discriminate).
    rewrite (scan_lines_no_newline txt) by assumption.
    cbn [fst snd]. change (len "& ") with 2. lia.
  - rewrite scan_lines_app, (scan_lines_no_newline txt) by assumption.
    cbn [fst snd]. lia.
Qed.

(** Line breaks keep every line short.  Starting from the empty line,
    any sequence of calls of [append] with texts that contain no line
    break and are no longer than the line width yields a text in which
    no line is longer than the line width, the indentation and three
    more characters (the continuation marks), and leaves a tracked width
    within the line width. *)
Theorem append_keeps_lines_short :
  forall self texts,
    0 <= linewidth self ->
    no_newline (indent self) ->
    Forall (fun txt => no_newline txt /\ len txt <= linewidth self) texts ->
    longest_line (fst (append_all self texts ("", 0)))
    <= linewidth self + len (indent self) + 3 /\
    0 <= snd (append_all self texts ("", 0)) <= linewidth self.
Proof.
  intros self texts Hwidth Hindent Htexts.
  assert (Hipos : 0 <= len (indent self)) by (unfold len; lia).
  assert (H : within_linewidth self (append_all self texts ("", 0))).
  { unfold append_all.
    assert (H0 : within_linewidth self ("", 0))
      by (unfold within_linewidth; cbn; lia).
    revert H0. generalize ("", 0). induction Htexts as [|t ts [Ht Hl] _ IH];
      intros lw Hlw; [exact Hlw|].
    cbn [fold_left]. apply IH. now apply append_within_linewidth. }
  destruct H as (Hw & Hcur & Hbest). unfold longest_line. cbv zeta.
  split; [lia|exact Hw].
Qed.

Lemma append_keeps_lines_short_witness :
  longest_line
    (fst (append_all
            {| linewidth := 6; indent := "  "; op_spaces := false;
               parenthesise := false |}
            ["alpha"; " + "; "beta"; " + "; "gamma"] ("", 0)))
  <= 6 + len "  " + 3 /\
  0 <= snd (append_all
              {| linewidth := 6; indent := "  "; op_spaces := false;
                 parenthesise := false |}
              ["alpha"; " + "; "beta"; " + "; "gamma"] ("", 0)) <= 6.
Proof.
  apply (append_keeps_lines_short
           {| linewidth := 6; indent := "  "; op_spaces := false;
              parenthesise := false |}
           ["alpha"; " + "; "beta"; " + "; "gamma"]).
  - simpl. lia.
  - repeat constructor; discriminate.
  - repeat constructor; try discriminate; vm_compute; discriminate.
Defined.

(** ** Options of an ALLOCATE statement *)

Lemma mapM_In {A B} (f : A -> M B) l x :
  In x l ->
  forall st ys st',
    mapM f l st = (Ok ys, st') ->
    exists s y s', f x s = (Ok y, s') /\ In y ys.
Proof.
  induction l as [|a l IH]; intros Hin st ys st' H; [contradiction|].
  simpl in H.
  apply bind_inv_ok in H. destruct H as (y & s1 & Hy & H).
  apply bind_inv_ok in H. destruct H as (ys' & s2 & Hys & H).
  apply ret_inv_ok in H. destruct H as [-> ->].
  destruct Hin as [->|Hin].
  - exists st, y, s1. split; [exact Hy|now left].
  - destruct (IH Hin _ _ _ Hys) as (s & y' & s' & Hf & Hy').
    exists s, y', s'. split; [exact Hf|now right].
Qed.

Lemma mapR_In {A B} (f : A -> res B) l ys x :
  mapR f l = Ok ys -> In x l -> exists y, f x = Ok y.
Proof.
  revert ys. induction l as [|a l IH]; intros ys H Hin; [contradiction|].
  simpl in H. destruct (f a) as [y|e] eqn:Ea; [|discriminate].
  cbn [res_bind] in H. destruct (mapR f l) as [ys'|e] eqn:El; [|discriminate].
  destruct Hin as [->|Hin]; [now exists y|]. now apply (IH ys').
Qed.

Lemma unsupported_option_gives_None visit o kw st v st' :
  unsupported_option o ->
  visit_Alloc_Opt visit o kw st = (Ok v, st') -> v = PyNone.
Proof.
  intros (cls & item & text & k & rest & -> & Hk) H.
  unfold visit_Alloc_Opt in H.
  cbn [child node_children res_bind nth_error] in H.
  rewrite !lift_ok_bind in H.
  destruct (String.eqb_spec (lower k) "source") as [E|_]; [contradiction|].
  apply bind_inv_ok in H. destruct H as (u & s1 & _ & H).
  apply ret_inv_ok in H. now destruct H as [-> _].
Qed.

(** SOURCE is the only option of ALLOCATE that can be lowered.  With the
    single option [SOURCE=e] (in any letter case) and no type
    specification, the expression [e] is lowered first and the list of
    allocations after it, and the statement becomes an allocation with
    the value of [e] as its data source.  A statement with any other
    option never yields a result, in strict or in lenient mode: in
    lenient mode the option is only warned about, but the value [None]
    it lowers to cannot be entered into the table of options. *)
Theorem allocate_options :
  forall visit Allocation cls item text c1 lcls litem ltext kw st,
    (forall ocls oitem otext k e v st1 variables st2,
        (forall s,
            visit (FNode lcls litem ltext
                     [FNode ocls oitem otext [FStr k; e]]) kw s
            = visit_List visit
                (FNode lcls litem ltext
                   [FNode ocls oitem otext [FStr k; e]]) kw s) ->
        (forall s,
            visit (FNode ocls oitem otext [FStr k; e]) kw s
            = visit_Alloc_Opt visit (FNode ocls oitem otext [FStr k; e])
                kw s) ->
        lower k = "source" ->
        visit e kw st = (Ok v, st1) ->
        visit c1 kw st1 = (Ok variables, st2) ->
        visit_Allocate_Stmt visit Allocation
          (FNode cls item text
             [FNone; c1;
              FNode lcls litem ltext [FNode ocls oitem otext [FStr k; e]]])
          kw st
        = (Ok (Allocation variables v (kw_source kw) (kw_label kw)), st2)) /\
    (forall c0 opts,
        (forall s,
            visit (FNode lcls litem ltext opts) kw s
            = visit_List visit (FNode lcls litem ltext opts) kw s) ->
        (forall o, In o opts ->
           forall s, visit o kw s = visit_Alloc_Opt visit o kw s) ->
        Exists unsupported_option opts ->
        forall r st',
          visit_Allocate_Stmt visit Allocation
            (FNode cls item text [c0; c1; FNode lcls litem ltext opts]) kw st
          <> (Ok r, st')).
Proof.
  intros visit Allocation cls item text c1 lcls litem ltext kw st.
  split.
  - intros ocls oitem otext k e v st1 variables st2 Hlist Hopt Hk He Hvars.
    assert (Hc2 : visit (FNode lcls litem ltext
                           [FNode ocls oitem otext [FStr k; e]]) kw st
                  = (Ok (PyTuple [PyTuple [PyStr "source"; v]]), st1)).
    { assert (Hrun : visit (FNode ocls oitem otext [FStr k; e]) kw st
                     = (Ok (PyTuple [PyStr "source"; v]), st1)).
      { rewrite Hopt. unfold visit_Alloc_Opt.
        cbn [child node_children res_bind nth_error].
        rewrite !lift_ok_bind, Hk.
        change (String.eqb "source" "source") with true. cbv iota.
        rewrite lift_ok_bind, (bind_ok _ _ _ _ _ He). reflexivity. }
      assert (Hm : mapM (fun c => visit c kw)
                     [FNode ocls oitem otext [FStr k; e]] st
                   = (Ok [PyTuple [PyStr "source"; v]], st1))
        by (cbn [mapM]; rewrite (bind_ok _ _ _ _ _ Hrun); reflexivity).
      rewrite Hlist. unfold visit_List, visit_all. cbn [node_children].
      rewrite lift_ok_bind, (bind_ok _ _ _ _ _ Hm). reflexivity. }
    unfold visit_Allocate_Stmt.
    cbn [child node_children res_bind nth_error].
    rewrite lift_ok_bind. cbn [is_none]. rewrite bind_ret, lift_ok_bind.
    cbn [is_none]. rewrite !bind_assoc, (bind_ok _ _ _ _ _ Hc2).
    cbn [py_dict iter_object res_bind mapR pair_of].
    rewrite !lift_ok_bind, (bind_ok _ _ _ _ _ Hvars). reflexivity.
  - intros c0 opts Hlist Hopts Hbad r st' H.
    apply List.Exists_exists in Hbad. destruct Hbad as (bad & Hin & Hbad).
    unfold visit_Allocate_Stmt in H.
    cbn [child node_children res_bind nth_error] in H.
    rewrite lift_ok_bind in H.
    apply bind_inv_ok in H. destruct H as (u & s1 & _ & H).
    rewrite lift_ok_bind in H. cbn [is_none] in H.
    apply bind_inv_ok in H. destruct H as (d & s2 & Hd & _).
    apply bind_inv_ok in Hd. destruct Hd as (ov & s3 & Hv & Hd).
    apply lift_inv_ok in Hd. destruct Hd as [Hd _].
    rewrite Hlist in Hv. unfold visit_List, visit_all in Hv.
    cbn [node_children] in Hv. rewrite lift_ok_bind in Hv.
    apply bind_inv_ok in Hv. destruct Hv as (items & s4 & Hitems & Hv).
    apply ret_inv_ok in Hv. destruct Hv as [-> _].
    destruct (mapM_In _ _ _ Hin _ _ _ Hitems) as (s & y & s' & Hy & Hyin).
    rewrite (Hopts bad Hin) in Hy.
    apply (unsupported_option_gives_None visit) in Hy; [|exact Hbad].
    subst y. cbn [py_dict iter_object res_bind] in Hd.
    destruct (mapR_In _ _ _ _ Hd Hyin) as (p & Hp). discriminate.
Qed.

Lemma allocate_options_witness :
  let Allocation variables data_source (src : option Source)
                 (label : option string) :=
    PyTuple [PyStr "Allocation"; variables; data_source] in
  let option k :=
    FNode (Unhandled "Alloc_Opt" false) None "" [FStr k; name_node "y"] in
  let run opts :=
    visit_Allocate_Stmt (alloc_visitor 3) Allocation
      (FNode (Unhandled "Allocate_Stmt" false) None ""
         [FNone;
          FNode (Unhandled "Allocation_List" false) None "" [name_node "x"];
          FNode (Unhandled "Alloc_Opt_List" false) None "" opts])
      no_kwargs lenient_state in
  run [option "SOURCE"]
  = (Ok (Allocation (PyTuple [SymVariable "x" PyNone PyNone None None])
           (SymVariable "y" PyNone PyNone None None) None None),
     lenient_state) /\
  run [option "STAT"] <> (Ok PyNone, lenient_state).
Proof.
  cbv zeta.
  pose (Allocation := fun variables data_source (src : option Source)
                          (label : option string) =>
                        PyTuple [PyStr "Allocation"; variables; data_source]).
  pose proof (allocate_options (alloc_visitor 3) Allocation
                (Unhandled "Allocate_Stmt" false) None ""
                (FNode (Unhandled "Allocation_List" false) None ""
                   [name_node "x"])
                (Unhandled "Alloc_Opt_List" false) None "" no_kwargs
                lenient_state) as [Hsource Hother].
  split.
  - apply (Hsource (Unhandled "Alloc_Opt" false) None "" "SOURCE"
             (name_node "y") (SymVariable "y" PyNone PyNone None None)
             lenient_state
             (PyTuple [SymVariable "x" PyNone PyNone None None])
             lenient_state); try reflexivity; intros s; reflexivity.
  - apply (Hother FNone
             [FNode (Unhandled "Alloc_Opt" false) None ""
                [FStr "STAT"; name_node "y"]]).
    + intros s. reflexivity.
    + intros o [<-|[]] s. reflexivity.
    + constructor. exists (Unhandled "Alloc_Opt" false), None, "", "STAT",
        [name_node "y"]. split; [reflexivity|discriminate].
Defined.

(** ** Line breaks of a whole expression *)

Section LinesFit.

Variable self : FExprCodegen.
Variable str : value -> res string.
Hypothesis Hwidth : 4 <= linewidth self.
Hypothesis Hindent : no_newline (indent self).

Lemma append_fits lw txt :
  within_linewidth self lw -> fits self txt ->
  within_linewidth self (append self (fst lw) txt (snd lw)).
Proof.
  intros Hlw [Hnl Hlen]. now apply append_within_linewidth.
Qed.

Lemma append_fits_at line width txt :
  within_linewidth self (line, width) -> fits self txt ->
  within_linewidth self (append self line txt width).
Proof. intros Hlw Hfit. exact (append_fits (line, width) txt Hlw Hfit). Qed.

Lemma paren_open_fits p lw :
  within_linewidth self lw -> within_linewidth self (paren_open self p lw).
Proof.
  intros Hlw. unfold paren_open. destruct (p || parenthesise self);
    [|exact Hlw].
  apply append_fits; [exact Hlw|].
  split; [repeat constructor; discriminate | unfold len; simpl; lia].
Qed.

Lemma paren_close_fits p lw :
  within_linewidth self lw -> within_linewidth self (paren_close self p lw).
Proof.
  intros Hlw. unfold paren_close. destruct (p || parenthesise self);
    [|exact Hlw].
  apply append_fits; [exact Hlw|].
  split; [repeat constructor; discriminate | unfold len; simpl; lia].
Qed.

Lemma atoms_fit_all (l : list value) :
  (fix all (l : list value) : Prop :=
     match l with
     | [] => True
     | x :: r => atoms_fit self str x /\ all r
     end) l
  <-> Forall (atoms_fit self str) l.
Proof.
  induction l as [|x l IH].
  - split; [constructor|trivial].
  - split.
    + intros [Hx Hl]. constructor; [exact Hx|now apply IH].
    + intros H. inversion H; subst. split; [assumption|now apply IH].
Qed.

Lemma operation_pairs_keeps_within ops rest :
  Forall (keeps_within self str) rest ->
  Forall (atoms_fit self str) rest ->
  Forall (fun op => fits self op /\ fits self (s_op self op)) ops ->
  forall lw r,
    within_linewidth self lw ->
    operation_pairs self str ops rest lw = Ok r ->
    within_linewidth self r.
Proof.
  intros Hkeep. revert ops.
  induction Hkeep as [|x rest Hx _ IH]; intros ops Hfit Hops lw r Hlw Hrun.
  - destruct ops; cbn [operation_pairs] in Hrun; injection Hrun as <-;
      exact Hlw.
  - destruct ops as [|op ops]; cbn [operation_pairs] in Hrun.
    + injection Hrun as <-. exact Hlw.
    + cbv zeta in Hrun.
      inversion Hfit as [|? ? Hfx Hfrest]; subst.
      inversion Hops as [|? ? [_ Hop] Hops']; subst.
      pose proof (append_fits lw (s_op self op) Hlw Hop) as H1.
      destruct (append self (fst lw) (s_op self op) (snd lw)) as [s1 w1].
      cbn [fst snd] in Hrun.
      destruct (fexpr_visit self str x s1 w1) as [lw2|err] eqn:E;
        cbn [res_bind] in Hrun; [|discriminate].
      apply (IH ops Hfrest Hops' lw2 r); [|exact Hrun].
      exact (Hx Hfx s1 w1 lw2 H1 E).
Qed.

Lemma fexpr_visit_keeps_within : forall o, keeps_within self str o.
Proof.
  assert (Htoken : forall txt,
             no_newline txt -> len txt <= 4 -> fits self txt)
    by (intros txt Hnl Hlen; split; [exact Hnl|lia]).
  apply printed_parts_ind. intros o Hparts Hfit line width r Hlw Hrun.
  destruct o; try discriminate;
    try (cbn [fexpr_visit] in Hrun; cbn [atoms_fit] in Hfit;
         destruct (str _) as [txt|err] eqn:E; cbn [res_bind] in Hrun;
         [|discriminate]; injection Hrun as <-;
         apply append_fits_at; [exact Hlw|now apply Hfit]).
  - (* PyStr *)
    cbn [fexpr_visit] in Hrun. injection Hrun as <-.
    now apply append_fits_at.
  - (* PyTuple *)
    cbn [fexpr_visit] in Hrun. cbn [atoms_fit] in Hfit.
    apply atoms_fit_all in Hfit. simpl in Hparts.
    revert line width r Hlw Hrun Hfit.
    induction Hparts as [|e rest He _ IH]; intros line width r Hlw Hrun Hfit.
    + injection Hrun as <-. exact Hlw.
    + inversion Hfit as [|? ? Hfe Hfrest]; subst.
      destruct (fexpr_visit self str e line width) as [[s1 w1]|err] eqn:E;
        cbn [res_bind] in Hrun; [|discriminate].
      pose proof (He Hfe line width (s1, w1) Hlw E) as H1.
      destruct rest as [|e' rest'].
      * injection Hrun as <-. exact H1.
      * cbn [fst snd] in Hrun.
        apply (IH (fst (append self s1 ", " w1))
                  (snd (append self s1 ", " w1)) r); [|exact Hrun|exact Hfrest].
        rewrite <- surjective_pairing. apply append_fits_at; [exact H1|].
        apply Htoken; [repeat constructor; discriminate | unfold len; simpl; lia].
  - (* SymVariable *)
    cbn [fexpr_visit] in Hrun. cbn [atoms_fit] in Hfit.
    destruct Hfit as [Hname Hdims]. simpl in Hparts.
    pose proof (append_fits_at line width name Hlw Hname) as H1.
    destruct (append self line name width) as [s1 w1]. cbn [fst snd] in Hrun.
    destruct o1; try discriminate; try (injection Hrun as <-; exact H1).
    destruct items as [|d ds]; [injection Hrun as <-; exact H1|].
    assert (H2 : within_linewidth self (append self s1 "(" w1))
      by (apply append_fits_at; [exact H1|];
          apply Htoken; [repeat constructor; discriminate | unfold len; simpl; lia]).
    destruct (append self s1 "(" w1) as [s2 w2]. cbn [fst snd] in Hrun.
    destruct (fexpr_visit self str (PyTuple (d :: ds)) s2 w2)
      as [[s3 w3]|err] eqn:E; cbn [res_bind] in Hrun; [|discriminate].
    injection Hrun as <-. cbn [fst snd].
    apply append_fits_at;
      [exact (Hparts Hdims s2 w2 (s3, w3) H2 E)
      |apply Htoken; [repeat constructor; discriminate | unfold len; simpl; lia]].
  - (* InlineCall *)
    cbn [fexpr_visit] in Hrun. cbn [atoms_fit] in Hfit.
    destruct Hfit as [Hname Hargs]. simpl in Hparts.
    destruct (var_name o1) as [nm|err]; cbn [res_bind] in Hrun;
      [|discriminate].
    pose proof (append_fits_at line width (nm ++ "(") Hlw (Hname nm eq_refl))
      as H1.
    destruct (append self line (nm ++ "(") width) as [s1 w1].
    cbn [fst snd] in Hrun.
    assert (Hclose : forall lw, within_linewidth self lw ->
              within_linewidth self (append self (fst lw) ")" (snd lw)))
      by (intros lw Hin; apply append_fits; [exact Hin|];
          apply Htoken; [repeat constructor; discriminate | unfold len; simpl; lia]).
    destruct o2; try discriminate.
    apply atoms_fit_all in Hargs.
    destruct Hparts as [|a rest Ha Hrest].
    + cbn [res_bind] in Hrun. injection Hrun as <-. now apply (Hclose (s1, w1)).
    + inversion Hargs as [|? ? Hfa Hfrest]; subst.
      destruct (fexpr_visit self str a s1 w1) as [lw2|err] eqn:E;
        cbn [res_bind] in Hrun; [|discriminate].
      pose proof (Ha Hfa s1 w1 lw2 H1 E) as H2.
      clear E H1 Hfa Ha Hargs. revert lw2 H2 Hrun.
      induction Hrest as [|arg rest Harg _ IH]; intros lw2 H2 Hrun.
      * cbn [res_bind] in Hrun. injection Hrun as <-. now apply Hclose.
      * inversion Hfrest as [|? ? Hfarg Hfrest']; subst.
        assert (H3 : within_linewidth self
                       (append self (fst lw2) "," (snd lw2)))
          by (apply append_fits; [exact H2|];
              apply Htoken; [repeat constructor; discriminate | unfold len; simpl; lia]).
        destruct (append self (fst lw2) "," (snd lw2)) as [s3 w3].
        cbn [fst snd] in Hrun.
        destruct (fexpr_visit self str arg s3 w3) as [lw4|err] eqn:E;
          cbn [res_bind] in Hrun; [|discriminate].
        apply (IH Hfrest' lw4); [|exact Hrun].
        exact (Harg Hfarg s3 w3 lw4 H3 E).
  - (* Statement *)
    cbn [fexpr_visit] in Hrun. cbn [atoms_fit] in Hfit.
    destruct Hfit as [Hf1 Hf2]. simpl in Hparts. destruct Hparts as [H1 H2].
    destruct (fexpr_visit self str o1 line width) as [[s1 w1]|err] eqn:E;
      cbn [res_bind] in Hrun; [|discriminate].
    pose proof (H1 Hf1 line width (s1, w1) Hlw E) as Hin1.
    cbn [fst snd] in Hrun.
    assert (Hin2 : within_linewidth self
                     (append self s1 (if ptr then " => " else " = ") w1))
      by (apply append_fits_at; [exact Hin1|];
          apply Htoken; destruct ptr;
            (repeat constructor; discriminate) || (unfold len; simpl; lia)).
    destruct (append self s1 (if ptr then " => " else " = ") w1) as [s2 w2].
    exact (H2 Hf2 s2 w2 r Hin2 Hrun).
  - (* Operation *)
    rewrite fexpr_visit_Operation in Hrun. cbn [atoms_fit] in Hfit.
    destruct Hfit as [Hops Hoperands]. apply atoms_fit_all in Hoperands.
    simpl in Hparts.
    assert (Hgen : forall first rest,
               keeps_within self str first ->
               Forall (keeps_within self str) rest ->
               atoms_fit self str first ->
               Forall (atoms_fit self str) rest ->
               (let lw := paren_open self parenthesis (line, width) in
                let? lw := fexpr_visit self str first (fst lw) (snd lw) in
                let? lw := operation_pairs self str ops rest lw in
                Ok (paren_close self parenthesis lw)) = Ok r ->
               within_linewidth self r).
    { intros first rest Hk Hks Hf Hfs Hr. cbv zeta in Hr.
      pose proof (paren_open_fits parenthesis (line, width) Hlw) as H1.
      destruct (paren_open self parenthesis (line, width)) as [s1 w1].
      cbn [fst snd] in Hr.
      destruct (fexpr_visit self str first s1 w1) as [lw2|err] eqn:E;
        cbn [res_bind] in Hr; [|discriminate].
      destruct (operation_pairs self str ops rest lw2) as [lw3|err] eqn:E3;
        cbn [res_bind] in Hr; [|discriminate].
      injection Hr as <-. apply paren_close_fits.
      apply (operation_pairs_keeps_within ops rest Hks Hfs Hops lw2 lw3);
        [|exact E3].
      exact (Hk Hf s1 w1 lw2 H1 E). }
    destruct operands as [|first rest];
      [destruct ops as [|? [|? ?]]; discriminate|].
    inversion Hparts as [|? ? Hk Hks]; subst.
    inversion Hoperands as [|? ? Hf Hfs]; subst.
    destruct ops as [|op [|op2 ops]]; try (now apply (Hgen first rest)).
    destruct rest as [|second rest]; [|now apply (Hgen first (second :: rest))].
    cbv zeta in Hrun.
    inversion Hops as [|? ? [Hop _] _]; subst.
    pose proof (paren_open_fits parenthesis (line, width) Hlw) as H1.
    pose proof (append_fits _ op H1 Hop) as H2.
    destruct (append self (fst (paren_open self parenthesis (line, width)))
                op (snd (paren_open self parenthesis (line, width))))
      as [s2 w2].
    cbn [fst snd] in Hrun.
    destruct (fexpr_visit self str first s2 w2) as [lw3|err] eqn:E;
      cbn [res_bind] in Hrun; [|discriminate].
    injection Hrun as <-. apply paren_close_fits.
    exact (Hk Hf s2 w2 lw3 H2 E).
  - (* LiteralList *)
    cbn [fexpr_visit] in Hrun. cbn [atoms_fit] in Hfit. simpl in Hparts.
    assert (H1 : within_linewidth self (append self line "(/" width))
      by (apply append_fits_at; [exact Hlw|];
          apply Htoken; [repeat constructor; discriminate | unfold len; simpl; lia]).
    destruct (append self line "(/" width) as [s1 w1]. cbn [fst snd] in Hrun.
    destruct (fexpr_visit self str o s1 w1) as [[s2 w2]|err] eqn:E;
      cbn [res_bind] in Hrun; [|discriminate].
    injection Hrun as <-. cbn [fst snd].
    apply append_fits_at;
      [exact (Hparts Hfit s1 w1 (s2, w2) H1 E)
      |apply Htoken; [repeat constructor; discriminate | unfold len; simpl; lia]].
  - (* Variable_ *)
    cbn [fexpr_visit] in Hrun. cbn [atoms_fit] in Hfit.
    destruct Hfit as (Hname & Hfdims & Hfsub). simpl in Hparts.
    destruct Hparts as [Hkd Hks].
    pose proof (append_fits_at line width name Hlw Hname) as H1.
    destruct (append self line name width) as [s1 w1]. cbn [fst snd] in Hrun.
    assert (Htail : forall lw r0,
               within_linewidth self lw ->
               match o2 with
               | PyNone => Ok lw
               | _ => fexpr_visit self str o2
                        (fst (append self (fst lw) "%" (snd lw)))
                        (snd (append self (fst lw) "%" (snd lw)))
               end = Ok r0 ->
               within_linewidth self r0).
    { intros lw r0 Hin Hr.
      assert (Hgo : fexpr_visit self str o2
                      (fst (append self (fst lw) "%" (snd lw)))
                      (snd (append self (fst lw) "%" (snd lw))) = Ok r0 ->
                    within_linewidth self r0).
      { intros Hr'.
        apply (Hks Hfsub (fst (append self (fst lw) "%" (snd lw)))
                 (snd (append self (fst lw) "%" (snd lw))) r0);
          [|exact Hr'].
        rewrite <- surjective_pairing. apply append_fits; [exact Hin|].
        apply Htoken; [repeat constructor; discriminate | unfold len; simpl; lia]. }
      destruct o2; try exact (Hgo Hr). injection Hr as <-. exact Hin. }
    destruct o1; cbn [res_bind] in Hrun; try discriminate.
    + exact (Htail (s1, w1) r H1 Hrun).
    + destruct items as [|d ds];
        [cbn [res_bind] in Hrun; exact (Htail (s1, w1) r H1 Hrun)|].
      assert (H2 : within_linewidth self (append self s1 "(" w1))
        by (apply append_fits_at; [exact H1|];
            apply Htoken; [repeat constructor; discriminate | unfold len; simpl; lia]).
      destruct (append self s1 "(" w1) as [s2 w2]. cbn [fst snd] in Hrun.
      destruct (fexpr_visit self str (PyTuple (d :: ds)) s2 w2)
        as [[s3 w3]|err] eqn:E; cbn [res_bind fst snd] in Hrun;
        [|discriminate].
      apply (Htail (append self s3 ")" w3) r); [|exact Hrun].
      apply append_fits_at;
        [exact (Hkd Hfdims s2 w2 (s3, w3) H2 E)
        |apply Htoken; [repeat constructor; discriminate | unfold len; simpl; lia]].
Qed.

End LinesFit.

(** The printed expression respects the line width.  When the line width
    is at least 4, the indentation holds no line break and every text
    taken from the expression (names, operators, [str] of literals) has
    no line break and is no longer than the line width, no line of the
    text that [fexprgen] returns is longer than the line width, the
    indentation and three more characters (the continuation marks). *)
Theorem fexprgen_lines_fit :
  forall self str expr text,
    4 <= linewidth self ->
    no_newline (indent self) ->
    atoms_fit self str expr ->
    fexprgen str expr self = Ok text ->
    longest_line text <= linewidth self + len (indent self) + 3.
Proof.
  intros self str expr text Hwidth Hindent Hfit Hrun.
  unfold fexprgen in Hrun.
  destruct (fexpr_visit self str expr "" 0) as [lw|err] eqn:E;
    cbn [res_bind] in Hrun; [|discriminate].
  injection Hrun as <-.
  assert (Hipos : 0 <= len (indent self)) by (unfold len; lia).
  assert (H0 : within_linewidth self ("", 0))
    by (unfold within_linewidth; unfold len; simpl; lia).
  destruct (fexpr_visit_keeps_within self str Hwidth Hindent expr Hfit
              "" 0 lw H0 E) as (Hw & Hcur & Hbest).
  unfold longest_line. cbv zeta. lia.
Qed.

Lemma fexprgen_lines_fit_witness :
  longest_line
    (match fexprgen print_text
             (Operation ["+"; "+"] [PyStr "alpha"; PyStr "beta"; PyStr "gamma"]
                false)
             {| linewidth := 6; indent := "  "; op_spaces := false;
                parenthesise := false |}
     with
     | Ok text => text
     | Err _ => ""
     end)
  <= 6 + len "  " + 3.
Proof.
  apply (fexprgen_lines_fit
           {| linewidth := 6; indent := "  "; op_spaces := false;
              parenthesise := false |}
           print_text
           (Operation ["+"; "+"] [PyStr "alpha"; PyStr "beta"; PyStr "gamma"]
              false)).
  - simpl. lia.
  - repeat constructor; discriminate.
  - cbn [atoms_fit]. unfold fits, s_op. cbn [op_spaces linewidth].
    repeat split; try (repeat constructor; discriminate);
      unfold len; simpl; lia.
  - reflexivity.
Defined.
